(** * JSCollector: pattern registry and finding ledger

    A shallow embedding of [pattern_manager.py] (class [PatternManager]) and
    of the analysis part of [jscollector.py] (class [BurpExtender]), with the
    properties of the registry, of the validators and of the deduplication
    ledger proved over it.  The proxy listener, the results panel of
    [ui/results_panel.py] and the actions of the dialog of
    [ui/pattern_config_dialog.py] are embedded as far as they read and write
    the registry, the ledger and the lists of the panel.

    Conventions of the embedding:
    - Python text is [string]; [len] is [String.length].
    - a Python [dict] keyed by strings is a [gmap string _], a Python [set]
      of strings a [gset string].  A Python 2 dictionary yields its keys
      in the order of its hash table, not in the order in which they were
      set; a [gmap] lists its keys in an order of its own, which stands
      for that of the interpreter.  Where the order of a dictionary
      matters, the statement is made for any order in which the dictionary
      may yield its keys, and the tables of CPython 2.7 and of Jython 2.7
      are modelled for dictionaries of a few keys.
    - the methods that mutate [self] take the object and return the new one
      together with the Python return value. *)

From Stdlib Require Import ZArith Lia Bool Ascii.
From stdpp Require Import gmap strings list fin_maps.

Set Warnings "-clear-no-such-hyp".

Local Open Scope Z_scope.
Local Open Scope nat_scope.

(** ** Python string operations used by the source *)

Module PyStr.

(** The character written with a doubled mark inside a Python literal. *)
Definition dquote : string := String "034"%char EmptyString.

Definition len (s : string) : nat := String.length s.

Fixpoint take (n : nat) (s : string) : string :=
  match n, s with
  | S n', String c s' => String c (take n' s')
  | _, _ => EmptyString
  end.

Fixpoint drop (n : nat) (s : string) : string :=
  match n, s with
  | S n', String _ s' => drop n' s'
  | _, _ => s
  end.

(** Python's clipping of a slice bound to [0 .. len]: a negative bound
    counts from the end. *)
Definition clip (n : nat) (i : Z) : nat :=
  if (i <? 0)%Z then Z.to_nat (Z.max 0 (i + Z.of_nat n))
  else Nat.min (Z.to_nat i) n.

(** [s[start:stop]]; an absent bound is [None]. *)
Definition slice (start stop : option Z) (s : string) : string :=
  let n := len s in
  let a := match start with Some i => clip n i | None => 0 end in
  let b := match stop with Some i => clip n i | None => n end in
  take (b - a) (drop a s).

(** [s.startswith(p)] *)
Fixpoint startswith (p s : string) : bool :=
  match p, s with
  | EmptyString, _ => true
  | String a p', String b s' => if Ascii.eqb a b then startswith p' s' else false
  | String _ _, EmptyString => false
  end.

(** [s.endswith(p)] *)
Definition endswith (p s : string) : bool :=
  (len p <=? len s) && String.eqb (drop (len s - len p) s) p.

(** [sub in s] on strings *)
Fixpoint contains (sub s : string) : bool :=
  startswith sub s ||
  match s with
  | EmptyString => false
  | String _ s' => contains sub s'
  end.

(** [s.split(sep)] for a separator of one character. *)
Fixpoint split (sep : ascii) (s : string) : list string :=
  match s with
  | EmptyString => [EmptyString]
  | String c s' =>
      if Ascii.eqb c sep then EmptyString :: split sep s'
      else match split sep s' with
           | p :: ps => String c p :: ps
           | [] => [String c EmptyString]
           end
  end.

(** [l[-1]] of a list that [split] returned (never empty). *)
Definition last_part (l : list string) : string := List.last l EmptyString.

Definition is_upper (c : ascii) : bool :=
  let n := nat_of_ascii c in (65 <=? n) && (n <=? 90).
Definition is_lower (c : ascii) : bool :=
  let n := nat_of_ascii c in (97 <=? n) && (n <=? 122).
Definition is_digit (c : ascii) : bool :=
  let n := nat_of_ascii c in (48 <=? n) && (n <=? 57).

Definition lower_char (c : ascii) : ascii :=
  if is_upper c then ascii_of_nat (nat_of_ascii c + 32) else c.
Definition upper_char (c : ascii) : ascii :=
  if is_lower c then ascii_of_nat (nat_of_ascii c - 32) else c.

(** [s.lower()].  Only the letters A to Z are mapped.  The source compares
    the lowered text with words, domains and extensions made of ASCII
    characters only, and no character outside A to Z lowers to an ASCII
    one, so those comparisons do not depend on how other characters are
    mapped. *)
Fixpoint lower (s : string) : string :=
  match s with
  | EmptyString => EmptyString
  | String c s' => String (lower_char c) (lower s')
  end.

(** [s.title()] on ASCII letters: a letter that follows a letter is
    lowered, any other letter is raised. *)
Fixpoint title_from (after_letter : bool) (s : string) : string :=
  match s with
  | EmptyString => EmptyString
  | String c s' =>
      if is_upper c || is_lower c
      then String (if after_letter then lower_char c else upper_char c)
                  (title_from true s')
      else String c (title_from false s')
  end.
Definition title (s : string) : string := title_from false s.

(** [s.strip()]: blanks are tab, line feed, vertical tab, form feed,
    carriage return and space. *)
Fixpoint lstrip (s : string) : string :=
  match s with
  | String c s' => if Ascii.is_space c then lstrip s' else s
  | EmptyString => EmptyString
  end.
Fixpoint rstrip (s : string) : string :=
  match s with
  | EmptyString => EmptyString
  | String c s' =>
      match rstrip s' with
      | EmptyString => if Ascii.is_space c then EmptyString
                       else String c EmptyString
      | r => String c r
      end
  end.
Definition strip (s : string) : string := rstrip (lstrip s).

(** [any(x in s for x in words)] *)
Definition contains_any (words : list string) (s : string) : bool :=
  existsb (fun x => contains x s) words.

End PyStr.

(** ** The fragment of [re] in which the noise patterns are written

    The noise patterns are fixed in the source and use literals, character
    classes, concatenation, alternation, [?], [*], [+], [{2}] and the two
    anchors.  [search] only asks whether some match exists, so the fragment
    is given its language semantics, [matches], and the matcher is proved to
    decide it ([search_spec]); which match a backtracking engine would
    report first plays no role. *)

Module PyRe.

Inductive regex : Type :=
| Eps
| Chr (c : ascii)
| Class (p : ascii -> bool)
| Seq (r1 r2 : regex)
| Alt (r1 r2 : regex)
| Star (r : regex)
| Bol        (* [^] without MULTILINE: the start of the text *)
| Eol.       (* [$] without MULTILINE: the end, or before a final line feed *)

Definition Opt (r : regex) : regex := Alt r Eps.
Definition Plus (r : regex) : regex := Seq r (Star r).
Fixpoint Lit (s : string) : regex :=
  match s with
  | EmptyString => Eps
  | String c s' => Seq (Chr c) (Lit s')
  end.
Fixpoint Alts (rs : list regex) : regex :=
  match rs with
  | [] => Class (fun _ => false)
  | [r] => r
  | r :: rs' => Alt r (Alts rs')
  end.

Definition lower_az : regex := Class PyStr.is_lower.
Definition upper_AZ : regex := Class PyStr.is_upper.
Definition letter : regex := Class (fun c => PyStr.is_lower c || PyStr.is_upper c).
Definition digit : regex := Class PyStr.is_digit.
Definition blank : regex := Class Ascii.is_space.

Definition at_end (s : string) : bool :=
  match s with
  | EmptyString => true
  | String c EmptyString => Ascii.eqb c "010"%char
  | _ => false
  end.

(** The loop of a starred pattern: stop here, or match the pattern once
    more on a strictly shorter rest. *)
Fixpoint star_loop (step : bool -> string -> (bool -> string -> bool) -> bool)
         (k : bool -> string -> bool) (fuel : nat) (b : bool) (t : string)
  : bool :=
  k b t ||
  match fuel with
  | O => false
  | S fuel' =>
      step b t
        (fun b' t' =>
           if String.length t' <? String.length t
           then star_loop step k fuel' b' t' else false)
  end.

(** [accept r bos s k]: some prefix of [s] matches [r] and the rest
    satisfies [k]; [bos] tells whether [s] is the whole text. *)
Fixpoint accept (r : regex) (bos : bool) (s : string)
         (k : bool -> string -> bool) {struct r} : bool :=
  match r with
  | Eps => k bos s
  | Chr c =>
      match s with
      | String a s' => if Ascii.eqb a c then k false s' else false
      | EmptyString => false
      end
  | Class p =>
      match s with
      | String a s' => if p a then k false s' else false
      | EmptyString => false
      end
  | Seq r1 r2 => accept r1 bos s (fun b s' => accept r2 b s' k)
  | Alt r1 r2 => accept r1 bos s k || accept r2 bos s k
  | Star r1 => star_loop (accept r1) k (S (String.length s)) bos s
  | Bol => if bos then k bos s else false
  | Eol => if at_end s then k bos s else false
  end.

(** The language of a pattern: [matches r b s b' s'] when [r] matches a
    prefix of [s] and leaves [s']; [b] and [b'] tell whether the position
    before and after is the start of the text. *)
Inductive matches : regex -> bool -> string -> bool -> string -> Prop :=
| m_eps b s : matches Eps b s b s
| m_chr c b s : matches (Chr c) b (String c s) false s
| m_class (p : ascii -> bool) a b s :
    p a = true -> matches (Class p) b (String a s) false s
| m_seq r1 r2 b s b1 s1 b2 s2 :
    matches r1 b s b1 s1 -> matches r2 b1 s1 b2 s2 ->
    matches (Seq r1 r2) b s b2 s2
| m_alt_l r1 r2 b s b' s' : matches r1 b s b' s' -> matches (Alt r1 r2) b s b' s'
| m_alt_r r1 r2 b s b' s' : matches r2 b s b' s' -> matches (Alt r1 r2) b s b' s'
| m_star_stop r b s : matches (Star r) b s b s
| m_star_more r b s b1 s1 b2 s2 :
    matches r b s b1 s1 -> matches (Star r) b1 s1 b2 s2 ->
    matches (Star r) b s b2 s2
| m_bol s : matches Bol true s true s
| m_eol b s : at_end s = true -> matches Eol b s b s.

(** A matching step that succeeds with a continuation succeeds with any
    weaker one. *)
Definition monotone (step : bool -> string -> (bool -> string -> bool) -> bool) : Prop :=
  forall b s (k1 k2 : bool -> string -> bool),
    (forall b' s', k1 b' s' = true -> k2 b' s' = true) ->
    step b s k1 = true -> step b s k2 = true.

Fixpoint search_from (r : regex) (bos : bool) (s : string) : bool :=
  accept r bos s (fun _ _ => true) ||
  match s with
  | EmptyString => false
  | String _ s' => search_from r false s'
  end.

(** [pattern.search(value)] is not [None] *)
Definition search (r : regex) (s : string) : bool := search_from r true s.

End PyRe.

(** ** [pattern_manager.py]: the tables of [_init_builtin_patterns] *)

Module Builtin.
Import PyStr PyRe.

Definition builtin_endpoints : list (string * string) :=
  [ (("[" +:+ dquote +:+ "\']((https?:)?//[" +:+ dquote +:+ "\'][^" +:+ dquote +:+ "\']+/api/[a-zA-Z0-9/_-]+)[" +:+ dquote +:+ "\']"), "API URL");
    (("[" +:+ dquote +:+ "\'](/api/v?\d*/[a-zA-Z0-9/_-]{2,})[" +:+ dquote +:+ "\']"), "API Path");
    (("[" +:+ dquote +:+ "\'](/v\d+/[a-zA-Z0-9/_-]{2,})[" +:+ dquote +:+ "\']"), "Versioned Path");
    (("[" +:+ dquote +:+ "\'](/rest/[a-zA-Z0-9/_-]{2,})[" +:+ dquote +:+ "\']"), "REST Path");
    (("[" +:+ dquote +:+ "\'](/graphql[a-zA-Z0-9/_-]*)[" +:+ dquote +:+ "\']"), "GraphQL");
    (("[" +:+ dquote +:+ "\'](/oauth[0-9]*/[a-zA-Z0-9/_-]+)[" +:+ dquote +:+ "\']"), "OAuth");
    (("[" +:+ dquote +:+ "\'](/auth[a-zA-Z0-9/_-]*)[" +:+ dquote +:+ "\']"), "Auth");
    (("[" +:+ dquote +:+ "\'](/login[a-zA-Z0-9/_-]*)[" +:+ dquote +:+ "\']"), "Login");
    (("[" +:+ dquote +:+ "\'](/logout[a-zA-Z0-9/_-]*)[" +:+ dquote +:+ "\']"), "Logout");
    (("[" +:+ dquote +:+ "\'](/token[a-zA-Z0-9/_-]*)[" +:+ dquote +:+ "\']"), "Token");
    (("[" +:+ dquote +:+ "\'](/admin[a-zA-Z0-9/_-]*)[" +:+ dquote +:+ "\']"), "Admin");
    (("[" +:+ dquote +:+ "\'](/dashboard[a-zA-Z0-9/_-]*)[" +:+ dquote +:+ "\']"), "Dashboard");
    (("[" +:+ dquote +:+ "\'](/internal[a-zA-Z0-9/_-]*)[" +:+ dquote +:+ "\']"), "Internal");
    (("[" +:+ dquote +:+ "\'](/debug[a-zA-Z0-9/_-]*)[" +:+ dquote +:+ "\']"), "Debug");
    (("[" +:+ dquote +:+ "\'](/config[a-zA-Z0-9/_-]*)[" +:+ dquote +:+ "\']"), "Config");
    (("[" +:+ dquote +:+ "\'](/backup[a-zA-Z0-9/_-]*)[" +:+ dquote +:+ "\']"), "Backup");
    (("[" +:+ dquote +:+ "\'](/private[a-zA-Z0-9/_-]*)[" +:+ dquote +:+ "\']"), "Private");
    (("[" +:+ dquote +:+ "\'](/upload[a-zA-Z0-9/_-]*)[" +:+ dquote +:+ "\']"), "Upload");
    (("[" +:+ dquote +:+ "\'](/download[a-zA-Z0-9/_-]*)[" +:+ dquote +:+ "\']"), "Download");
    (("[" +:+ dquote +:+ "\'](/\.well-known/[a-zA-Z0-9/_-]+)[" +:+ dquote +:+ "\']"), "Well-Known");
    (("[" +:+ dquote +:+ "\'](/idp/[a-zA-Z0-9/_-]+)[" +:+ dquote +:+ "\']"), "IDP") ].

Definition builtin_urls : list (string * string) :=
  [ (("[" +:+ dquote +:+ "\'](https?://[^\s" +:+ dquote +:+ "\'<>]{10,})[" +:+ dquote +:+ "\']"), "HTTP URL");
    (("[" +:+ dquote +:+ "\'](wss?://[^\s" +:+ dquote +:+ "\'<>]{10,})[" +:+ dquote +:+ "\']"), "WebSocket");
    (("[" +:+ dquote +:+ "\'](sftp://[^\s" +:+ dquote +:+ "\'<>]{10,})[" +:+ dquote +:+ "\']"), "SFTP");
    (("(https?://[a-zA-Z0-9.-]+\.s3[a-zA-Z0-9.-]*\.amazonaws\.com[^\s" +:+ dquote +:+ "\'<>]*)"), "AWS S3");
    (("(https?://[a-zA-Z0-9.-]+\.blob\.core\.windows\.net[^\s" +:+ dquote +:+ "\'<>]*)"), "Azure Blob");
    (("(https?://storage\.googleapis\.com/[^\s" +:+ dquote +:+ "\'<>]*)"), "GCP Storage") ].

Definition builtin_secrets : list (string * string) :=
  [ ("(AKIA[0-9A-Z]{16})", "AWS Access Key");
    ("(AIza[0-9A-Za-z\-_]{35})", "Google API Key");
    ("(sk_live_[0-9a-zA-Z]{24,})", "Stripe Live Key");
    ("(ghp_[0-9a-zA-Z]{36})", "GitHub PAT");
    ("(gho_[0-9a-zA-Z]{36})", "GitHub OAuth");
    ("(ghu_[0-9a-zA-Z]{36})", "GitHub User Token");
    ("(ghs_[0-9a-zA-Z]{36})", "GitHub Server Token");
    ("(xox[baprs]-[0-9a-zA-Z\-]{10,48})", "Slack Token");
    ("(eyJ[A-Za-z0-9_-]{10,}\.eyJ[A-Za-z0-9_-]{10,}\.[A-Za-z0-9_-]+)", "JWT");
    ("(-----BEGIN (?:RSA |EC )?PRIVATE KEY-----)", "Private Key");
    (("(mongodb(?:\+srv)?://[^\s" +:+ dquote +:+ "\'<>]+)"), "MongoDB URI");
    (("(postgres(?:ql)?://[^\s" +:+ dquote +:+ "\'<>]+)"), "PostgreSQL URI");
    (("(mysql://[a-z0-9._%+\-]+:[^\s:@]+@[^\s" +:+ dquote +:+ "\'<>]+)"), "MySQL URI");
    ("(?i)algolia.{0,32}([a-z0-9]{32})\b", "Algolia API Key");
    ("(?i)cloudflare.{0,32}(?:secret|private|access|key|token).{0,32}([a-z0-9_-]{38,42})\b", "Cloudflare API Token");
    ("\b(ya29\.[a-z0-9_-]{30,})\b", "Google OAuth2 Token");
    ("(?i)(?:facebook|fb).{0,32}(?:api|app|secret|key).{0,32}([a-z0-9]{32})\b", "Facebook Secret");
    ("(EAACEdEose0cBA[A-Z0-9]{20,})\b", "Facebook Access Token");
    ("\b(sgp_[A-Z0-9_-]{60,70})\b", "Segment Public Token");
    ("(sk-[a-zA-Z0-9]{20}T3BlbkFJ[a-zA-Z0-9]{20})", "OpenAI API Key");
    ("(sq0csp-[0-9A-Za-z\-_]{43})", "Square OAuth Secret");
    ("(sqOatp-[0-9A-Za-z\-_]{22})", "Square Access Token");
    ("(AC[a-z0-9]{32})", "Twilio Account SID");
    ("(SK[a-z0-9]{32})", "Twilio API Key SID") ].

Definition email_pattern : string :=
  "([a-zA-Z0-9._%+-]+@[a-zA-Z0-9.-]+\.[a-zA-Z]{2,6})".

Definition file_pattern : string :=
  ("[" +:+ dquote +:+ "\']([a-zA-Z0-9_/.-]+\.(?:sql|csv|xlsx|xls|json|xml|yaml|yml|txt|log|conf|config|cfg|ini|env|bak|backup|old|orig|copy|key|pem|crt|cer|p12|pfx|doc|docx|pdf|zip|tar|gz|rar|7z|sh|bat|ps1|py|rb|pl))[" +:+ dquote +:+ "\']").

(** The two noise sets are only tested for membership. *)
Definition noise_domains : list string :=
  [ "www.w3.org"; "schemas.openxmlformats.org"; "schemas.microsoft.com";
    "purl.org"; "purl.oclc.org"; "openoffice.org"; "docs.oasis-open.org";
    "sheetjs.openxmlformats.org"; "ns.adobe.com"; "www.xml.org";
    "example.com"; "test.com"; "localhost"; "127.0.0.1";
    "fusioncharts.com"; "jspdf.default.namespaceuri";
    "npmjs.org"; "registry.npmjs.org";
    "github.com/indutny"; "github.com/crypto-browserify";
    "jqwidgets.com"; "ag-grid.com" ].

Definition noise_strings : list string :=
  [ "http://"; "https://"; "/a"; "/P"; "/R"; "/V"; "/W";
    "zone.js"; "bn.js"; "hash.js"; "md5.js"; "sha.js"; "des.js";
    "asn1.js"; "declare.js"; "elliptic.js" ].

Fixpoint Seqs (rs : list regex) : regex :=
  match rs with
  | [] => Eps
  | [r] => r
  | r :: rs' => Seq r (Seqs rs')
  end.

(** [^x] and [^x$] for a literal x *)
Definition starts (s : string) : regex := Seq Bol (Lit s).
Definition whole (s : string) : regex := Seqs [Bol; Lit s; Eol].

(** [[a-z]{2}(-[a-z]{2})?] *)
Definition locale : regex :=
  Seqs [lower_az; lower_az; Opt (Seqs [Chr "-"; lower_az; lower_az])].

(** [noise_patterns], one entry per source line, as [_compile_patterns]
    compiles them (no flag). *)
Definition compiled_noise : list regex :=
  [ (* ^\.\./|^\./ *)
    Alt (starts "../") (starts "./");
    (* ^[a-z]{2}(-[a-z]{2})?\.js$ *)
    Seqs [Bol; locale; Lit ".js"; Eol];
    (* ^[a-z]{2}(-[a-z]{2})?$ *)
    Seqs [Bol; locale; Eol];
    (* -xform$ *)
    Seq (Lit "-xform") Eol;
    (* ^sha\d*$|^aes$|^des$|^md5$ *)
    Alts [Seqs [Bol; Lit "sha"; Star digit; Eol]; whole "aes"; whole "des"; whole "md5"];
    (* ^/[A-Z][a-z]+\s|^/[A-Z][a-z]+$ *)
    Alt (Seqs [Bol; Chr "/"; upper_AZ; Plus lower_az; blank])
        (Seqs [Bol; Chr "/"; upper_AZ; Plus lower_az; Eol]);
    (* ^\d+ \d+ R$ *)
    Seqs [Bol; Plus digit; Chr " "; Plus digit; Lit " R"; Eol];
    (* ^xl/|^docProps/|^_rels/|^META-INF/ *)
    Alts [starts "xl/"; starts "docProps/"; starts "_rels/"; starts "META-INF/"];
    (* \.xml$|^worksheets/|^theme/ *)
    Alts [Seq (Lit ".xml") Eol; starts "worksheets/"; starts "theme/"];
    (* ^webpack|^zone\.js$|^readable-stream/ *)
    Alts [starts "webpack"; whole "zone.js"; starts "readable-stream/"];
    (* ^process/|^stream/|^buffer$|^events$|^util$|^path$ *)
    Alts [starts "process/"; starts "stream/"; whole "buffer"; whole "events";
          whole "util"; whole "path"];
    (* ^\+|^\$\{|^#|^\?ref= *)
    Alts [starts "+"; starts "${"; starts "#"; starts "?ref="];
    (* ^/[a-zA-Z]$ *)
    Seqs [Bol; Chr "/"; letter; Eol];
    (* ^http://$|_ngcontent *)
    Alt (whole "http://") (Lit "_ngcontent") ].

End Builtin.

(** ** The [re] library and the data model *)

(** A compiled pattern object: its text and whether [re.IGNORECASE] was
    given to [re.compile]. *)
Record Compiled : Type := { re_pattern : string; re_ignorecase : bool }.

(** A match object, as far as [analyze_response] looks at it: [group(0)],
    [lastindex], and [group(1)], which is [None] when the first group took
    no part in the match. *)
Record Match : Type :=
  { group0 : string; lastindex : option nat; group1 : option string }.

(** What the Python runtime supplies.  Extraction patterns, the built-in ones
    and those a user types, are written in the full syntax of [re] and are
    matched by the library:
    - [re_error p] is the text of the [re.error] that [re.compile(p)] raises,
      [None] when [p] compiles ([re.IGNORECASE] plays no role in parsing);
    - [finditer p body] lists the matches of [p.finditer(body)] in order;
    - [str_IndexError i] is the text of the [IndexError] of [del l[i]]. *)
Class PyRuntime : Type :=
  { re_error : string -> option string;
    finditer : Compiled -> string -> list Match;
    str_IndexError : Z -> string }.

(** An entry of a custom list of the configuration. *)
Record PatternEntry : Type := { regex : string; name : string }.

Record CategoryData : Type :=
  { display_name : string; patterns : list PatternEntry }.

Record Settings : Type :=
  { passive_mode : bool; scope_only : bool; collect_js : bool; collect_html : bool }.

(** [self.config], with the keys of the default configuration.  A file
    that lacks one of these keys, or an entry without its [regex], is outside
    the model; the defaults of the [.get] calls are therefore never used. *)
Record Config : Type :=
  { version : string;
    custom_categories : gmap string CategoryData;
    custom_secrets : list PatternEntry;
    custom_endpoints : list PatternEntry;
    custom_urls : list PatternEntry;
    settings : Settings }.

(** The file [patterns.json]: what it holds, if it can be read, and whether
    writing it succeeds. *)
Record Storage : Type := { file : option Config; writable : bool }.

(** [self.custom_compiled] *)
Record CustomCompiled : Type :=
  { cc_endpoints : list (Compiled * string);
    cc_urls : list (Compiled * string);
    cc_secrets : list (Compiled * string) }.

(** A value of [self.custom_categories_compiled] *)
Record CompiledCategory : Type :=
  { compiled_display_name : string; compiled_patterns : list (Compiled * string) }.

Record PatternManager : Type :=
  { config : Config;
    custom_compiled : CustomCompiled;
    custom_categories_compiled : gmap string CompiledCategory;
    storage : Storage }.

(** The exchange handed to [analyze_response], seen through the helper
    calls: the text of the response body ([None] when there is no
    response) and the text of the URL ([None] when [analyzeRequest]
    raises). *)
Record MessageInfo : Type :=
  { getResponse : option string; getUrl : option string }.

Record Finding : Type :=
  { category : string;
    value : string;
    source : string;
    pattern : string;
    message_info : MessageInfo }.

(** The part of [BurpExtender] the analysis reads and writes *)
Record Extender : Type :=
  { pattern_manager : PatternManager;
    all_findings : list Finding;
    seen_values : gset string }.

(** [del l[index]]: [None] stands for [IndexError]. *)
Definition del_index {A : Type} (l : list A) (index : Z) : option (list A) :=
  let n := Z.of_nat (length l) in
  let j := if (index <? 0)%Z then (index + n)%Z else index in
  if ((0 <=? j) && (j <? n))%Z then Some (delete (Z.to_nat j) l) else None.

(** [not value] of Python, for a value that is a string or [None] *)
Definition falsy (v : option string) : bool :=
  match v with
  | None => true
  | Some s => String.eqb s EmptyString
  end.

(** ** [pattern_manager.py]: class [PatternManager] *)

Section Registry.
Context `{PyRuntime}.
Import PyStr Builtin.

(** [_compile_patterns]: the built-in entries, compiled *)
Definition compiled_endpoints : list (Compiled * string) :=
  map (fun pn => ({| re_pattern := pn.1; re_ignorecase := true |}, pn.2)) builtin_endpoints.
Definition compiled_urls : list (Compiled * string) :=
  map (fun pn => ({| re_pattern := pn.1; re_ignorecase := false |}, pn.2)) builtin_urls.
Definition compiled_secrets : list (Compiled * string) :=
  map (fun pn => ({| re_pattern := pn.1; re_ignorecase := false |}, pn.2)) builtin_secrets.
Definition compiled_email : Compiled :=
  {| re_pattern := email_pattern; re_ignorecase := false |}.
Definition compiled_file : Compiled :=
  {| re_pattern := file_pattern; re_ignorecase := true |}.

(** One [try: re.compile ... except re.error: pass] loop of
    [_compile_custom_patterns]: an entry that does not compile is skipped. *)
Definition compile_entries (icase : bool) (entries : list PatternEntry)
  : list (Compiled * string) :=
  omap (fun e =>
          match re_error (regex e) with
          | None => Some ({| re_pattern := regex e; re_ignorecase := icase |}, name e)
          | Some _ => None
          end) entries.

(** The body of the loop over [custom_categories]: a category is recorded
    only [if patterns:]. *)
Definition compile_category (cat_data : CategoryData) : option CompiledCategory :=
  match compile_entries true (patterns cat_data) with
  | [] => None
  | ps => Some {| compiled_display_name := display_name cat_data;
                  compiled_patterns := ps |}
  end.

Definition _compile_custom_patterns (self : PatternManager) : PatternManager :=
  {| config := config self;
     custom_compiled :=
       {| cc_endpoints := compile_entries true (custom_endpoints (config self));
          cc_urls := compile_entries false (custom_urls (config self));
          cc_secrets := compile_entries false (custom_secrets (config self)) |};
     custom_categories_compiled :=
       omap compile_category (custom_categories (config self));
     storage := storage self |}.

Definition default_config : Config :=
  {| version := "1.0";
     custom_categories := ∅;
     custom_secrets := [];
     custom_endpoints := [];
     custom_urls := [];
     settings := {| passive_mode := true; scope_only := false;
                    collect_js := true; collect_html := false |} |}.

Definition _load_config (st : Storage) : Config :=
  match file st with
  | Some c => c
  | None => default_config
  end.

(** [__init__] *)
Definition new_PatternManager (st : Storage) : PatternManager :=
  _compile_custom_patterns
    {| config := _load_config st;
       custom_compiled := {| cc_endpoints := []; cc_urls := []; cc_secrets := [] |};
       custom_categories_compiled := ∅;
       storage := st |}.

Definition save_config (self : PatternManager) : PatternManager * bool :=
  if writable (storage self)
  then ({| config := config self;
           custom_compiled := custom_compiled self;
           custom_categories_compiled := custom_categories_compiled self;
           storage := {| file := Some (config self); writable := true |} |}, true)
  else (self, false).

Definition with_config (self : PatternManager) (c : Config) : PatternManager :=
  {| config := c;
     custom_compiled := custom_compiled self;
     custom_categories_compiled := custom_categories_compiled self;
     storage := storage self |}.

Definition get_settings (self : PatternManager) : Settings := settings (config self).

Definition update_settings (self : PatternManager) (s : Settings) : PatternManager :=
  let c := config self in
  (save_config (with_config self
     {| version := version c; custom_categories := custom_categories c;
        custom_secrets := custom_secrets c; custom_endpoints := custom_endpoints c;
        custom_urls := custom_urls c; settings := s |})).1.

Definition builtin_categories : list string :=
  ["endpoints"; "urls"; "secrets"; "emails"; "files"].

(** [get_all_categories]: the loop appends each key of
    [custom_categories_compiled] that is not yet in the list. *)
Definition get_all_categories (self : PatternManager) : list string :=
  foldl (fun categories cat_key =>
           if decide (cat_key ∈ categories) then categories
           else categories ++ [cat_key])
        builtin_categories
        (map_to_list (custom_categories_compiled self)).*1.

Definition get_category_display_name (self : PatternManager) (cat : string) : string :=
  if decide (cat = "endpoints") then "Endpoints"
  else if decide (cat = "urls") then "URLs"
  else if decide (cat = "secrets") then "Secrets"
  else if decide (cat = "emails") then "Emails"
  else if decide (cat = "files") then "Files"
  else match custom_categories_compiled self !! cat with
       | Some cd => compiled_display_name cd
       | None => title cat
       end.

(** The four places of the configuration a pattern list lives in. *)
Definition set_custom_endpoints (c : Config) (l : list PatternEntry) : Config :=
  {| version := version c; custom_categories := custom_categories c;
     custom_secrets := custom_secrets c; custom_endpoints := l;
     custom_urls := custom_urls c; settings := settings c |}.
Definition set_custom_urls (c : Config) (l : list PatternEntry) : Config :=
  {| version := version c; custom_categories := custom_categories c;
     custom_secrets := custom_secrets c; custom_endpoints := custom_endpoints c;
     custom_urls := l; settings := settings c |}.
Definition set_custom_secrets (c : Config) (l : list PatternEntry) : Config :=
  {| version := version c; custom_categories := custom_categories c;
     custom_secrets := l; custom_endpoints := custom_endpoints c;
     custom_urls := custom_urls c; settings := settings c |}.
Definition set_custom_categories (c : Config) (m : gmap string CategoryData) : Config :=
  {| version := version c; custom_categories := m;
     custom_secrets := custom_secrets c; custom_endpoints := custom_endpoints c;
     custom_urls := custom_urls c; settings := settings c |}.

(** The tail shared by the three mutating methods:
    [self.save_config(); self._compile_custom_patterns()] *)
Definition save_and_compile (self : PatternManager) : PatternManager :=
  _compile_custom_patterns (save_config self).1.

Definition add_custom_pattern (self : PatternManager) (cat regex_ name_ : string)
  : PatternManager * (bool * option string) :=
  match re_error regex_ with
  | Some e => (self, (false, Some ("Invalid regex: " +:+ e)))
  | None =>
      let pattern_entry := {| regex := regex_; name := name_ |} in
      let c := config self in
      let c' :=
        if decide (cat = "endpoints")
        then set_custom_endpoints c (custom_endpoints c ++ [pattern_entry])
        else if decide (cat = "urls")
        then set_custom_urls c (custom_urls c ++ [pattern_entry])
        else if decide (cat = "secrets")
        then set_custom_secrets c (custom_secrets c ++ [pattern_entry])
        else
          let cats :=
            match custom_categories c !! cat with
            | Some _ => custom_categories c
            | None => <[cat := {| display_name := title cat; patterns := [] |}]>
                        (custom_categories c)
            end in
          set_custom_categories c
            (alter (fun d => {| display_name := display_name d;
                                patterns := patterns d ++ [pattern_entry] |}) cat cats)
      in
      (save_and_compile (with_config self c'), (true, None))
  end.

Definition add_custom_category (self : PatternManager) (key display_name_ : string)
  : PatternManager * (bool * option string) :=
  if decide (key ∈ get_all_categories self)
  then (self, (false, Some "Category already exists"))
  else
    let c := config self in
    let c' := set_custom_categories c
                (<[key := {| display_name := display_name_; patterns := [] |}]>
                   (custom_categories c)) in
    (save_and_compile (with_config self c'), (true, None)).

Definition not_found (self : PatternManager) (index : Z)
  : PatternManager * (bool * option string) :=
  (self, (false, Some ("Pattern not found: " +:+ str_IndexError index))).

Definition remove_custom_pattern (self : PatternManager) (cat : string) (index : Z)
  : PatternManager * (bool * option string) :=
  let c := config self in
  let done_ c' := (save_and_compile (with_config self c'), (true, None)) in
  if decide (cat = "endpoints") then
    match del_index (custom_endpoints c) index with
    | Some l => done_ (set_custom_endpoints c l)
    | None => not_found self index
    end
  else if decide (cat = "urls") then
    match del_index (custom_urls c) index with
    | Some l => done_ (set_custom_urls c l)
    | None => not_found self index
    end
  else if decide (cat = "secrets") then
    match del_index (custom_secrets c) index with
    | Some l => done_ (set_custom_secrets c l)
    | None => not_found self index
    end
  else
    match custom_categories c !! cat with
    | Some d =>
        match del_index (patterns d) index with
        | Some l =>
            done_ (set_custom_categories c
                     (<[cat := {| display_name := display_name d; patterns := l |}]>
                        (custom_categories c)))
        | None => not_found self index
        end
    | None => done_ c
    end.

Definition get_patterns_for_category (self : PatternManager) (cat : string)
  : list (Compiled * string) :=
  if decide (cat = "endpoints") then compiled_endpoints ++ cc_endpoints (custom_compiled self)
  else if decide (cat = "urls") then compiled_urls ++ cc_urls (custom_compiled self)
  else if decide (cat = "secrets") then compiled_secrets ++ cc_secrets (custom_compiled self)
  else if decide (cat = "emails") then [(compiled_email, "Email")]
  else if decide (cat = "files") then [(compiled_file, "File")]
  else match custom_categories_compiled self !! cat with
       | Some cd => compiled_patterns cd
       | None => []
       end.

Definition get_custom_patterns_list (self : PatternManager) (cat : string)
  : list PatternEntry :=
  if decide (cat = "endpoints") then custom_endpoints (config self)
  else if decide (cat = "urls") then custom_urls (config self)
  else if decide (cat = "secrets") then custom_secrets (config self)
  else match custom_categories (config self) !! cat with
       | Some d => patterns d
       | None => []
       end.

Definition is_noise (value_ : option string) : bool :=
  if falsy value_ then true
  else
    let v := default EmptyString value_ in
    if decide (v ∈ noise_strings) then true
    else existsb (fun p => PyRe.search p v) compiled_noise.

Definition is_noise_domain (url : option string) : bool :=
  if falsy url then true
  else
    let url_lower := lower (default EmptyString url) in
    existsb (fun domain => contains domain url_lower) noise_domains.

End Registry.

(** ** [jscollector.py]: the analysis of [BurpExtender] *)

Section Engine.
Context `{PyRuntime}.
Import PyStr.

Definition _mask_secret (value_ : string) : string :=
  if 20 <? len value_
  then slice None (Some 10%Z) value_ +:+ "..." +:+ slice (Some (-4)%Z) None value_
  else value_.

Definition finding_key (cat value_ : string) : string := cat +:+ ":" +:+ value_.

(** [_add_finding]: the new object and the finding, or [None] for a
    duplicate. *)
Definition _add_finding (self : Extender) (cat value_ source_ pattern_name : string)
           (mi : MessageInfo) : Extender * option Finding :=
  let key := finding_key cat value_ in
  if decide (key ∈ seen_values self) then (self, None)
  else
    let finding := {| category := cat; value := value_; source := source_;
                      pattern := pattern_name; message_info := mi |} in
    ({| pattern_manager := pattern_manager self;
        all_findings := all_findings self ++ [finding];
        seen_values := {[ key ]} ∪ seen_values self |}, Some finding).

Definition nonempty (p : string) : bool := negb (String.eqb p EmptyString).

Definition _is_valid_endpoint (value_ : string) : bool :=
  if falsy (Some value_) || (len value_ <? 3) then false
  else if is_noise (Some value_) then false
  else if negb (startswith "/" value_) then false
  else
    let parts := split "/" value_ in
    if (length parts <? 2)
       || forallb (fun p => len p <? 2) (List.filter nonempty parts)
    then false
    else true.

Definition static_exts : list string :=
  [".css"; ".png"; ".jpg"; ".gif"; ".svg"; ".woff"; ".ttf"; ".ico"].

Definition _is_valid_url (value_ : string) : bool :=
  if falsy (Some value_) || (len value_ <? 15) then false
  else if is_noise_domain (Some value_) then false
  else
    let val_lower := lower value_ in
    if contains "{" value_ || contains "undefined" val_lower || contains "null" val_lower
    then false
    else if startswith "data:" val_lower then false
    else if existsb (fun ext => endswith ext val_lower) static_exts then false
    else true.

Definition secret_noise_words : list string :=
  ["example"; "placeholder"; "your"; "xxxx"; "test"; "sample"; "dummy"].

Definition _is_valid_secret (value_ : string) : bool :=
  if falsy (Some value_) || (len value_ <? 10) then false
  else if contains_any secret_noise_words (lower value_) then false
  else true.

Definition email_noise_domains : list string :=
  ["example.com"; "test.com"; "domain.com"; "placeholder.com"; "email.com"].
Definition email_noise_words : list string :=
  ["example"; "test"; "placeholder"; "noreply"; "no-reply"].

Definition _is_valid_email (value_ : string) : bool :=
  if falsy (Some value_) || negb (contains "@" value_) then false
  else
    let domain := lower (last_part (split "@" value_)) in
    if bool_decide (domain ∈ email_noise_domains) then false
    else if contains_any email_noise_words (lower value_) then false
    else true.

Definition noise_files : list string :=
  ["package.json"; "tsconfig.json"; "webpack"; "babel";
   "eslint"; "prettier"; "node_modules"; ".min.";
   "polyfill"; "vendor"; "chunk"; "bundle"; ".map"].

Definition _is_valid_file (value_ : string) : bool :=
  if falsy (Some value_) || (len value_ <? 3) then false
  else
    let val_lower := lower value_ in
    if contains_any noise_files val_lower then false
    else if endswith ".json" val_lower && (len (last_part (split "/" value_)) <=? 7)
    then false
    else true.

(** The value of a match: [match.group(1).strip() if match.lastindex else
    match.group(0).strip()].  [None] stands for the [AttributeError] of
    [None.strip()]. *)
Definition match_value (m : Match) : option string :=
  match lastindex m with
  | Some (S _) => strip <$> group1 m
  | _ => Some (strip (group0 m))
  end.

(** The [if category == ...] chain of the inner loop: [None] is its
    [continue], [Some v] the value that goes on to [_add_finding]. *)
Definition validated (cat value_ : string) : option string :=
  if decide (cat = "endpoints") then
    if _is_valid_endpoint value_ then Some value_ else None
  else if decide (cat = "urls") then
    if _is_valid_url value_ then Some value_ else None
  else if decide (cat = "secrets") then
    if _is_valid_secret value_ then Some (_mask_secret value_) else None
  else if decide (cat = "emails") then
    if _is_valid_email value_ then Some value_ else None
  else if decide (cat = "files") then
    if _is_valid_file value_ then Some value_ else None
  else Some value_.

(** A piece of the method that reads and writes [self]; the second
    component is [None] when an exception leaves the method. *)
Definition Eff (A : Type) : Type := Extender -> Extender * option A.

(** A [for] loop whose body updates the local [new_findings]. *)
Fixpoint for_each {A B : Type} (l : list A) (body : A -> B -> Eff B) (acc : B)
  : Eff B :=
  fun self =>
    match l with
    | [] => (self, Some acc)
    | x :: l' =>
        match body x acc self with
        | (self', Some acc') => for_each l' body acc' self'
        | (self', None) => (self', None)
        end
    end.

(** The body of [for match in pattern.finditer(body)] *)
Definition on_match (cat url pattern_name : string) (mi : MessageInfo)
           (m : Match) (new_findings : list Finding) : Eff (list Finding) :=
  fun self =>
    match match_value m with
    | None => (self, None)
    | Some v =>
        match validated cat v with
        | None => (self, Some new_findings)
        | Some v' =>
            match _add_finding self cat v' url pattern_name mi with
            | (self', Some finding) => (self', Some (new_findings ++ [finding]))
            | (self', None) => (self', Some new_findings)
            end
        end
    end.

(** The three nested loops of [analyze_response] *)
Definition scan (pm : PatternManager) (body url : string) (mi : MessageInfo)
  : Eff (list Finding) :=
  for_each (get_all_categories pm)
    (fun cat =>
       for_each (get_patterns_for_category pm cat)
         (fun pn => for_each (finditer pn.1 body) (on_match cat url pn.2 mi)))
    [].

(** [analyze_response], without its logging: the result is
    [new_findings], the list the method hands to the results panel. *)
Definition analyze_response (mi : MessageInfo) : Eff (list Finding) :=
  fun self =>
    match getResponse mi with
    | None => (self, Some [])
    | Some body =>
        let url := default "Unknown" (getUrl mi) in
        if len body <? 50 then (self, Some [])
        else scan (pattern_manager self) body url mi self
    end.

Definition clear_results (self : Extender) : Extender :=
  {| pattern_manager := pattern_manager self; all_findings := []; seen_values := ∅ |}.

Definition get_all_findings (self : Extender) : list Finding := all_findings self.

(** [registerExtenderCallbacks]: an empty ledger over a fresh registry *)
Definition new_Extender (st : Storage) : Extender :=
  {| pattern_manager := new_PatternManager st; all_findings := []; seen_values := ∅ |}.

End Engine.

(** ** A runtime for closed examples

    [re] restricted to non-empty patterns made of letters, digits and the
    underscore: such a pattern matches its own text and nothing else (up to
    the case of letters under IGNORECASE), has no group, and
    [finditer] reports its occurrences from left to right without overlap.
    A pattern with an unbalanced parenthesis does not compile. *)

Module LiteralRe.
Import PyStr.

Fixpoint paren_depth (depth : nat) (s : string) : option nat :=
  match s with
  | EmptyString => Some depth
  | String c s' =>
      if Ascii.eqb c "(" then paren_depth (S depth) s'
      else if Ascii.eqb c ")" then
        match depth with
        | O => None
        | S d => paren_depth d s'
        end
      else paren_depth depth s'
  end.

Definition lit_error (p : string) : option string :=
  match paren_depth 0 p with
  | Some O => None
  | _ => Some "unbalanced parenthesis"
  end.

Definition same (icase : bool) (a b : string) : bool :=
  if icase then String.eqb (lower a) (lower b) else String.eqb a b.

(** [skip] characters of [s] belong to the match reported last. *)
Fixpoint occurrences (p : string) (icase : bool) (skip : nat) (s : string)
  : list Match :=
  match s with
  | EmptyString => []
  | String _ s' =>
      match skip with
      | S k => occurrences p icase k s'
      | O =>
          if (0 <? len p) && same icase (take (len p) s) p
          then {| group0 := take (len p) s; lastindex := None; group1 := None |}
               :: occurrences p icase (len p - 1) s'
          else occurrences p icase 0 s'
      end
  end.

Definition lit_finditer (p : Compiled) (body : string) : list Match :=
  occurrences (re_pattern p) (re_ignorecase p) 0 body.

Definition runtime : PyRuntime :=
  {| re_error := lit_error;
     finditer := lit_finditer;
     str_IndexError := fun _ => "list assignment index out of range" |}.

End LiteralRe.

(** ** A runtime for patterns of two alternatives

    The literal runtime, extended by the patterns [(a)|(b)] of two words
    [a] and [b] made of letters, digits and the underscore.  At each
    position [finditer] tries [a] first and then [b].  A match of [a] has
    its first group set and [lastindex] 1; a match of [b] has [lastindex] 2
    and its first group took no part, so [group(1)] is [None]. *)

Module GroupRe.
Import PyStr.

Definition is_word_char (c : ascii) : bool :=
  is_upper c || is_lower c || is_digit c || Ascii.eqb c "_".

(** The longest prefix made of word characters *)
Fixpoint word (s : string) : string :=
  match s with
  | EmptyString => EmptyString
  | String c s' => if is_word_char c then String c (word s') else EmptyString
  end.

(** The two words of a pattern [(a)|(b)] *)
Definition two_words (p : string) : option (string * string) :=
  match p with
  | EmptyString => None
  | String c p1 =>
      let a := word p1 in
      let rest := drop (len a) p1 in
      let b := word (drop 3 rest) in
      if Ascii.eqb c "(" && startswith ")|(" rest
         && String.eqb (drop (len b) (drop 3 rest)) ")"
         && (0 <? len a) && (0 <? len b)
      then Some (a, b) else None
  end.

(** [skip] characters of [s] belong to the match reported last. *)
Fixpoint alternatives (a b : string) (icase : bool) (skip : nat) (s : string)
  : list Match :=
  match s with
  | EmptyString => []
  | String _ s' =>
      match skip with
      | S k => alternatives a b icase k s'
      | O =>
          if LiteralRe.same icase (take (len a) s) a
          then {| group0 := take (len a) s; lastindex := Some 1;
                  group1 := Some (take (len a) s) |}
               :: alternatives a b icase (len a - 1) s'
          else if LiteralRe.same icase (take (len b) s) b
          then {| group0 := take (len b) s; lastindex := Some 2; group1 := None |}
               :: alternatives a b icase (len b - 1) s'
          else alternatives a b icase 0 s'
      end
  end.

Definition alt_finditer (p : Compiled) (body : string) : list Match :=
  match two_words (re_pattern p) with
  | Some (a, b) => alternatives a b (re_ignorecase p) 0 body
  | None => LiteralRe.lit_finditer p body
  end.

Definition runtime : PyRuntime :=
  {| re_error := LiteralRe.lit_error;
     finditer := alt_finditer;
     str_IndexError := fun _ => "list assignment index out of range" |}.

End GroupRe.

(** ** Notions used to state the properties *)

Section Notions.
Context `{PyRuntime}.

(** The matches [analyze_response] visits, in the order of its three
    loops, each with its category and the name of its pattern. *)
Definition items_of (pm : PatternManager) (body : string) (cats : list string)
  : list (string * string * Match) :=
  cat ← cats;
  pn ← get_patterns_for_category pm cat;
  m ← finditer pn.1 body;
  [(cat, pn.2, m)].

Definition scan_items (pm : PatternManager) (body : string)
  : list (string * string * Match) :=
  items_of pm body (get_all_categories pm).

Definition on_item (url : string) (mi : MessageInfo) (it : string * string * Match)
  : list Finding -> Eff (list Finding) :=
  on_match it.1.1 url it.1.2 mi it.2.

(** A candidate: category, value as it reaches [_add_finding], pattern name. *)
Definition candidate (it : string * string * Match) : option (string * string * string) :=
  v ← match_value it.2;
  v' ← validated it.1.1 v;
  Some (it.1.1, v', it.1.2).

Definition candidates (items : list (string * string * Match))
  : list (string * string * string) :=
  omap candidate items.

Definition candidate_key (c : string * string * string) : string :=
  finding_key c.1.1 c.1.2.

Definition to_finding (url : string) (mi : MessageInfo) (c : string * string * string)
  : Finding :=
  {| category := c.1.1; value := c.1.2; source := url; pattern := c.2;
     message_info := mi |}.

Definition key_of (f : Finding) : string := finding_key (category f) (value f).

(** The candidates that a ledger holding [seen] lets through: the first
    one of each key that is not in [seen]. *)
Fixpoint fresh (seen : gset string) (cs : list (string * string * string))
  : list (string * string * string) :=
  match cs with
  | [] => []
  | c :: cs' =>
      if decide (candidate_key c ∈ seen) then fresh seen cs'
      else c :: fresh ({[ candidate_key c ]} ∪ seen) cs'
  end.

(** Every visited match has a value: no [None.strip()] is met. *)
Definition values_ok (items : list (string * string * Match)) : Prop :=
  Forall (λ it, is_Some (match_value it.2)) items.

(** A document holds the secret [v]: a pattern of the category [secrets]
    has a match whose value is [v], and [v] passes the validator. *)
Definition secret_in (pm : PatternManager) (body v : string) : Prop :=
  ∃ p n m, (p, n) ∈ get_patterns_for_category pm "secrets"
           ∧ m ∈ finditer p body
           ∧ match_value m = Some v
           ∧ _is_valid_secret v = true.

(** Every finding on record has its key in the seen-set. *)
Definition ledger_ok (self : Extender) : Prop :=
  ∀ f, f ∈ all_findings self → key_of f ∈ seen_values self.

(** The findings on record for a category and a value *)
Definition recorded (self : Extender) (cat v : string) : list Finding :=
  List.filter (fun f => String.eqb (category f) cat && String.eqb (value f) v)
              (all_findings self).

(** The entries of a category that are hardcoded. *)
Definition builtin_patterns (cat : string) : list (Compiled * string) :=
  if decide (cat = "endpoints") then compiled_endpoints
  else if decide (cat = "urls") then compiled_urls
  else if decide (cat = "secrets") then compiled_secrets
  else if decide (cat = "emails") then [(compiled_email, "Email")]
  else if decide (cat = "files") then [(compiled_file, "File")]
  else [].

(** The categories whose custom list the configuration holds. *)
Definition has_custom_list (self : PatternManager) (cat : string) : Prop :=
  cat ∈ ["endpoints"; "urls"; "secrets"]
  ∨ is_Some (custom_categories (config self) !! cat).

(** The position [del l[index]] removes, for an index in range. *)
Definition position (n index : Z) : nat :=
  Z.to_nat (if (index <? 0)%Z then (index + n)%Z else index).

(** The registry of a fresh installation: no configuration file yet. *)
Definition fresh_storage : Storage := {| file := None; writable := true |}.

(** The loop of [get_all_categories] over [keys], the keys of
    [custom_categories_compiled] in the order in which the dictionary
    yields them. *)
Definition categories_from (keys : list string) : list string :=
  foldl (fun categories cat_key =>
           if decide (cat_key ∈ categories) then categories
           else categories ++ [cat_key])
        builtin_categories keys.

End Notions.

(** ** The order in which a Python 2 dictionary yields its keys

    The extension imports [burp] and [javax.swing], so it runs on Jython
    2.7, whose [dict] is a Java [ConcurrentHashMap]; CPython 2.7 is the
    reference implementation of the language.  Neither keeps the order in
    which the keys were set. *)

Module Py27.

Definition code (ch : ascii) : Z := Z.of_nat (nat_of_ascii ch).

(** Arithmetic of a C [long] of 64 bits, read as unsigned *)
Definition wrap (x : Z) : Z := (x mod 2 ^ 64)%Z.

Fixpoint mix (x : Z) (s : string) : Z :=
  match s with
  | EmptyString => x
  | String ch rest => mix (Z.lxor (wrap (1000003 * x)) (code ch)) rest
  end.

(** [string_hash] of CPython 2.7 *)
Definition string_hash (s : string) : Z :=
  match s with
  | EmptyString => 0%Z
  | String c _ =>
      let x := Z.lxor (mix (Z.shiftl (code c) 7) s) (Z.of_nat (String.length s)) in
      if (x =? 2 ^ 64 - 1)%Z then (2 ^ 64 - 2)%Z else x
  end.

(** The probe sequence of [lookdict_string] in a table of 8 slots: the slot
    of the key, or the first free slot met. *)
Fixpoint probe (table : list (option string)) (key : string) (i perturb : Z)
         (fuel : nat) : option nat :=
  let slot := Z.to_nat (Z.land i 7) in
  match table !! slot with
  | Some None => Some slot
  | Some (Some k) =>
      if String.eqb k key then Some slot
      else match fuel with
           | O => None
           | S fuel' =>
               probe table key (wrap (Z.shiftl i 2 + i + perturb + 1))
                     (Z.shiftr perturb 5) fuel'
           end
  | None => None
  end.

(** [d[key] = value] *)
Definition insert_key (table : list (option string)) (key : string)
  : option (list (option string)) :=
  let h := string_hash key in
  slot ← probe table key h h 64;
  Some (<[slot := Some key]> table).

(** The keys of a dictionary that was filled in the order [keys], as a loop
    over it yields them: the slots in use, in the order of the table.  A
    table of 8 slots holds up to 5 keys; a larger dictionary is outside the
    model. *)
Definition dict_keys (keys : list string) : option (list string) :=
  table ← foldl (fun t k => t ≫= fun t => insert_key t k)
                (Some (replicate 8 None)) keys;
  let used := omap id table in
  if length used <=? 5 then Some used else None.

End Py27.

Module Jython.

Definition wrap32 (x : Z) : Z := (x mod 2 ^ 32)%Z.

(** [String.hashCode], read as unsigned *)
Fixpoint hashCode_from (h : Z) (s : string) : Z :=
  match s with
  | EmptyString => h
  | String c rest => hashCode_from (wrap32 (31 * h + Py27.code c)) rest
  end.

Definition hashCode (s : string) : Z := hashCode_from 0 s.

(** The bin of a key in the table of a [ConcurrentHashMap] of Java 8 and
    later, a table of [bins] bins, a power of two: [spread] of the hash
    code, cut to the size of the table *)
Definition bin (bins : Z) (key : string) : Z :=
  let h := hashCode key in
  Z.land (Z.land (Z.lxor h (Z.shiftr h 16)) 2147483647) (bins - 1).

(** The keys in the order in which they were first set *)
Definition first_set (keys : list string) : list string :=
  foldl (fun acc k => if decide (k ∈ acc) then acc else acc ++ [k]) [] keys.

(** The keys of a dictionary that was filled in the order [keys], as a loop
    over it yields them: bin after bin, and within a bin in the order in
    which the keys were first set.  A dictionary of more than a few keys,
    for which the table is resized, is outside the model. *)
Definition dict_keys (bins : Z) (keys : list string) : list string :=
  i ← seqZ 0 bins;
  filter (fun k => bin bins k = i) (first_set keys).

End Jython.

(** ** More of Python's text operations, used by the user interface *)

Module PyText.

(** [s.replace(old, new)] for two texts of one character each *)
Fixpoint replace (old new : ascii) (s : string) : string :=
  match s with
  | EmptyString => EmptyString
  | String c s' => String (if Ascii.eqb c old then new else c) (replace old new s')
  end.

End PyText.

(** ** [ui/results_panel.py]: class [ResultsPanel] *)

Module Panel.
Import PyStr.

(** An entry of a list of [self.findings] *)
Record Item : Type :=
  { item_value : string; item_source : string; item_message_info : MessageInfo }.

(** The part of the panel its methods read and write: the attributes
    [findings], [sources] and [categories], the entries of the combo box
    [source_filter], the text of its selected entry and the text of
    [search_field].  The combo box is never empty when an entry is added to
    it, except in [clear_all]; Swing then keeps its selection, and selects
    the entry added to an empty box. *)
Record ResultsPanel : Type :=
  { findings : gmap string (list Item);
    sources : gset string;
    source_filter : list string;
    selected_source : string;
    search_field : string;
    categories : list (string * string) }.

(** [__init__] and [_init_ui] *)
Definition new_ResultsPanel : ResultsPanel :=
  {| findings :=
       list_to_map [("endpoints", []); ("urls", []); ("secrets", []);
                    ("emails", []); ("files", [])];
     sources := ∅;
     source_filter := ["All"];
     selected_source := "All";
     search_field := EmptyString;
     categories := [("Endpoints", "endpoints"); ("URLs", "urls");
                    ("Secrets", "secrets"); ("Emails", "emails");
                    ("Files", "files")] |}.

Definition item_of (finding : Finding) : Item :=
  {| item_value := value finding; item_source := source finding;
     item_message_info := message_info finding |}.

(** The head of [add_findings]: a source that is new enters the set and the
    combo box. *)
Definition add_source (p : ResultsPanel) (source_name : string) : ResultsPanel :=
  if nonempty source_name && negb (bool_decide (source_name ∈ sources p))
  then {| findings := findings p;
          sources := {[ source_name ]} ∪ sources p;
          source_filter := source_filter p ++ [source_name];
          selected_source := selected_source p;
          search_field := search_field p;
          categories := categories p |}
  else p.

(** The body of the loop of [add_findings]: a category that has no list yet
    gets one, and a tab under its title. *)
Definition add_finding (p : ResultsPanel) (finding : Finding) : ResultsPanel :=
  let cat := category finding in
  let known := bool_decide (is_Some (findings p !! cat)) in
  let lists := if known then findings p else <[cat := []]> (findings p) in
  {| findings := alter (fun l => l ++ [item_of finding]) cat lists;
     sources := sources p;
     source_filter := source_filter p;
     selected_source := selected_source p;
     search_field := search_field p;
     categories := if known then categories p
                   else categories p ++ [(title cat, cat)] |}.

Definition add_findings (p : ResultsPanel) (new_findings : list Finding)
           (source_name : string) : ResultsPanel :=
  foldl add_finding (add_source p source_name) new_findings.

(** The two filters of [_refresh_tables]: [true] when the item gets a row. *)
Definition visible (p : ResultsPanel) (item : Item) : bool :=
  let search_text := strip (lower (search_field p)) in
  if negb (String.eqb (selected_source p) "All")
     && negb (String.eqb (item_source item) (selected_source p))
  then false
  else if nonempty search_text
          && negb (contains search_text (lower (item_value item)))
  then false
  else true.

(** The rows [_refresh_tables] puts into the table of [key], in order: the
    value and the source of every item the filters let through. *)
Definition table_rows (p : ResultsPanel) (key : string) : list (string * string) :=
  (fun item => (item_value item, item_source item))
    <$> List.filter (visible p) (default [] (findings p !! key)).

(** [show_request_response]: the exchange and the source the dialog is
    opened with, [None] when the method returns without a dialog.  Every
    item holds the exchange of its finding, so the branch for an item
    without one is never taken. *)
Definition show_request_response (p : ResultsPanel) (category_key : string)
           (row_index : Z) : option (MessageInfo * string) :=
  let findings_list := default [] (findings p !! category_key) in
  if ((row_index <? 0) || (Z.of_nat (length findings_list) <=? row_index))%Z
  then None
  else (fun finding => (item_message_info finding, item_source finding))
         <$> findings_list !! Z.to_nat row_index.

(** The part of [clear_all] that works on the panel itself *)
Definition cleared (p : ResultsPanel) : ResultsPanel :=
  {| findings := (fun _ => []) <$> findings p;
     sources := ∅;
     source_filter := ["All"];
     selected_source := "All";
     search_field := EmptyString;
     categories := categories p |}.

End Panel.

(** ** [jscollector.py]: the extension with its panel, and its listeners *)

(** [BurpExtender] and its [ResultsPanel] hold one another; the two objects
    are kept side by side. *)
Record BurpExtender : Type :=
  { engine : Extender; panel : Panel.ResultsPanel }.

(** The message handed to [processProxyMessage], seen through the helper
    calls: its exchange, the header lines of the response and the answer of
    [isInScope] for its URL. *)
Record ProxyMessage : Type :=
  { getMessageInfo : MessageInfo; getHeaders : list string; isInScope : bool }.

Definition with_pattern_manager (app : BurpExtender) (pm : PatternManager)
  : BurpExtender :=
  {| engine := {| pattern_manager := pm;
                  all_findings := all_findings (engine app);
                  seen_values := seen_values (engine app) |};
     panel := panel app |}.

Section Listeners.
Context `{PyRuntime}.
Import PyStr.

Definition registerExtenderCallbacks (st : Storage) : BurpExtender :=
  {| engine := new_Extender st; panel := Panel.new_ResultsPanel |}.

(** The short name [analyze_response] writes to the log. *)
Definition source_name (url : string) : string :=
  let source_name :=
    if contains "/" url
    then hd EmptyString (split "?" (last_part (split "/" url)))
    else url in
  if 40 <? len source_name
  then slice None (Some 40%Z) source_name +:+ "..."
  else source_name.

(** [analyze_response] with its last step: new findings are handed to the
    panel.  [None] when an exception leaves the method; the panel is then as
    it was. *)
Definition analyze_response_ui (mi : MessageInfo) (app : BurpExtender)
  : BurpExtender * option unit :=
  match analyze_response mi (engine app) with
  | (self, Some new_findings) =>
      ({| engine := self;
          panel := match new_findings with
                   | [] => panel app
                   | _ => Panel.add_findings (panel app) new_findings
                            (default "Unknown" (getUrl mi))
                   end |}, Some tt)
  | (self, None) => ({| engine := self; panel := panel app |}, None)
  end.

(** The loop over the header lines of [processProxyMessage]: [is_js] and
    [is_html] when it ends. *)
Fixpoint content_type_flags (headers : list string) : bool * bool :=
  match headers with
  | [] => (false, false)
  | header :: rest =>
      let header_lower := lower header in
      if contains "content-type:" header_lower
      then if contains "javascript" header_lower
              || contains "application/json" header_lower
           then (true, false)
           else if contains "text/html" header_lower then (false, true)
           else (false, false)
      else content_type_flags rest
  end.

Definition should_process (s : Settings) (headers : list string) (url_str : string)
  : bool :=
  let is_js :=
    (content_type_flags headers).1
    || (endswith ".js" url_str || contains ".js?" url_str) in
  let is_html :=
    (content_type_flags headers).2
    || (endswith ".html" url_str || endswith ".htm" url_str
        || contains ".html?" url_str || contains ".htm?" url_str) in
  (collect_js s && is_js) || (collect_html s && is_html).

(** [processProxyMessage].  An exception is logged and the method returns:
    what the analysis has recorded until then stays. *)
Definition processProxyMessage (messageIsRequest : bool) (message : ProxyMessage)
           (app : BurpExtender) : BurpExtender :=
  if messageIsRequest then app
  else
    let s := get_settings (pattern_manager (engine app)) in
    if negb (passive_mode s) then app
    else
      let message_info := getMessageInfo message in
      match getResponse message_info, getUrl message_info with
      | None, _ => app
      | Some _, None => app
      | Some _, Some url =>
          let url_str := lower url in
          if scope_only s && negb (isInScope message) then app
          else if negb (should_process s (getHeaders message) url_str) then app
          else (analyze_response_ui message_info app).1
      end.

(** [AnalyzeAction.actionPerformed]: the selected messages are analysed in
    turn; an exception ends the loop. *)
Fixpoint actionPerformed (messages : list MessageInfo) (app : BurpExtender)
  : BurpExtender * option unit :=
  match messages with
  | [] => (app, Some tt)
  | msg :: rest =>
      match analyze_response_ui msg app with
      | (app', Some _) => actionPerformed rest app'
      | (app', None) => (app', None)
      end
  end.

(** [ResultsPanel.clear_all] *)
Definition clear_all (app : BurpExtender) : BurpExtender :=
  {| engine := clear_results (engine app); panel := Panel.cleared (panel app) |}.

(** [ResultsPanel.toggle_scope], with the state of the check box *)
Definition toggle_scope (selected : bool) (app : BurpExtender) : BurpExtender :=
  let pm := pattern_manager (engine app) in
  let s := get_settings pm in
  with_pattern_manager app
    (update_settings pm {| passive_mode := passive_mode s; scope_only := selected;
                           collect_js := collect_js s;
                           collect_html := collect_html s |}).

End Listeners.

(** ** [ui/pattern_config_dialog.py]: the actions of [PatternConfigDialog]

    Each action takes the registry and what the widgets hold, and returns
    the registry together with the text of the message box it shows, [None]
    when it shows none. *)

(** [getText] of a Swing field answers a [unicode] text.  What its methods
    [strip], [lower] and [title] do to a character outside ASCII is decided
    by the tables of the interpreter: [lower] maps É to é, [strip] removes
    a no-break space.  The three methods are therefore supplied. *)
Class PyUnicode : Type :=
  { unicode_strip : string -> string;
    unicode_lower : string -> string;
    unicode_title : string -> string }.

(** The three methods on a text of ASCII characters *)
Definition ascii_text : PyUnicode :=
  {| unicode_strip := PyStr.strip;
     unicode_lower := PyStr.lower;
     unicode_title := PyStr.title |}.

Module Dialog.
Section Actions.
Context `{PyRuntime} `{PyUnicode}.
Import PyStr.

(** The entries of [category_combo] after [_refresh_tables] *)
Definition category_combo (pm : PatternManager) : list string :=
  ["endpoints"; "urls"; "secrets"]
  ++ (map_to_list (custom_categories (config pm))).*1.

Definition add_pattern (pm : PatternManager) (category_ regex_field name_field : string)
  : PatternManager * option string :=
  let regex_ := strip regex_field in
  let name_ := strip name_field in
  if String.eqb regex_ EmptyString then (pm, Some "Regex is required")
  else
    let name_ := if String.eqb name_ EmptyString then "Custom Pattern" else name_ in
    match add_custom_pattern pm category_ regex_ name_ with
    | (pm', (true, _)) => (pm', Some "Pattern added successfully")
    | (pm', (false, error)) => (pm', error)
    end.

(** [row] is what [getSelectedRow] answers: -1 when no row is selected. *)
Definition remove_pattern (pm : PatternManager) (category_ : string) (row : Z)
  : PatternManager * option string :=
  if (row <? 0)%Z then (pm, Some "Select a pattern to remove")
  else
    match remove_custom_pattern pm category_ row with
    | (pm', (true, _)) => (pm', None)
    | (pm', (false, error)) => (pm', error)
    end.

(** The key [add_category] makes of the text of [cat_key_field] *)
Definition category_key (cat_key_field : string) : string :=
  PyText.replace " " "_" (unicode_lower (unicode_strip cat_key_field)).

Definition add_category (pm : PatternManager) (cat_key_field cat_name_field : string)
  : PatternManager * option string :=
  let key := category_key cat_key_field in
  let name_ := unicode_strip cat_name_field in
  if String.eqb key EmptyString then (pm, Some "Category key is required")
  else
    let name_ := if String.eqb name_ EmptyString then unicode_title key else name_ in
    match add_custom_category pm key name_ with
    | (pm', (true, _)) =>
        (pm', Some "Category added. Restart extension to see new tab.")
    | (pm', (false, error)) => (pm', error)
    end.

(** [save_settings], with the selected index of the two combo boxes and the
    state of the two check boxes *)
Definition save_settings (pm : PatternManager) (passive_index scope_index : Z)
           (js html : bool) : PatternManager * option string :=
  (update_settings pm {| passive_mode := (passive_index =? 0)%Z;
                         scope_only := (scope_index =? 1)%Z;
                         collect_js := js; collect_html := html |},
   Some "Settings saved").

End Actions.
End Dialog.

(** ** Invariants of the registry, of the ledger and of the panel *)

Section Invariants.
Context `{PyRuntime}.

(** The seen-set holds the keys of the findings on record and nothing
    else, and no two findings on record share a key. *)
Definition ledger_exact (self : Extender) : Prop :=
  NoDup (key_of <$> all_findings self)
  ∧ seen_values self = list_to_set (key_of <$> all_findings self).

(** [self'] is [self] with the findings [added] appended: the registry is
    the same, the keys of [added] are new and pairwise distinct, and they
    are what the seen-set gained. *)
Definition extends_ledger (self self' : Extender) (added : list Finding) : Prop :=
  pattern_manager self' = pattern_manager self
  ∧ all_findings self' = all_findings self ++ added
  ∧ seen_values self' = list_to_set (key_of <$> added) ∪ seen_values self
  ∧ NoDup (key_of <$> added)
  ∧ ∀ f, f ∈ added → key_of f ∉ seen_values self.

(** Every secret on record is a masked one. *)
Definition secrets_masked (self : Extender) : Prop :=
  ∀ f, f ∈ all_findings self → category f = "secrets" →
       10 <= PyStr.len (value f) <= 20.

(** The compiled patterns are those of the configuration. *)
Definition synced (pm : PatternManager) : Prop := _compile_custom_patterns pm = pm.

(** The flag a custom pattern of a category is compiled with *)
Definition ignores_case (cat : string) : bool :=
  negb (bool_decide (cat ∈ ["urls"; "secrets"])).

(** The entries that compile, compiled, in the order of the list *)
Definition valid_entries (icase : bool) (entries : list PatternEntry)
  : list (Compiled * string) :=
  (fun e => ({| re_pattern := regex e; re_ignorecase := icase |}, name e))
    <$> filter (fun e => re_error (regex e) = None) entries.

(** The items the panel lists under a key, and those the ledger holds for
    it. *)
Definition panel_items (p : Panel.ResultsPanel) (key : string) : list Panel.Item :=
  default [] (Panel.findings p !! key).

Definition ledger_items (self : Extender) (key : string) : list Panel.Item :=
  Panel.item_of <$> filter (fun f => category f = key) (all_findings self).

(** The panel lists what the ledger holds. *)
Definition panel_mirrors (app : BurpExtender) : Prop :=
  ∀ key, panel_items (panel app) key = ledger_items (engine app) key.

(** The panel lists no value twice under a key, and the key of every item
    it lists is in the seen-set. *)
Definition panel_ok (app : BurpExtender) : Prop :=
  ∀ key,
    NoDup (Panel.item_value <$> panel_items (panel app) key)
    ∧ ∀ item, item ∈ panel_items (panel app) key →
              finding_key key (Panel.item_value item) ∈ seen_values (engine app).

End Invariants.

(** ** Concrete registries and documents, on the literal runtime *)

Module Examples.

Definition rt : PyRuntime := LiteralRe.runtime.

Definition registry0 : PatternManager := @new_PatternManager rt fresh_storage.

Definition ledger (pm : PatternManager) : Extender :=
  {| pattern_manager := pm; all_findings := []; seen_values := ∅ |}.

(** A script of more than 50 characters around [s]. *)
Definition script (s : string) : string :=
  "function init() { var retries = 3; var channel = '" +:+ s
  +:+ "'; return channel; }".

Definition exchange (url body : string) : MessageInfo :=
  {| getResponse := Some body; getUrl := Some url |}.

Definition with_test_key : PatternManager :=
  (@add_custom_pattern rt registry0 "secrets" "sk_test_0123456789" "Test Key").1.

Definition live_key : string := "live_key_ABCDEFGHIJKLMNOPQRSTUVWX".

Definition with_live_key : PatternManager :=
  (@add_custom_pattern rt registry0 "secrets" live_key "Live Key").1.

Definition with_tokens : PatternManager :=
  (@add_custom_pattern rt registry0 "tokens" "abc123" "Token").1.

End Examples.

(** ** Concrete states of the extension, on the literal runtime *)

Module Scenarios.
Import Examples.

(** The extension right after it was loaded, without a configuration file *)
Definition app0 : BurpExtender := @registerExtenderCallbacks rt fresh_storage.

(** The extension over the registry that holds the pattern [abc123] of the
    category [tokens] *)
Definition app_tokens : BurpExtender := with_pattern_manager app0 with_tokens.

Definition proxied (url body : string) (headers : list string) (in_scope : bool)
  : ProxyMessage :=
  {| getMessageInfo := exchange url body; getHeaders := headers;
     isInScope := in_scope |}.

Definition js_headers : list string :=
  ["HTTP/1.1 200 OK"; "Content-Type: application/javascript"; "Connection: close"].

(** A registry whose file cannot be written *)
Definition read_only : PatternManager :=
  @new_PatternManager rt {| file := None; writable := false |}.

(** A script that holds the token in lower case and one that holds it in
    upper case, from two sources.  The pattern of a custom category is
    compiled with IGNORECASE, so each script yields a finding. *)
Definition first_script : MessageInfo :=
  exchange "https://app.test/a.js" (script "abc123").
Definition second_script : MessageInfo :=
  exchange "https://app.test/b.js" (script "ABC123").

(** The extension after the manual analysis of the two scripts *)
Definition app_two_sources : BurpExtender :=
  (@actionPerformed rt [first_script; second_script] app_tokens).1.

(** The user picks an entry of the source filter. *)
Definition select_source (p : Panel.ResultsPanel) (entry : string)
  : Panel.ResultsPanel :=
  {| Panel.findings := Panel.findings p;
     Panel.sources := Panel.sources p;
     Panel.source_filter := Panel.source_filter p;
     Panel.selected_source := entry;
     Panel.search_field := Panel.search_field p;
     Panel.categories := Panel.categories p |}.

(** The registry that holds the pattern [(abc123)|(xyz789)] of the category
    [tokens], on the runtime of two alternatives, and a script that holds
    both words *)
Definition with_alternatives : PatternManager :=
  (@add_custom_pattern GroupRe.runtime
     (@new_PatternManager GroupRe.runtime fresh_storage)
     "tokens" "(abc123)|(xyz789)" "Token").1.

Definition both_words : MessageInfo :=
  exchange "https://app.test/c.js" (script "abc123 xyz789").

(** The same registry after the pattern [hello] was added to the category *)
Definition with_hello : PatternManager :=
  (@add_custom_pattern GroupRe.runtime with_alternatives "tokens" "hello" "Hello").1.

(** The category [beta] is created first and [alpha] second; then each is
    given a pattern. *)
Definition beta_created : PatternManager :=
  (@add_custom_category rt registry0 "beta" "Beta").1.

Definition alpha_created : PatternManager :=
  (@add_custom_category rt beta_created "alpha" "Alpha").1.

Definition beta_then_alpha : PatternManager :=
  (@add_custom_pattern rt
     (@add_custom_pattern rt alpha_created "beta" "bbb111" "B").1
     "alpha" "aaa111" "A").1.

End Scenarios.

(** ** Facts about the string operations *)

Section StringFacts.
Import PyStr.

Lemma app_cons (c : ascii) (s t : string) : String c s +:+ t = String c (s +:+ t).
Proof. reflexivity. Qed.

Lemma app_nil_l (t : string) : EmptyString +:+ t = t.
Proof. reflexivity. Qed.

Lemma len_app (s t : string) : len (s +:+ t) = len s + len t.
Proof.
  induction s as [|c s IH]; [done|].
  rewrite app_cons. unfold len in *. simpl. by rewrite IH.
Qed.

Lemma take_drop (n : nat) (s : string) : take n s +:+ drop n s = s.
Proof.
  revert s. induction n as [|n IH]; intros [|c s]; try done.
  simpl. rewrite app_cons. by rewrite IH.
Qed.

Lemma len_take (n : nat) (s : string) : len (take n s) = Nat.min n (len s).
Proof.
  revert s. induction n as [|n IH]; intros [|c s]; try done.
  unfold len in *. simpl. by rewrite IH.
Qed.

Lemma len_drop (n : nat) (s : string) : len (drop n s) = len s - n.
Proof.
  revert s. induction n as [|n IH]; intros [|c s]; try done.
  unfold len in *. simpl. by rewrite IH.
Qed.

Lemma drop_drop (n m : nat) (s : string) : drop n (drop m s) = drop (m + n) s.
Proof.
  revert s. induction m as [|m IH]; intros s; [done|].
  destruct s as [|c s]; simpl; [by destruct n|]. apply IH.
Qed.

Lemma take_all (n : nat) (s : string) : len s <= n → take n s = s.
Proof.
  revert s. induction n as [|n IH]; intros [|c s] Hn; try done.
  - unfold len in Hn. simpl in Hn. lia.
  - simpl. f_equal. apply IH. unfold len in *. simpl in Hn. lia.
Qed.

(** [value[:10]] and [value[-4:]] of a value longer than 20 characters *)
Lemma slice_first (k : nat) (s : string) :
  k <= len s → slice None (Some (Z.of_nat k)) s = take k s.
Proof.
  intros Hk. unfold slice, clip.
  destruct (Z.ltb_spec (Z.of_nat k) 0); [lia|].
  rewrite Nat2Z.id, Nat.min_l by done. by rewrite Nat.sub_0_r.
Qed.

Lemma slice_last (k : nat) (s : string) :
  0 < k → k <= len s → slice (Some (- Z.of_nat k)%Z) None s = drop (len s - k) s.
Proof.
  intros Hk0 Hk. unfold slice, clip.
  destruct (Z.ltb_spec (- Z.of_nat k) 0); [|lia].
  replace (Z.to_nat (Z.max 0 (- Z.of_nat k + Z.of_nat (len s)))) with (len s - k) by lia.
  apply take_all. rewrite len_drop. lia.
Qed.

Lemma split_nonempty (sep : ascii) (s : string) : split sep s ≠ [].
Proof.
  induction s as [|c s IH]; [done|]. simpl.
  destruct (Ascii.eqb c sep); [done|]. by destruct (split sep s).
Qed.

Lemma split_startswith (sep : ascii) (s : string) :
  startswith (String sep EmptyString) s = true → 2 <= length (split sep s).
Proof.
  destruct s as [|c s]; [done|]. simpl.
  destruct (Ascii.eqb_spec sep c) as [->|]; [|done]. intros _.
  rewrite Ascii.eqb_refl. simpl.
  pose proof (split_nonempty c s). destruct (split c s); [done|]. simpl. lia.
Qed.

End StringFacts.

(** ** The noise matcher decides the language of its pattern *)

Section RegexFacts.
Import PyRe.

Lemma matches_shorter (r : regex) (b : bool) (s : string) (b' : bool) (s' : string) :
  matches r b s b' s' →
  String.length s' <= String.length s
  ∧ (String.length s' = String.length s → s' = s ∧ b' = b).
Proof.
  induction 1 as [b s|c b s|p a b s Hp|r1 r2 b s b1 s1 b2 s2 _ [L1 E1] _ [L2 E2]
                 |r1 r2 b s b' s' _ IH|r1 r2 b s b' s' _ IH
                 |r b s|r b s b1 s1 b2 s2 _ [L1 E1] _ [L2 E2]|s|b s Hs];
    simpl; try (split; [lia|done]); try done; try (split; lia).
  - split; [lia|]. intros Heq.
    destruct E1 as [-> ->]; [lia|]. by apply E2.
  - split; [lia|]. intros Heq.
    destruct E1 as [-> ->]; [lia|]. by apply E2.
Qed.

Lemma star_loop_mono (step : bool → string → (bool → string → bool) → bool)
      (k1 k2 : bool → string → bool) (n m : nat) (b : bool) (t : string) :
  monotone step →
  (∀ b' s', k1 b' s' = true → k2 b' s' = true) →
  n <= m →
  star_loop step k1 n b t = true → star_loop step k2 m b t = true.
Proof.
  intros Hstep Hk. revert m b t.
  induction n as [|n IH]; intros m b t Hnm; simpl.
  - rewrite orb_false_r. intros Hb. destruct m; simpl; by rewrite (Hk _ _ Hb).
  - intros [Hb|Hs]%orb_true_iff.
    { destruct m; simpl; by rewrite (Hk _ _ Hb). }
    destruct m as [|m]; [lia|]. simpl. apply orb_true_iff. right.
    eapply Hstep; [|exact Hs]. intros b' s'. simpl.
    destruct (String.length s' <? String.length t); [|done].
    apply IH. lia.
Qed.

Lemma accept_mono (r : regex) : monotone (accept r).
Proof.
  induction r as [|c|p|r1 IH1 r2 IH2|r1 IH1 r2 IH2|r IH| |];
    intros b s k1 k2 Hk; cbn [accept].
  - apply Hk.
  - destruct s as [|a s]; [done|]. destruct (Ascii.eqb a c); [apply Hk|done].
  - destruct s as [|a s]; [done|]. destruct (p a); [apply Hk|done].
  - apply IH1. intros b' s'. by apply IH2.
  - intros [H1|H2]%orb_true_iff; apply orb_true_iff.
    + left. by eapply IH1.
    + right. by eapply IH2.
  - by apply star_loop_mono.
  - destruct b; [apply Hk|done].
  - destruct (at_end s); [apply Hk|done].
Qed.

Lemma star_loop_sound (r : regex) (k : bool → string → bool) (fuel : nat)
      (b : bool) (t : string) :
  (∀ b s k', accept r b s k' = true → ∃ b' s', matches r b s b' s' ∧ k' b' s' = true) →
  star_loop (accept r) k fuel b t = true →
  ∃ b' s', matches (Star r) b t b' s' ∧ k b' s' = true.
Proof.
  intros IHr. revert b t. induction fuel as [|fuel IH]; intros b t; simpl.
  - rewrite orb_false_r. intros Hk. exists b, t. split; [constructor|done].
  - intros [Hk|Hs]%orb_true_iff.
    { exists b, t. split; [constructor|done]. }
    apply IHr in Hs as (b1 & s1 & Hm & Hrest). simpl in Hrest.
    destruct (String.length s1 <? String.length t); [|done].
    apply IH in Hrest as (b2 & s2 & Hm2 & Hk2).
    exists b2, s2. split; [|done]. by eapply m_star_more.
Qed.

Lemma accept_sound (r : regex) (b : bool) (s : string) (k : bool → string → bool) :
  accept r b s k = true → ∃ b' s', matches r b s b' s' ∧ k b' s' = true.
Proof.
  revert b s k.
  induction r as [|c|p|r1 IH1 r2 IH2|r1 IH1 r2 IH2|r IH| |]; intros b s k; cbn [accept].
  - intros Hk. exists b, s. split; [constructor|done].
  - destruct s as [|a s]; [done|].
    destruct (Ascii.eqb_spec a c) as [->|]; [|done].
    intros Hk. exists false, s. split; [constructor|done].
  - destruct s as [|a s]; [done|]. destruct (p a) eqn:Hp; [|done].
    intros Hk. exists false, s. split; [by constructor|done].
  - intros (b1 & s1 & H1 & H2)%IH1. apply IH2 in H2 as (b2 & s2 & H2 & Hk).
    exists b2, s2. split; [by econstructor|done].
  - intros [H1|H2]%orb_true_iff.
    + apply IH1 in H1 as (b' & s' & Hm & Hk). exists b', s'.
      split; [by apply m_alt_l|done].
    + apply IH2 in H2 as (b' & s' & Hm & Hk). exists b', s'.
      split; [by apply m_alt_r|done].
  - by apply star_loop_sound.
  - destruct b; [|done]. intros Hk. exists true, s. split; [constructor|done].
  - destruct (at_end s) eqn:He; [|done]. intros Hk. exists b, s.
    split; [by constructor|done].
Qed.

Lemma accept_complete (r : regex) (b : bool) (s : string) (b' : bool) (s' : string)
      (k : bool → string → bool) :
  matches r b s b' s' → k b' s' = true → accept r b s k = true.
Proof.
  intros Hm. revert k.
  induction Hm as [b s|c b s|p a b s Hp|r1 r2 b s b1 s1 b2 s2 _ IH1 _ IH2
                  |r1 r2 b s b' s' _ IH|r1 r2 b s b' s' _ IH
                  |r b s|r b s b1 s1 b2 s2 Hm1 IH1 Hm2 IH2|s|b s Hs];
    intros k Hk; cbn [accept].
  - done.
  - by rewrite Ascii.eqb_refl.
  - by rewrite Hp.
  - apply IH1. by apply IH2.
  - apply orb_true_iff. left. by apply IH.
  - apply orb_true_iff. right. by apply IH.
  - simpl. by rewrite Hk.
  - destruct (matches_shorter _ _ _ _ _ Hm1) as [Hle Heq].
    destruct (decide (String.length s1 = String.length s)) as [He|Hne].
    { destruct (Heq He) as [-> ->]. by apply (IH2 k). }
    simpl. apply orb_true_iff. right. apply IH1.
    destruct (Nat.ltb_spec (String.length s1) (String.length s)); [|lia].
    specialize (IH2 k Hk). cbn [accept] in IH2.
    eapply (star_loop_mono _ k k (S (String.length s1)));
      [apply accept_mono|done|lia|done].
  - done.
  - by rewrite Hs.
Qed.

(** [search] succeeds exactly when the pattern matches at some position of
    the value; only the position 0 is the start of the text. *)
Lemma search_from_spec (r : regex) (bos : bool) (s : string) :
  search_from r bos s = true
  ↔ ∃ pre rest b' s',
      s = pre +:+ rest ∧ matches r (bos && String.eqb pre EmptyString) rest b' s'.
Proof.
  revert bos. induction s as [|c s IH]; intros bos; simpl.
  - rewrite orb_false_r. split.
    + intros (b' & s' & Hm & _)%accept_sound.
      exists EmptyString, EmptyString, b', s'. split; [done|].
      by rewrite andb_true_r.
    + intros (pre & rest & b' & s' & Heq & Hm).
      destruct pre; [|by rewrite app_cons in Heq].
      rewrite app_nil_l in Heq. subst rest.
      rewrite andb_true_r in Hm. by eapply accept_complete.
  - rewrite orb_true_iff, IH. split.
    + intros [(b' & s' & Hm & _)%accept_sound|(pre & rest & b' & s' & -> & Hm)].
      * exists EmptyString, (String c s), b', s'. split; [done|].
        by rewrite andb_true_r.
      * exists (String c pre), rest, b', s'. split; [done|].
        simpl in *. by rewrite andb_false_r.
    + intros (pre & rest & b' & s' & Heq & Hm). destruct pre as [|a pre].
      * left. rewrite app_nil_l in Heq. subst rest. rewrite andb_true_r in Hm.
        by eapply accept_complete.
      * right. rewrite app_cons in Heq. injection Heq as -> ->.
        exists pre, rest, b', s'. split; [done|].
        simpl in *. by rewrite andb_false_r in Hm.
Qed.

Lemma search_spec (r : regex) (s : string) :
  search r s = true
  ↔ ∃ pre rest b' s',
      s = pre +:+ rest ∧ matches r (String.eqb pre EmptyString) rest b' s'.
Proof. apply search_from_spec. Qed.

End RegexFacts.

(** ** Masking and the validators *)

Section ValidatorFacts.
Import PyStr.

Lemma mask_long (v : string) :
  20 < len v →
  _mask_secret v = take 10 v +:+ "..." +:+ drop (len v - 4) v.
Proof.
  intros Hv. unfold _mask_secret.
  destruct (Nat.ltb_spec 20 (len v)); [|lia].
  change 10%Z with (Z.of_nat 10). change (-4)%Z with (- Z.of_nat 4)%Z.
  rewrite slice_first, slice_last by lia. done.
Qed.

(** C3, as the code has it.  A value longer than 20 characters is cut into
    its first 10 characters, a middle part and its last 4 characters, and
    the middle part is replaced by three dots; a value of at most 20
    characters is returned as it is.  The 30-character value
    ABCDEFGHIJ1234567890ABCDEFGHIJ becomes ABCDEFGHIJ...GHIJ, and every
    15-character value is kept. *)
Theorem mask_secret_first10_last4 (v : string) :
  (20 < len v →
     ∃ a mid c, v = a +:+ mid +:+ c ∧ len a = 10 ∧ len c = 4
                ∧ _mask_secret v = a +:+ "..." +:+ c)
  ∧ (len v <= 20 → _mask_secret v = v)
  ∧ (len v = 15 → _mask_secret v = v)
  ∧ _mask_secret "ABCDEFGHIJ1234567890ABCDEFGHIJ" = "ABCDEFGHIJ...GHIJ".
Proof.
  split; [|split; [|split]].
  - intros Hv. exists (take 10 v), (take (len v - 14) (drop 10 v)), (drop (len v - 4) v).
    split; [|split; [|split]].
    + rewrite <- (take_drop 10 v) at 1. f_equal.
      rewrite <- (take_drop (len v - 14) (drop 10 v)) at 1. f_equal.
      rewrite drop_drop. f_equal. lia.
    + rewrite len_take. lia.
    + rewrite len_drop. lia.
    + by apply mask_long.
  - intros Hv. unfold _mask_secret. by destruct (Nat.ltb_spec 20 (len v)); [lia|].
  - intros Hv. unfold _mask_secret. by destruct (Nat.ltb_spec 20 (len v)); [lia|].
  - reflexivity.
Qed.

(** C3, the example as the specification writes it: the code keeps the
    last four characters GHIJ, not the five characters FGHIJ. *)
Lemma mask_secret_example_keeps_four :
  _mask_secret "ABCDEFGHIJ1234567890ABCDEFGHIJ" = "ABCDEFGHIJ...GHIJ"
  ∧ _mask_secret "ABCDEFGHIJ1234567890ABCDEFGHIJ" ≠ "ABCDEFGHIJ...FGHIJ".
Proof. split; [reflexivity | discriminate]. Qed.

(** C10.  Both noise predicates answer [True] for the empty string and
    for [None], and the two validators that consult them reject the empty
    string. *)
Theorem noise_of_empty_value :
  is_noise (Some EmptyString) = true ∧ is_noise None = true
  ∧ is_noise_domain (Some EmptyString) = true ∧ is_noise_domain None = true
  ∧ _is_valid_endpoint EmptyString = false ∧ _is_valid_url EmptyString = false.
Proof. repeat split. Qed.

(** The noise predicate on values of the kinds its patterns are written
    for, and on two paths. *)
Example is_noise_samples :
  is_noise (Some "./util") = true ∧ is_noise (Some "en-us.js") = true
  ∧ is_noise (Some "pt") = true ∧ is_noise (Some "row-xform") = true
  ∧ is_noise (Some "sha256") = true ∧ is_noise (Some "/Type") = true
  ∧ is_noise (Some "12 0 R") = true ∧ is_noise (Some "xl/styles") = true
  ∧ is_noise (Some "sheet1.xml") = true ∧ is_noise (Some "webpack://x") = true
  ∧ is_noise (Some "events") = true ∧ is_noise (Some "#top") = true
  ∧ is_noise (Some "/x") = true ∧ is_noise (Some "a_ngcontent-c0") = true
  ∧ is_noise (Some "zone.js") = true
  ∧ is_noise (Some "/api/v2/users") = false ∧ is_noise (Some "/admin") = false
  ∧ is_noise (Some "/type") = false ∧ is_noise (Some "events2") = false.
Proof. repeat split. Qed.

Lemma falsy_short (v : string) (n : nat) :
  0 < n → falsy (Some v) || (len v <? n) = (len v <? n).
Proof.
  intros Hn. destruct v as [|c v]; simpl; [|done].
  symmetry. apply Nat.ltb_lt. unfold len. simpl. lia.
Qed.

Lemma all_short (l : list string) :
  forallb (λ p, len p <? 2) l = true ↔ Forall (λ p, len p < 2) l.
Proof.
  rewrite forallb_forall, Forall_forall.
  split; intros Hl p Hp.
  - apply Nat.ltb_lt, Hl. by apply list_elem_of_In.
  - apply Nat.ltb_lt, Hl. by apply list_elem_of_In.
Qed.

(** C5, as the code has it.  A value is rejected exactly when it is noise,
    or shorter than 3 characters, or does not start with the separator, or
    each of its non-empty segments is shorter than 2 characters.  The
    number of segments plays no role: a value that starts with the
    separator always splits into at least 2 parts. *)
Theorem endpoint_rejected_iff (v : string) :
  (_is_valid_endpoint v = false ↔
     is_noise (Some v) = true ∨ len v < 3 ∨ startswith "/" v = false
     ∨ Forall (λ p, len p < 2) (List.filter nonempty (split "/" v)))
  ∧ (startswith "/" v = false → _is_valid_endpoint v = false)
  ∧ _is_valid_endpoint "/api/v2/users" = true
  ∧ _is_valid_endpoint "/a" = false.
Proof.
  assert (Hiff : _is_valid_endpoint v = false ↔
     is_noise (Some v) = true ∨ len v < 3 ∨ startswith "/" v = false
     ∨ Forall (λ p, len p < 2) (List.filter nonempty (split "/" v))).
  { unfold _is_valid_endpoint. rewrite falsy_short by lia.
    destruct (Nat.ltb_spec (len v) 3) as [Hlen|Hlen]; [naive_solver|].
    destruct (is_noise (Some v)) eqn:Hnoise; [naive_solver|].
    destruct (startswith "/" v) eqn:Hstart; simpl; [|naive_solver].
    pose proof (split_startswith "/" v Hstart) as Hparts.
    destruct (Nat.ltb_spec (length (split "/" v)) 2) as [?|_]; [lia|]. simpl.
    destruct (forallb _ _) eqn:Hshort.
    - apply all_short in Hshort. naive_solver.
    - split; [done|]. intros [?|[?|[?|Hf]]]; try done; try lia.
      apply all_short in Hf. congruence. }
  split; [exact Hiff|]. split; [|split; reflexivity].
  intros Hs. apply Hiff. auto.
Qed.

(** C5, as the specification states it: it also rejects a value with fewer
    than 2 non-empty segments, and the code accepts one. *)
Lemma endpoint_single_segment_accepted :
  _is_valid_endpoint "/admin" = true
  ∧ length (List.filter nonempty (split "/" "/admin")) < 2
  ∧ is_noise (Some "/admin") = false.
Proof. repeat split. vm_compute. lia. Qed.

End ValidatorFacts.

(** ** The registry *)

Section RegistryFacts.
Context `{PyRuntime}.

Lemma foldl_append_new (acc l : list string) :
  NoDup l →
  foldl (λ cs k, if decide (k ∈ cs) then cs else cs ++ [k]) acc l
  = acc ++ filter (λ k, k ∉ acc) l.
Proof.
  revert acc. induction l as [|x l IH]; intros acc Hnd.
  { by rewrite app_nil_r. }
  apply NoDup_cons in Hnd as [Hx Hnd]. simpl.
  destruct (decide (x ∈ acc)) as [Hin|Hout].
  - rewrite IH by done. by rewrite filter_cons_False by naive_solver.
  - rewrite IH by done. rewrite filter_cons_True by done.
    rewrite <- app_assoc. simpl. do 2 f_equal.
    clear IH Hnd. induction l as [|y l IH]; [done|].
    apply not_elem_of_cons in Hx as [Hxy Hx].
    rewrite !filter_cons. rewrite IH by done.
    destruct (decide (y ∉ acc ++ [x])) as [H1|H1], (decide (y ∉ acc)) as [H2|H2];
      try done; exfalso.
    + apply H2. intros Hy. apply H1. apply elem_of_app. by left.
    + apply H1. intros [Hy|Hy%list_elem_of_singleton]%elem_of_app; [done|congruence].
Qed.

Lemma categories_from_eq (keys : list string) :
  NoDup keys →
  categories_from keys
  = builtin_categories ++ filter (λ k, k ∉ builtin_categories) keys.
Proof. apply foldl_append_new. Qed.

Lemma get_all_categories_eq (self : PatternManager) :
  get_all_categories self
  = builtin_categories
    ++ filter (λ k, k ∉ builtin_categories)
         (map_to_list (custom_categories_compiled self)).*1.
Proof. apply foldl_append_new, NoDup_fst_map_to_list. Qed.

Lemma elem_of_keys {A : Type} (m : gmap string A) (k : string) :
  k ∈ (map_to_list m).*1 ↔ is_Some (m !! k).
Proof.
  rewrite list_elem_of_fmap. split.
  - intros [[k' x] [-> Hx]]. apply elem_of_map_to_list in Hx. by exists x.
  - intros [x Hx]. exists (k, x). split; [done|]. by apply elem_of_map_to_list.
Qed.

Lemma elem_of_get_all_categories (self : PatternManager) (k : string) :
  k ∈ get_all_categories self
  ↔ k ∈ builtin_categories ∨ is_Some (custom_categories_compiled self !! k).
Proof.
  rewrite get_all_categories_eq, elem_of_app, list_elem_of_filter, elem_of_keys.
  destruct (decide (k ∈ builtin_categories)); naive_solver.
Qed.

Lemma NoDup_get_all_categories (self : PatternManager) :
  NoDup (get_all_categories self).
Proof.
  rewrite get_all_categories_eq. apply NoDup_app. split; [|split].
  - unfold builtin_categories. repeat (apply NoDup_cons; split; [set_solver|]).
    apply NoDup_nil_2.
  - intros k Hk. rewrite list_elem_of_filter. naive_solver.
  - apply NoDup_filter, NoDup_fst_map_to_list.
Qed.

Lemma compile_entries_app (icase : bool) (l1 l2 : list PatternEntry) :
  compile_entries icase (l1 ++ l2) = compile_entries icase l1 ++ compile_entries icase l2.
Proof. apply omap_app. Qed.

Lemma compile_entries_valid (icase : bool) (e : PatternEntry) :
  re_error (regex e) = None →
  compile_entries icase [e] = [({| re_pattern := regex e; re_ignorecase := icase |}, name e)].
Proof. intros He. unfold compile_entries. simpl. by rewrite He. Qed.

Lemma elem_of_compile_entries (icase : bool) (l : list PatternEntry) (p : Compiled * string) :
  p ∈ compile_entries icase l
  ↔ ∃ e, e ∈ l ∧ re_error (regex e) = None
         ∧ p = ({| re_pattern := regex e; re_ignorecase := icase |}, name e).
Proof.
  unfold compile_entries. rewrite list_elem_of_omap.
  split; intros [e [He Hp]]; exists e; (split; [done|]).
  - destruct (re_error (regex e)); naive_solver.
  - destruct Hp as [-> ->]. done.
Qed.

Lemma compile_category_Some (d : CategoryData) :
  is_Some (compile_category d) ↔ ∃ e, e ∈ patterns d ∧ re_error (regex e) = None.
Proof.
  unfold compile_category.
  destruct (compile_entries true (patterns d)) as [|p ps] eqn:Hc.
  - split; [by intros [? ?]|]. intros [e [He Hv]].
    assert (Hin : ({| re_pattern := regex e; re_ignorecase := true |}, name e)
                  ∈ compile_entries true (patterns d)).
    { apply elem_of_compile_entries. eauto. }
    rewrite Hc in Hin. by apply elem_of_nil in Hin.
  - split; [|by eauto]. intros _.
    assert (Hin : p ∈ compile_entries true (patterns d)).
    { rewrite Hc. apply elem_of_cons. by left. }
    apply elem_of_compile_entries in Hin as [e [? [? ?]]]. eauto.
Qed.

Lemma compile_category_patterns (d : CategoryData) (cd : CompiledCategory) :
  compile_category d = Some cd →
  compiled_patterns cd = compile_entries true (patterns d).
Proof.
  unfold compile_category.
  destruct (compile_entries true (patterns d)); [done|]. by intros [= <-].
Qed.

Lemma compiled_lookup (self : PatternManager) (k : string) :
  custom_categories_compiled (_compile_custom_patterns self) !! k
  = custom_categories (config self) !! k ≫= compile_category.
Proof. apply lookup_omap. Qed.

Lemma config_save_and_compile (self : PatternManager) :
  config (save_and_compile self) = config self.
Proof. unfold save_and_compile, save_config. by destruct (writable (storage self)). Qed.

Lemma compiled_save_and_compile (self : PatternManager) (k : string) :
  custom_categories_compiled (save_and_compile self) !! k
  = custom_categories (config self) !! k ≫= compile_category.
Proof.
  unfold save_and_compile. rewrite compiled_lookup.
  unfold save_config. by destruct (writable (storage self)).
Qed.

Lemma custom_save_and_compile (self : PatternManager) :
  custom_compiled (save_and_compile self)
  = {| cc_endpoints := compile_entries true (custom_endpoints (config self));
       cc_urls := compile_entries false (custom_urls (config self));
       cc_secrets := compile_entries false (custom_secrets (config self)) |}.
Proof. unfold save_and_compile, save_config. by destruct (writable (storage self)). Qed.

Lemma storage_save_and_compile (self : PatternManager) :
  writable (storage self) = true →
  file (storage (save_and_compile self)) = Some (config self).
Proof. intros Hw. unfold save_and_compile, save_config. by rewrite Hw. Qed.

End RegistryFacts.

Section RegistryClaims.
Context `{PyRuntime}.

Lemma not_builtin (k : string) :
  k ∉ builtin_categories ↔
  k ≠ "endpoints" ∧ k ≠ "urls" ∧ k ≠ "secrets" ∧ k ≠ "emails" ∧ k ≠ "files".
Proof.
  unfold builtin_categories. rewrite !not_elem_of_cons.
  pose proof (not_elem_of_nil k). tauto.
Qed.

Lemma add_category_fresh (self : PatternManager) (key dn : string) :
  key ∉ get_all_categories self →
  add_custom_category self key dn
  = (save_and_compile
       (with_config self
          (set_custom_categories (config self)
             (<[key := {| display_name := dn; patterns := [] |}]>
                (custom_categories (config self))))),
     (true, None)).
Proof. intros Hk. unfold add_custom_category. by rewrite decide_False. Qed.

Lemma add_category_listed (self : PatternManager) (key dn : string) :
  key ∈ get_all_categories self →
  add_custom_category self key dn = (self, (false, Some "Category already exists")).
Proof. intros Hk. unfold add_custom_category. by rewrite decide_True. Qed.

Lemma add_pattern_custom_config (self : PatternManager) (cat rx nm : string) :
  cat ≠ "endpoints" → cat ≠ "urls" → cat ≠ "secrets" → re_error rx = None →
  ∃ dn,
    custom_categories (config (add_custom_pattern self cat rx nm).1) !! cat
    = Some {| display_name := dn;
              patterns := get_custom_patterns_list self cat
                          ++ [{| regex := rx; name := nm |}] |}.
Proof.
  intros H1 H2 H3 Hv. unfold add_custom_pattern, get_custom_patterns_list.
  rewrite Hv. rewrite !decide_False by done. cbn [fst].
  rewrite config_save_and_compile. cbn [with_config set_custom_categories config custom_categories].
  rewrite lookup_alter_eq.
  destruct (custom_categories (config self) !! cat) as [d|] eqn:Hd.
  - rewrite Hd. simpl. by eexists.
  - rewrite lookup_insert_eq. simpl. by eexists.
Qed.

Lemma add_category_unlisted (self : PatternManager) (key dn : string) :
  key ∉ get_all_categories self →
  key ∉ get_all_categories (add_custom_category self key dn).1.
Proof.
  intros Hout. rewrite add_category_fresh by done. cbn [fst].
  rewrite elem_of_get_all_categories. intros [Hb|Hc].
  - apply Hout, elem_of_get_all_categories. by left.
  - rewrite compiled_save_and_compile in Hc. simpl in Hc.
    rewrite lookup_insert_eq in Hc. simpl in Hc. by destruct Hc.
Qed.

(** C9, as the code has it.  The list starts with the five built-in keys in
    their fixed order and goes on with the keys of the compiled custom
    categories that are not built-in keys, each once, in the order in
    which the dictionary yields them: whatever that order is, the custom
    keys keep it, and the list of the model is the list of the code up to
    the order of the custom keys.  A custom category is compiled, after any
    recompilation, exactly when the configuration holds a pattern for it
    that compiles; so a category that [add_custom_category] has just
    created is not in the list, and it enters the list with the first
    pattern that compiles. *)
Theorem categories_builtin_then_compiled (self : PatternManager) :
  (∀ keys, NoDup keys →
     (∀ k, k ∈ keys ↔ is_Some (custom_categories_compiled self !! k)) →
     categories_from keys
     = ["endpoints"; "urls"; "secrets"; "emails"; "files"]
       ++ filter (λ k, k ∉ builtin_categories) keys
     ∧ get_all_categories self ≡ₚ categories_from keys)
  ∧ get_all_categories self
    = categories_from (map_to_list (custom_categories_compiled self)).*1
  ∧ ∃ customs,
    get_all_categories self
    = ["endpoints"; "urls"; "secrets"; "emails"; "files"] ++ customs
    ∧ NoDup (get_all_categories self)
    ∧ (∀ k, k ∈ customs
            ↔ (k ∉ builtin_categories)
              ∧ is_Some (custom_categories_compiled self !! k))
    ∧ (∀ k, is_Some (custom_categories_compiled (_compile_custom_patterns self) !! k)
            ↔ ∃ d e, custom_categories (config self) !! k = Some d
                     ∧ e ∈ patterns d ∧ re_error (regex e) = None)
    ∧ (∀ key dn, (add_custom_category self key dn).2 = (true, None) →
                 key ∉ get_all_categories (add_custom_category self key dn).1)
    ∧ (∀ key rx nm, key ∉ builtin_categories → re_error rx = None →
                    key ∈ get_all_categories (add_custom_pattern self key rx nm).1).
Proof.
  split.
  { intros keys Hnd Hkeys. split; [by apply categories_from_eq|].
    rewrite get_all_categories_eq, categories_from_eq by done.
    apply Permutation_app_head, NoDup_Permutation.
    - apply NoDup_filter, NoDup_fst_map_to_list.
    - by apply NoDup_filter.
    - intros k. by rewrite !list_elem_of_filter, elem_of_keys, Hkeys. }
  split; [done|].
  exists (filter (λ k, k ∉ builtin_categories)
            (map_to_list (custom_categories_compiled self)).*1).
  split; [apply get_all_categories_eq|].
  split; [apply NoDup_get_all_categories|].
  split; [|split; [|split]].
  - intros k. by rewrite list_elem_of_filter, elem_of_keys.
  - intros k. rewrite compiled_lookup.
    destruct (custom_categories (config self) !! k) as [d|] eqn:Hd; simpl.
    + rewrite compile_category_Some. split.
      * intros [e [? ?]]. by exists d, e.
      * intros [d' [e [[= <-] [? ?]]]]. by exists e.
    + split; [by intros [? ?]|]. by intros [? [? [? ?]]].
  - intros key dn. destruct (decide (key ∈ get_all_categories self)) as [Hin|Hout].
    { by rewrite add_category_listed. }
    intros _. by apply add_category_unlisted.
  - intros key rx nm Hb Hv. apply elem_of_get_all_categories. right.
    apply not_builtin in Hb as (H1 & H2 & H3 & _).
    destruct (add_pattern_custom_config self key rx nm H1 H2 H3 Hv) as [dn Hdn].
    assert (Hr : (add_custom_pattern self key rx nm).1
                 = save_and_compile (with_config self (config (add_custom_pattern self key rx nm).1))).
    { unfold add_custom_pattern. rewrite Hv. cbn [fst]. by rewrite config_save_and_compile. }
    rewrite Hr, compiled_save_and_compile. simpl. rewrite Hdn. simpl.
    apply compile_category_Some. exists {| regex := rx; name := nm |}. simpl.
    split; [|done]. apply elem_of_app. right. by apply list_elem_of_singleton.
Qed.

(** C7.  A key that is in the list of categories is refused and nothing
    changes; this covers the built-in keys, so [secrets] is always refused.
    A custom key is in that list only while it has a pattern that compiles:
    a key that was just added is not, and adding it a second time succeeds
    and replaces the entry of the configuration. *)
Theorem add_category_collision (self : PatternManager) (key dn : string) :
  (key ∈ get_all_categories self →
     add_custom_category self key dn = (self, (false, Some "Category already exists")))
  ∧ add_custom_category self "secrets" dn
    = (self, (false, Some "Category already exists"))
  ∧ (key ∉ get_all_categories self →
     (add_custom_category self key dn).2 = (true, None)
     ∧ ∀ dn', (add_custom_category (add_custom_category self key dn).1 key dn').2
              = (true, None))
  ∧ (let r1 := add_custom_category (new_PatternManager fresh_storage) "foo" "Foo" in
     let r2 := add_custom_category r1.1 "foo" "Bar" in
     r1.2 = (true, None) ∧ r2.2 = (true, None)
     ∧ custom_categories (config r2.1) !! "foo"
       = Some {| display_name := "Bar"; patterns := [] |}).
Proof.
  split; [apply add_category_listed|].
  split.
  { apply add_category_listed, elem_of_get_all_categories. left.
    unfold builtin_categories. set_solver. }
  split.
  - intros Hk. split; [by rewrite add_category_fresh|]. intros dn'.
    pose proof (add_category_unlisted self key dn Hk) as Hnew.
    by rewrite (add_category_fresh _ key dn').
  - vm_compute. done.
Qed.

Lemma elem_of_items_of (pm : PatternManager) (body : string) (cats : list string)
      (cat n : string) (m : Match) :
  (cat, n, m) ∈ items_of pm body cats
  ↔ cat ∈ cats
    ∧ ∃ p, (p, n) ∈ get_patterns_for_category pm cat ∧ m ∈ finditer p body.
Proof.
  unfold items_of. rewrite list_elem_of_bind. split.
  - intros (c & Hin & Hc).
    apply list_elem_of_bind in Hin as ([p n'] & Hin & Hp).
    apply list_elem_of_bind in Hin as (m' & Hin & Hm).
    apply list_elem_of_singleton in Hin. simpl in *. simplify_eq. eauto.
  - intros (Hc & p & Hp & Hm). exists cat. split; [|done].
    apply list_elem_of_bind. exists (p, n). split; [|done].
    apply list_elem_of_bind. exists m. split; [|done].
    by apply list_elem_of_singleton.
Qed.

Lemma elem_of_scan_items (pm : PatternManager) (body cat n : string) (m : Match) :
  (cat, n, m) ∈ scan_items pm body
  ↔ cat ∈ get_all_categories pm
    ∧ ∃ p, (p, n) ∈ get_patterns_for_category pm cat ∧ m ∈ finditer p body.
Proof. apply elem_of_items_of. Qed.

Lemma last_compiled (icase : bool) (l : list PatternEntry) (rx nm : string) :
  re_error rx = None →
  ({| re_pattern := rx; re_ignorecase := icase |}, nm)
  ∈ compile_entries icase (l ++ [{| regex := rx; name := nm |}]).
Proof.
  intros Hv. rewrite compile_entries_app, elem_of_app. right.
  rewrite (compile_entries_valid icase {| regex := rx; name := nm |}) by done.
  by apply list_elem_of_singleton.
Qed.

(** What [add_custom_pattern] does to the registry.  An invalid pattern is
    refused with the text of the error and the registry, with its
    configuration and its file, stays as it was.  A valid pattern is
    appended to the custom list of its category and the file is written
    when it can be; for [endpoints], [urls], [secrets] and every key that
    is not built-in the category is listed and the compiled pattern is
    among those of the category, so its matches are among the items of a
    scan. *)
Lemma add_pattern_registry (self : PatternManager) (cat rx nm : string) :
  (∀ msg, re_error rx = Some msg →
     add_custom_pattern self cat rx nm
     = (self, (false, Some ("Invalid regex: " +:+ msg))))
  ∧ (re_error rx = None →
     let r := add_custom_pattern self cat rx nm in
     r.2 = (true, None)
     ∧ get_custom_patterns_list r.1 cat
       = get_custom_patterns_list self cat ++ [{| regex := rx; name := nm |}]
     ∧ (writable (storage self) = true → file (storage r.1) = Some (config r.1))
     ∧ (cat ≠ "emails" → cat ≠ "files" →
        cat ∈ get_all_categories r.1
        ∧ ∃ p, re_pattern p = rx
               ∧ (p, nm) ∈ get_patterns_for_category r.1 cat
               ∧ ∀ body m, m ∈ finditer p body → (cat, nm, m) ∈ scan_items r.1 body)).
Proof.
  split.
  { intros msg Hmsg. unfold add_custom_pattern. by rewrite Hmsg. }
  intros Hv r.
  assert (Hr : ∃ c', r = (save_and_compile (with_config self c'), (true, None))).
  { subst r. unfold add_custom_pattern. rewrite Hv. by eexists. }
  destruct Hr as [c' Hr].
  assert (Hused : ∀ p, cat ∈ get_all_categories r.1 →
            re_pattern p = rx → (p, nm) ∈ get_patterns_for_category r.1 cat →
            cat ∈ get_all_categories r.1
            ∧ ∃ p, re_pattern p = rx
                   ∧ (p, nm) ∈ get_patterns_for_category r.1 cat
                   ∧ ∀ body m, m ∈ finditer p body → (cat, nm, m) ∈ scan_items r.1 body).
  { intros p Hc Hp Hin. split; [done|]. exists p. split; [done|]. split; [done|].
    intros body m Hm. apply elem_of_scan_items. eauto. }
  split; [by rewrite Hr|].
  assert (Hcfg : config r.1 = c').
  { rewrite Hr. cbn [fst]. by rewrite config_save_and_compile. }
  split; [|split].
  - (* the custom list *)
    destruct (decide (cat = "endpoints")) as [->|H1];
      [|destruct (decide (cat = "urls")) as [->|H2];
        [|destruct (decide (cat = "secrets")) as [->|H3]]].
    + unfold get_custom_patterns_list. rewrite !decide_True by done.
      subst r. unfold add_custom_pattern. rewrite Hv. cbn [fst].
      by rewrite config_save_and_compile.
    + unfold get_custom_patterns_list. rewrite decide_False, decide_True by done.
      subst r. unfold add_custom_pattern. rewrite Hv. cbn [fst].
      by rewrite config_save_and_compile.
    + unfold get_custom_patterns_list at 1.
      rewrite !decide_False, decide_True by done.
      subst r. unfold add_custom_pattern. rewrite Hv. cbn [fst].
      rewrite config_save_and_compile. done.
    + destruct (add_pattern_custom_config self cat rx nm H1 H2 H3 Hv) as [dn Hdn].
      unfold get_custom_patterns_list at 1. rewrite !decide_False by done.
      fold r in Hdn. by rewrite Hdn.
  - intros Hw. rewrite Hcfg, Hr. cbn [fst].
    by rewrite storage_save_and_compile.
  - intros H4 H5.
    destruct (decide (cat = "endpoints")) as [->|H1];
      [|destruct (decide (cat = "urls")) as [->|H2];
        [|destruct (decide (cat = "secrets")) as [->|H3]]].
    + apply (Hused {| re_pattern := rx; re_ignorecase := true |}); [|done|].
      { apply elem_of_get_all_categories. left. unfold builtin_categories. set_solver. }
      unfold get_patterns_for_category. rewrite decide_True by done.
      apply elem_of_app. right.
      subst r. unfold add_custom_pattern. rewrite Hv. cbn [fst].
      rewrite custom_save_and_compile. cbn. rewrite decide_True by done. cbn.
      by apply last_compiled.
    + apply (Hused {| re_pattern := rx; re_ignorecase := false |}); [|done|].
      { apply elem_of_get_all_categories. left. unfold builtin_categories. set_solver. }
      unfold get_patterns_for_category. rewrite decide_False, decide_True by done.
      apply elem_of_app. right.
      subst r. unfold add_custom_pattern. rewrite Hv. cbn [fst].
      rewrite custom_save_and_compile. cbn. rewrite decide_False, decide_True by done. cbn.
      by apply last_compiled.
    + apply (Hused {| re_pattern := rx; re_ignorecase := false |}); [|done|].
      { apply elem_of_get_all_categories. left. unfold builtin_categories. set_solver. }
      unfold get_patterns_for_category. rewrite !decide_False, decide_True by done.
      apply elem_of_app. right.
      subst r. unfold add_custom_pattern. rewrite Hv. cbn [fst].
      rewrite custom_save_and_compile. cbn.
      rewrite !decide_False, decide_True by done. cbn.
      by apply last_compiled.
    + destruct (add_pattern_custom_config self cat rx nm H1 H2 H3 Hv) as [dn Hdn].
      fold r in Hdn.
      assert (Hcomp : ∃ cd, custom_categories_compiled r.1 !! cat = Some cd
                ∧ ({| re_pattern := rx; re_ignorecase := true |}, nm) ∈ compiled_patterns cd).
      { rewrite Hr in Hdn |- *. cbn [fst] in *.
        rewrite compiled_save_and_compile.
        rewrite config_save_and_compile in Hdn. rewrite Hdn. cbn.
        destruct (compile_category _) as [cd|] eqn:Hcd.
        - exists cd. split; [done|].
          rewrite (compile_category_patterns _ _ Hcd). cbn. by apply last_compiled.
        - exfalso. assert (Hs : is_Some (compile_category
              {| display_name := dn;
                 patterns := get_custom_patterns_list self cat
                             ++ [{| regex := rx; name := nm |}] |})).
          { apply compile_category_Some. exists {| regex := rx; name := nm |}.
            cbn. split; [|done]. apply elem_of_app. right.
            by apply list_elem_of_singleton. }
          rewrite Hcd in Hs. by destruct Hs. }
      destruct Hcomp as (cd & Hcd & Hin).
      apply (Hused {| re_pattern := rx; re_ignorecase := true |}); [|done|].
      { apply elem_of_get_all_categories. right. by rewrite Hcd. }
      unfold get_patterns_for_category. rewrite !decide_False by done.
      by rewrite Hcd.
Qed.

Lemma del_index_spec {A : Type} (l : list A) (index : Z) :
  let n := Z.of_nat (length l) in
  del_index l index
  = if decide (- n ≤ index < n)%Z then Some (delete (position n index) l) else None.
Proof.
  intros n. unfold del_index, position. fold n.
  destruct (Z.ltb_spec index 0).
  - destruct (decide (- n ≤ index < n)%Z) as [Hr|Hr].
    + destruct (Z.leb_spec 0 (index + n)), (Z.ltb_spec (index + n) n); try lia. done.
    + destruct (Z.leb_spec 0 (index + n)), (Z.ltb_spec (index + n) n); try lia; done.
  - destruct (decide (- n ≤ index < n)%Z) as [Hr|Hr].
    + destruct (Z.leb_spec 0 index), (Z.ltb_spec index n); try lia. done.
    + destruct (Z.leb_spec 0 index), (Z.ltb_spec index n); try lia; done.
Qed.

Lemma builtin_patterns_prefix (self : PatternManager) (c : string) :
  builtin_patterns c `prefix_of` get_patterns_for_category self c.
Proof.
  unfold builtin_patterns, get_patterns_for_category.
  repeat case_decide; try apply prefix_app_r; try done.
  apply prefix_nil.
Qed.

(** C8, as the code has it.  For a category whose custom list the
    configuration holds, the call succeeds exactly when the index lies
    between minus the length and the length of that list; it then removes
    the entry at that position, a negative index counting from the end.
    Any other index fails with the not-found message and changes nothing.
    The built-in entries of every category stay in front of its patterns
    after any call. *)
Theorem remove_pattern_by_position (self : PatternManager) (cat : string) (index : Z) :
  let l := get_custom_patterns_list self cat in
  let n := Z.of_nat (length l) in
  let r := remove_custom_pattern self cat index in
  (has_custom_list self cat →
     ((- n ≤ index < n)%Z →
        r.2 = (true, None)
        ∧ get_custom_patterns_list r.1 cat = delete (position n index) l)
     ∧ (¬ (- n ≤ index < n)%Z →
        r = (self, (false, Some ("Pattern not found: " +:+ str_IndexError index)))))
  ∧ (∀ c, builtin_patterns c `prefix_of` get_patterns_for_category r.1 c).
Proof.
  intros l n r. split; [|intros c; apply builtin_patterns_prefix].
  intros Hhas. subst l n r.
  unfold remove_custom_pattern, get_custom_patterns_list, not_found.
  destruct (decide (cat = "endpoints")) as [->|H1];
    [|destruct (decide (cat = "urls")) as [->|H2];
      [|destruct (decide (cat = "secrets")) as [->|H3]]].
  - rewrite del_index_spec. case_decide; (split; [|done]); intros Hr; [|done].
    cbn [fst snd]. rewrite config_save_and_compile. done.
  - rewrite del_index_spec. case_decide; (split; [|done]); intros Hr; [|done].
    cbn [fst snd]. rewrite config_save_and_compile. done.
  - rewrite del_index_spec. case_decide; (split; [|done]); intros Hr; [|done].
    cbn [fst snd]. rewrite config_save_and_compile. done.
  - destruct Hhas as [Hb|[d Hd]]; [set_solver|]. rewrite Hd.
    rewrite del_index_spec. case_decide; (split; [|done]); intros Hr; [|done].
    cbn [fst snd]. rewrite config_save_and_compile.
    cbn. by rewrite lookup_insert_eq.
Qed.

End RegistryClaims.

(** ** The ledger *)

Section LedgerFacts.
Context `{PyRuntime}.

Lemma for_each_app {A B : Type} (l1 l2 : list A) (body : A → B → Eff B)
      (acc : B) (self : Extender) :
  for_each (l1 ++ l2) body acc self
  = match for_each l1 body acc self with
    | (self', Some acc') => for_each l2 body acc' self'
    | (self', None) => (self', None)
    end.
Proof.
  revert acc self. induction l1 as [|x l1 IH]; intros acc self; simpl.
  - done.
  - destruct (body x acc self) as [s [a|]]; [apply IH|done].
Qed.

Lemma for_each_bind {A B C : Type} (l : list A) (f : A → list B)
      (body : B → C → Eff C) (acc : C) (self : Extender) :
  for_each (l ≫= f) body acc self = for_each l (λ x, for_each (f x) body) acc self.
Proof.
  revert acc self. induction l as [|x l IH]; intros acc self; [done|].
  change ((x :: l) ≫= f) with (f x ++ (l ≫= f)).
  rewrite for_each_app. simpl.
  destruct (for_each (f x) body acc self) as [s [a|]]; [apply IH|done].
Qed.

Lemma for_each_ext {A B : Type} (l : list A) (body1 body2 : A → B → Eff B)
      (acc : B) (self : Extender) :
  (∀ x a s, body1 x a s = body2 x a s) →
  for_each l body1 acc self = for_each l body2 acc self.
Proof.
  intros Hb. revert acc self. induction l as [|x l IH]; intros acc self; [done|].
  simpl. rewrite Hb. destruct (body2 x acc self) as [s [a|]]; [apply IH|done].
Qed.

(** The three loops visit the items of [scan_items], in order. *)
Lemma scan_flat (pm : PatternManager) (body url : string) (mi : MessageInfo)
      (self : Extender) :
  scan pm body url mi self = for_each (scan_items pm body) (on_item url mi) [] self.
Proof.
  unfold scan, scan_items, items_of. rewrite for_each_bind.
  apply for_each_ext. intros cat a s. rewrite for_each_bind.
  apply for_each_ext. intros pn a' s'. rewrite for_each_bind.
  apply for_each_ext. intros m a'' s''. simpl. unfold on_item. simpl.
  by destruct (on_match cat url pn.2 mi m a'' s'') as [? [?|]].
Qed.

Lemma analyze_long (mi : MessageInfo) (body : string) (self : Extender) :
  getResponse mi = Some body → 50 <= PyStr.len body →
  analyze_response mi self
  = for_each (scan_items (pattern_manager self) body)
             (on_item (default "Unknown" (getUrl mi)) mi) [] self.
Proof.
  intros Hb Hlen. unfold analyze_response. rewrite Hb.
  destruct (Nat.ltb_spec (PyStr.len body) 50); [lia|]. apply scan_flat.
Qed.

Lemma analyze_short (mi : MessageInfo) (self : Extender) :
  (∀ body, getResponse mi = Some body → PyStr.len body < 50) →
  analyze_response mi self = (self, Some []).
Proof.
  intros Hb. unfold analyze_response. destruct (getResponse mi) as [body|]; [|done].
  specialize (Hb body eq_refl). by destruct (Nat.ltb_spec (PyStr.len body) 50); [|lia].
Qed.

(** The match of [(a)|(b)] on the text b: its last group is the second one
    and its first group is unset, so [group(1).strip()] raises and the call
    is left through the exception. *)
Example unset_first_group (cat url n : string) (mi : MessageInfo)
        (new : list Finding) (self : Extender) :
  let m := {| group0 := "b"; lastindex := Some 2; group1 := None |} in
  match_value m = None ∧ on_match cat url n mi m new self = (self, None).
Proof. done. Qed.

(** A run that returns met no match without a value. *)
Lemma run_returns (url : string) (mi : MessageInfo)
      (items : list (string * string * Match)) (new : list Finding)
      (self self' : Extender) (new' : list Finding) :
  for_each items (on_item url mi) new self = (self', Some new') → values_ok items.
Proof.
  revert new self. induction items as [|it items IH]; intros new self Hrun.
  { constructor. }
  simpl in Hrun. unfold on_item at 1, on_match in Hrun.
  destruct (match_value it.2) as [v|] eqn:Hv; [|done].
  constructor; [by rewrite Hv|].
  destruct (validated it.1.1 v) as [v'|]; [|by eapply IH].
  destruct (_add_finding self it.1.1 v' url it.1.2 mi) as [s [f|]]; by eapply IH.
Qed.

Lemma fresh_cons_seen (seen : gset string) (c : string * string * string)
      (cs : list (string * string * string)) :
  candidate_key c ∈ seen → fresh seen (c :: cs) = fresh seen cs.
Proof. intros Hc. simpl. by rewrite decide_True. Qed.

Lemma fresh_cons_new (seen : gset string) (c : string * string * string)
      (cs : list (string * string * string)) :
  candidate_key c ∉ seen →
  fresh seen (c :: cs) = c :: fresh ({[ candidate_key c ]} ∪ seen) cs.
Proof. intros Hc. simpl. by rewrite decide_False. Qed.

(** What a run over items with values does to the ledger. *)
Lemma run_items (url : string) (mi : MessageInfo)
      (items : list (string * string * Match)) (new : list Finding) (self : Extender) :
  values_ok items →
  for_each items (on_item url mi) new self
  = ({| pattern_manager := pattern_manager self;
        all_findings :=
          all_findings self
          ++ (to_finding url mi <$> fresh (seen_values self) (candidates items));
        seen_values :=
          list_to_set (candidate_key <$> candidates items) ∪ seen_values self |},
     Some (new ++ (to_finding url mi <$> fresh (seen_values self) (candidates items)))).
Proof.
  intros Hok. revert new self.
  induction Hok as [|it items [v Hv] Hok IH]; intros new self.
  { simpl. rewrite !app_nil_r. destruct self as [pm fs seen]. simpl.
    do 2 f_equal. set_solver. }
  assert (Hstep : for_each (it :: items) (on_item url mi) new self
                  = match on_match it.1.1 url it.1.2 mi it.2 new self with
                    | (s, Some a) => for_each items (on_item url mi) a s
                    | (s, None) => (s, None)
                    end) by done.
  rewrite Hstep. clear Hstep. unfold on_match. rewrite Hv.
  assert (Hcs : candidates (it :: items)
                = match validated it.1.1 v with
                  | Some v' => (it.1.1, v', it.1.2) :: candidates items
                  | None => candidates items
                  end).
  { unfold candidates. simpl. unfold candidate at 1. rewrite Hv. simpl.
    by destruct (validated it.1.1 v). }
  rewrite Hcs. clear Hcs.
  destruct (validated it.1.1 v) as [v'|]; [|apply IH].
  unfold _add_finding.
  set (c := (it.1.1, v', it.1.2)).
  change (finding_key it.1.1 v') with (candidate_key c).
  rewrite fmap_cons, list_to_set_cons.
  destruct (decide (candidate_key c ∈ seen_values self)) as [Hin|Hout].
  - rewrite fresh_cons_seen by done. rewrite IH.
    f_equal. f_equal. set_solver.
  - rewrite fresh_cons_new by done. rewrite IH. cbn [seen_values all_findings pattern_manager].
    rewrite fmap_cons, <- !app_assoc. cbn [app].
    f_equal. f_equal. set_solver.
Qed.

Lemma fresh_seen (seen : gset string) (cs : list (string * string * string)) :
  (∀ c, c ∈ cs → candidate_key c ∈ seen) → fresh seen cs = [].
Proof.
  induction cs as [|c cs IH]; intros Hcs; [done|]. simpl.
  rewrite decide_True by (apply Hcs, elem_of_cons; by left).
  apply IH. intros c' Hc'. apply Hcs, elem_of_cons. by right.
Qed.

Lemma elem_of_fresh (seen : gset string) (cs : list (string * string * string))
      (c : string * string * string) :
  c ∈ fresh seen cs → c ∈ cs ∧ candidate_key c ∉ seen.
Proof.
  revert seen. induction cs as [|x cs IH]; intros seen Hc; simpl in Hc.
  { by apply elem_of_nil in Hc. }
  destruct (decide (candidate_key x ∈ seen)).
  - apply IH in Hc as [? ?]. split; [apply elem_of_cons; by right|done].
  - apply elem_of_cons in Hc as [->|Hc].
    + split; [apply elem_of_cons; by left|done].
    + apply IH in Hc as [? Hk]. split; [apply elem_of_cons; by right|set_solver].
Qed.

Lemma fresh_app (seen : gset string) (l1 l2 : list (string * string * string)) :
  fresh seen (l1 ++ l2)
  = fresh seen l1 ++ fresh (list_to_set (candidate_key <$> l1) ∪ seen) l2.
Proof.
  revert seen. induction l1 as [|x l1 IH]; intros seen; simpl.
  { f_equal. set_solver. }
  destruct (decide (candidate_key x ∈ seen)).
  - rewrite IH. do 2 f_equal. set_solver.
  - simpl. rewrite IH. do 3 f_equal. set_solver.
Qed.

(** The first candidate of a key that is not yet in the seen-set is let
    through, and no other candidate of that key is. *)
Lemma fresh_first (seen : gset string) (pre post : list (string * string * string))
      (c : string * string * string) :
  candidate_key c ∉ seen →
  (∀ x, x ∈ pre → candidate_key x ≠ candidate_key c) →
  ∃ before after,
    fresh seen (pre ++ c :: post) = before ++ c :: after
    ∧ (∀ x, x ∈ before → candidate_key x ≠ candidate_key c)
    ∧ (∀ x, x ∈ after → candidate_key x ≠ candidate_key c).
Proof.
  intros Hc Hpre.
  exists (fresh seen pre),
         (fresh ({[ candidate_key c ]} ∪ (list_to_set (candidate_key <$> pre) ∪ seen)) post).
  split; [|split].
  - rewrite fresh_app. f_equal. simpl. rewrite decide_False; [done|].
    intros [Hin|Hin]%elem_of_union; [|done].
    apply elem_of_list_to_set, list_elem_of_fmap in Hin as [x [Hx Hin]].
    by apply (Hpre x).
  - intros x Hx. apply elem_of_fresh in Hx as [Hx _]. by apply Hpre.
  - intros x Hx. apply elem_of_fresh in Hx as [_ Hx]. set_solver.
Qed.

(** Any occurrence of a key has a first one. *)
Lemma first_occurrence (cs : list (string * string * string)) (c0 : string * string * string) :
  c0 ∈ cs →
  ∃ pre c post, cs = pre ++ c :: post
                ∧ candidate_key c = candidate_key c0
                ∧ ∀ x, x ∈ pre → candidate_key x ≠ candidate_key c0.
Proof.
  induction cs as [|x cs IH]; intros Hin; [by apply elem_of_nil in Hin|].
  destruct (decide (candidate_key x = candidate_key c0)) as [Heq|Hne].
  - exists [], x, cs. split; [done|]. split; [done|]. intros y Hy.
    by apply elem_of_nil in Hy.
  - apply elem_of_cons in Hin as [->|Hin]; [done|].
    destruct (IH Hin) as (pre & c & post & -> & Hk & Hpre).
    exists (x :: pre), c, post. split; [done|]. split; [done|].
    intros y [->|Hy]%elem_of_cons; [done|by apply Hpre].
Qed.

(** The ledger invariant holds at the start and after every call, also
    after one that an exception leaves. *)
Lemma ledger_ok_new (st : Storage) : ledger_ok (new_Extender st).
Proof. intros f Hf. by apply elem_of_nil in Hf. Qed.

Lemma ledger_ok_clear (self : Extender) : ledger_ok (clear_results self).
Proof. intros f Hf. by apply elem_of_nil in Hf. Qed.

Lemma ledger_ok_on_match (cat url n : string) (mi : MessageInfo) (m : Match)
      (new : list Finding) (self : Extender) :
  ledger_ok self → ledger_ok (on_match cat url n mi m new self).1.
Proof.
  intros Hok. unfold on_match.
  destruct (match_value m) as [v|]; [|done].
  destruct (validated cat v) as [v'|]; [|done].
  unfold _add_finding.
  destruct (decide (finding_key cat v' ∈ seen_values self)); [done|].
  intros f. simpl. intros [Hf|Hf]%elem_of_app.
  - apply elem_of_union. right. by apply Hok.
  - apply list_elem_of_singleton in Hf as ->.
    apply elem_of_union. left. by apply elem_of_singleton.
Qed.

Lemma ledger_ok_for_each {A B : Type} (l : list A) (body : A → B → Eff B)
      (acc : B) (self : Extender) :
  (∀ x a s, ledger_ok s → ledger_ok (body x a s).1) →
  ledger_ok self → ledger_ok (for_each l body acc self).1.
Proof.
  intros Hbody. revert acc self.
  induction l as [|x l IH]; intros acc self Hok; [done|]. simpl.
  specialize (Hbody x acc self Hok).
  destruct (body x acc self) as [s [a|]]; [by apply IH|done].
Qed.

Lemma ledger_ok_analyze (mi : MessageInfo) (self : Extender) :
  ledger_ok self → ledger_ok (analyze_response mi self).1.
Proof.
  intros Hok. unfold analyze_response.
  destruct (getResponse mi) as [body|]; [|done].
  destruct (PyStr.len body <? 50); [done|].
  unfold scan. apply ledger_ok_for_each; [|done].
  intros cat a s Hs. apply ledger_ok_for_each; [|done].
  intros pn a' s' Hs'. apply ledger_ok_for_each; [|done].
  intros m a'' s'' Hs''. by apply ledger_ok_on_match.
Qed.

End LedgerFacts.

Section LedgerClaims.
Context `{PyRuntime}.
Import PyStr.

Lemma key_of_to_finding (url : string) (mi : MessageInfo) (c : string * string * string) :
  key_of (to_finding url mi c) = candidate_key c.
Proof. done. Qed.

Lemma candidate_keys_seen (cs : list (string * string * string)) (seen : gset string)
      (c : string * string * string) :
  c ∈ cs → candidate_key c ∈ (list_to_set (candidate_key <$> cs) ∪ seen : gset string).
Proof.
  intros Hc. apply elem_of_union. left.
  apply elem_of_list_to_set, list_elem_of_fmap. eauto.
Qed.

(** The same call made twice, when it returns.  A call that visits only
    matches with a value returns.  When a call returns, the same call made
    again returns the empty list and leaves the object as it is: the
    findings of the first call are those of the candidates whose key was
    not yet in the seen-set, each of them is on record, and the seen-set
    now holds the key of every candidate. *)
Theorem analyze_twice (self : Extender) (mi : MessageInfo) :
  ((∀ body, getResponse mi = Some body →
            values_ok (scan_items (pattern_manager self) body)) →
   ∃ self1 new1, analyze_response mi self = (self1, Some new1))
  ∧ ∀ self1 new1,
      analyze_response mi self = (self1, Some new1) →
      analyze_response mi self1 = (self1, Some [])
      ∧ seen_values self ⊆ seen_values self1
      ∧ (∀ f, f ∈ new1 →
              f ∈ all_findings self1
              ∧ key_of f ∈ seen_values self1
              ∧ key_of f ∉ seen_values self)
      ∧ (∀ body, getResponse mi = Some body → 50 <= len body →
           new1 = to_finding (default "Unknown" (getUrl mi)) mi
                  <$> fresh (seen_values self)
                        (candidates (scan_items (pattern_manager self) body))).
Proof.
  destruct (getResponse mi) as [body|] eqn:Hbody; cycle 1.
  { assert (Hshort : ∀ s, analyze_response mi s = (s, Some [])).
    { intros s. apply analyze_short. intros b. by rewrite Hbody. }
    split; [intros _; rewrite Hshort; eauto|].
    intros self1 new1. rewrite Hshort. intros [= <- <-].
    split; [apply Hshort|]. split; [done|]. split; [|done].
    intros f Hf. by apply elem_of_nil in Hf. }
  destruct (Nat.ltb_spec (len body) 50) as [Hlen|Hlen].
  { assert (Hshort : ∀ s, analyze_response mi s = (s, Some [])).
    { intros s. apply analyze_short. intros b. rewrite Hbody. intros [= <-]. done. }
    split; [intros _; rewrite Hshort; eauto|].
    intros self1 new1. rewrite Hshort. intros [= <- <-].
    split; [apply Hshort|]. split; [done|]. split.
    - intros f Hf. by apply elem_of_nil in Hf.
    - intros b [= <-] ?. lia. }
  split.
  { intros Hok. rewrite (analyze_long mi body) by done.
    rewrite run_items by (by apply Hok). eauto. }
  intros self1 new1. rewrite (analyze_long mi body self) by done. intros Hrun.
  pose proof (run_returns _ _ _ _ _ _ _ Hrun) as Hok.
  rewrite run_items in Hrun by done. simpl in Hrun.
  injection Hrun as Hself1 Hnew1.
  set (url := default "Unknown" (getUrl mi)) in *.
  set (cs := candidates (scan_items (pattern_manager self) body)) in *.
  assert (Hpm : pattern_manager self1 = pattern_manager self) by by rewrite <- Hself1.
  assert (Hseen : seen_values self1 = list_to_set (candidate_key <$> cs) ∪ seen_values self)
    by by rewrite <- Hself1.
  assert (Hall : all_findings self1
                 = all_findings self ++ (to_finding url mi <$> fresh (seen_values self) cs))
    by by rewrite <- Hself1.
  split; [|split; [|split]].
  - rewrite (analyze_long mi body self1) by done. rewrite Hpm.
    rewrite run_items by done. fold url cs.
    rewrite (fresh_seen (seen_values self1) cs); cycle 1.
    { intros c Hc. rewrite Hseen. by apply candidate_keys_seen. }
    simpl. rewrite app_nil_r. f_equal.
    destruct self1 as [pm1 fs1 seen1]. simpl in *. f_equal.
    clear -Hseen. set_solver.
  - rewrite Hseen. set_solver.
  - intros f Hf. rewrite <- Hnew1 in Hf.
    apply list_elem_of_fmap in Hf as [c [-> Hc]].
    split; [|split].
    + rewrite Hall. apply elem_of_app. right. apply list_elem_of_fmap. eauto.
    + rewrite key_of_to_finding, Hseen. apply candidate_keys_seen.
      by apply elem_of_fresh in Hc as [? ?].
    + rewrite key_of_to_finding. by apply elem_of_fresh in Hc as [? ?].
  - intros b [= <-] _. done.
Qed.

(** Among items of which one has no value there is a first such. *)
Lemma first_without_value (items : list (string * string * Match)) :
  ¬ values_ok items →
  ∃ pre bad post, items = pre ++ bad :: post
                  ∧ values_ok pre ∧ match_value bad.2 = None.
Proof.
  induction items as [|it items IH]; intros Hno.
  { destruct Hno. constructor. }
  destruct (match_value it.2) as [v|] eqn:Hv.
  - destruct IH as (pre & bad & post & -> & Hpre & Hbad).
    { intros Hok. apply Hno. constructor; [by rewrite Hv|done]. }
    exists (it :: pre), bad, post. split; [done|]. split; [|done].
    constructor; [by rewrite Hv|done].
  - exists [], it, items. split; [done|]. split; [constructor|done].
Qed.

(** A run is left at the first item without a value, with the ledger as
    the items before it made it. *)
Lemma run_until_bad (url : string) (mi : MessageInfo)
      (pre post : list (string * string * Match)) (bad : string * string * Match)
      (self : Extender) :
  values_ok pre → match_value bad.2 = None →
  for_each (pre ++ bad :: post) (on_item url mi) [] self
  = ({| pattern_manager := pattern_manager self;
        all_findings :=
          all_findings self
          ++ (to_finding url mi <$> fresh (seen_values self) (candidates pre));
        seen_values :=
          list_to_set (candidate_key <$> candidates pre) ∪ seen_values self |},
     None).
Proof.
  intros Hpre Hbad. rewrite for_each_app, run_items by done.
  cbn [for_each]. unfold on_item at 1, on_match. by rewrite Hbad.
Qed.

(** C1.  A call on a document in which some visited match has no value
    (its pattern has groups and the first of them took no part in the
    match) is left through the exception, after the findings of the matches
    visited before were recorded; the same call made again is left through
    the exception as well, and records nothing. *)
Theorem analyze_twice_raises (self : Extender) (mi : MessageInfo) (body : string) :
  getResponse mi = Some body → 50 <= len body →
  ¬ values_ok (scan_items (pattern_manager self) body) →
  ∃ self1, analyze_response mi self = (self1, None)
           ∧ analyze_response mi self1 = (self1, None)
           ∧ pattern_manager self1 = pattern_manager self
           ∧ seen_values self ⊆ seen_values self1
           ∧ ∃ recorded, all_findings self1 = all_findings self ++ recorded
                         ∧ ∀ f, f ∈ recorded → key_of f ∈ seen_values self1
                                               ∧ key_of f ∉ seen_values self.
Proof.
  intros Hb Hlen Hno.
  destruct (first_without_value _ Hno) as (pre & bad & post & Hitems & Hpre & Hbad).
  set (url := default "Unknown" (getUrl mi)).
  set (self1 := {| pattern_manager := pattern_manager self;
        all_findings :=
          all_findings self
          ++ (to_finding url mi <$> fresh (seen_values self) (candidates pre));
        seen_values :=
          list_to_set (candidate_key <$> candidates pre) ∪ seen_values self |}).
  exists self1.
  split; [|split; [|split; [|split]]].
  - rewrite (analyze_long mi body) by done. rewrite Hitems.
    by apply run_until_bad.
  - rewrite (analyze_long mi body) by done.
    change (pattern_manager self1) with (pattern_manager self). rewrite Hitems.
    rewrite run_until_bad by done. fold url.
    rewrite (fresh_seen (seen_values self1) (candidates pre)); cycle 1.
    { intros c Hc. apply elem_of_union. left.
      apply elem_of_list_to_set, list_elem_of_fmap. eauto. }
    rewrite fmap_nil, app_nil_r. do 2 f_equal.
    unfold self1. cbn [pattern_manager all_findings seen_values].
    set_solver.
  - done.
  - unfold self1. cbn [seen_values]. set_solver.
  - eexists. split; [done|]. intros f Hf.
    apply list_elem_of_fmap in Hf as [c [-> Hc]].
    apply elem_of_fresh in Hc as [Hc Hk]. split; [|done].
    apply elem_of_union. left.
    apply elem_of_list_to_set, list_elem_of_fmap. eauto.
Qed.

Lemma builtin_key_is_secrets (cat v' mv : string) :
  cat ∈ builtin_categories →
  finding_key cat v' = finding_key "secrets" mv →
  cat = "secrets" ∧ v' = mv.
Proof.
  unfold builtin_categories. rewrite !elem_of_cons.
  intros [->|[->|[->|[->|[->|Hnil]]]]] Hk;
    try (by apply elem_of_nil in Hnil);
    vm_compute in Hk; try discriminate.
  by simplify_eq.
Qed.

Lemma candidate_Some_inv (it : string * string * Match) (c : string * string * string) :
  candidate it = Some c →
  ∃ v, match_value it.2 = Some v
       ∧ validated it.1.1 v = Some c.1.2
       ∧ c.1.1 = it.1.1 ∧ c.2 = it.1.2.
Proof.
  unfold candidate. destruct (match_value it.2) as [v|]; [|done]. simpl.
  destruct (validated it.1.1 v) as [v'|] eqn:Hv'; [|done]. simpl.
  intros [= <-]. by exists v.
Qed.

Lemma candidates_category (pm : PatternManager) (body : string) (cats : list string)
      (c : string * string * string) :
  c ∈ candidates (items_of pm body cats) → c.1.1 ∈ cats.
Proof.
  unfold candidates. rewrite list_elem_of_omap.
  intros ([[cat n] m] & Hit & Hc).
  apply elem_of_items_of in Hit as [Hcat _].
  apply candidate_Some_inv in Hc as (v & _ & _ & -> & _). done.
Qed.

Lemma secret_candidate (pm : PatternManager) (body v : string) :
  secret_in pm body v →
  ∃ n, ("secrets", _mask_secret v, n) ∈ candidates (items_of pm body builtin_categories).
Proof.
  intros (p & n & m & Hp & Hm & Hv & Hvalid). exists n.
  unfold candidates. apply list_elem_of_omap. exists ("secrets", n, m). split.
  - apply elem_of_items_of. split; [|by eauto].
    unfold builtin_categories. set_solver.
  - unfold candidate. simpl. rewrite Hv. simpl.
    unfold validated. rewrite !decide_False, decide_True by done.
    by rewrite Hvalid.
Qed.

Lemma filter_none {A : Type} (P : A → bool) (l : list A) :
  (∀ y, y ∈ l → P y = false) → List.filter P l = [].
Proof.
  induction l as [|x l IH]; intros Hl; [done|]. simpl.
  rewrite (Hl x) by (apply elem_of_cons; by left).
  apply IH. intros y Hy. apply Hl, elem_of_cons. by right.
Qed.

Lemma filter_single {A : Type} (P : A → bool) (l1 l2 : list A) (x : A) :
  P x = true →
  (∀ y, y ∈ l1 → P y = false) → (∀ y, y ∈ l2 → P y = false) →
  List.filter P (l1 ++ x :: l2) = [x].
Proof.
  intros Hx H1 H2. induction l1 as [|y l1 IH]; simpl.
  - rewrite Hx. f_equal. by apply filter_none.
  - rewrite (H1 y) by (apply elem_of_cons; by left).
    apply IH. intros z Hz. apply H1, elem_of_cons. by right.
Qed.

Lemma scan_items_split (pm : PatternManager) (body : string) :
  ∃ customs,
    scan_items pm body
    = items_of pm body builtin_categories ++ items_of pm body customs.
Proof.
  eexists. unfold scan_items, items_of.
  rewrite get_all_categories_eq. apply bind_app.
Qed.

(** C2, as the code has it.  Two documents of at least 50 characters with
    different sources hold the same secret, and its key, the category
    followed by a colon and the masked value, is not yet in the seen-set of
    a ledger whose findings all have their key in it.  After both analyses
    exactly one finding is on record for [secrets] and the masked value.
    It was returned by the first analysis, it carries the source of the
    first document and the name of the pattern of the first candidate of
    that key in the first document, and the second analysis returns no
    finding of that key. *)
Theorem same_secret_two_documents
        (self self1 self2 : Extender) (mi1 mi2 : MessageInfo)
        (body1 body2 url1 url2 v : string) (new1 new2 : list Finding) :
  ledger_ok self →
  getResponse mi1 = Some body1 → getUrl mi1 = Some url1 → 50 <= len body1 →
  getResponse mi2 = Some body2 → getUrl mi2 = Some url2 → 50 <= len body2 →
  url1 ≠ url2 →
  secret_in (pattern_manager self) body1 v →
  secret_in (pattern_manager self) body2 v →
  finding_key "secrets" (_mask_secret v) ∉ seen_values self →
  analyze_response mi1 self = (self1, Some new1) →
  analyze_response mi2 self1 = (self2, Some new2) →
  ∃ f,
    recorded self2 "secrets" (_mask_secret v) = [f]
    ∧ f ∈ new1
    ∧ category f = "secrets" ∧ value f = _mask_secret v
    ∧ source f = url1 ∧ source f ≠ url2
    ∧ key_of f = "secrets:" +:+ _mask_secret v
    ∧ key_of f ∈ seen_values self2
    ∧ (∀ g, g ∈ new2 → key_of g ≠ key_of f)
    ∧ ∃ pre post,
        candidates (scan_items (pattern_manager self) body1)
        = pre ++ ("secrets", _mask_secret v, pattern f) :: post
        ∧ ∀ c, c ∈ pre → candidate_key c ≠ key_of f.
Proof.
  intros Hledger Hb1 Hu1 Hl1 Hb2 Hu2 Hl2 Hurl Hs1 _ Hfresh Hrun1 Hrun2.
  rewrite (analyze_long mi1 body1) in Hrun1 by done.
  rewrite (analyze_long mi2 body2) in Hrun2 by done.
  rewrite Hu1 in Hrun1. rewrite Hu2 in Hrun2. simpl in Hrun1, Hrun2.
  pose proof (run_returns _ _ _ _ _ _ _ Hrun1) as Hok1.
  pose proof (run_returns _ _ _ _ _ _ _ Hrun2) as Hok2.
  rewrite run_items in Hrun1 by done. rewrite run_items in Hrun2 by done.
  injection Hrun1 as Hself1 Hnew1. injection Hrun2 as Hself2 Hnew2.
  set (k := finding_key "secrets" (_mask_secret v)) in *.
  set (pm := pattern_manager self) in *.
  set (cs1 := candidates (scan_items pm body1)) in *.
  assert (Hseen1 : seen_values self1
                   = list_to_set (candidate_key <$> cs1) ∪ seen_values self)
    by by rewrite <- Hself1.
  assert (Hall1 : all_findings self1
                  = all_findings self ++ (to_finding url1 mi1 <$> fresh (seen_values self) cs1))
    by by rewrite <- Hself1.
  (* the first candidate of the key is one of the category [secrets] *)
  destruct (scan_items_split pm body1) as [customs Hsplit].
  destruct (secret_candidate pm body1 v Hs1) as [n0 Hc0].
  destruct (first_occurrence _ _ Hc0) as (pre & c & post & Hcsb & Hkc & Hpre).
  assert (Hcat : c.1.1 = "secrets" ∧ c.1.2 = _mask_secret v).
  { apply builtin_key_is_secrets; [|exact Hkc].
    apply (candidates_category pm body1). rewrite Hcsb.
    apply elem_of_app. right. apply elem_of_cons. by left. }
  destruct c as [[ccat cval] cname]. simpl in Hcat. destruct Hcat as [-> ->].
  assert (Hcs1 : cs1 = pre ++ ("secrets", _mask_secret v, cname)
                         :: (post ++ candidates (items_of pm body1 customs))).
  { unfold cs1, candidates. rewrite Hsplit, omap_app.
    unfold candidates in Hcsb. rewrite Hcsb. by rewrite <- app_assoc. }
  destruct (fresh_first (seen_values self) pre
              (post ++ candidates (items_of pm body1 customs))
              ("secrets", _mask_secret v, cname) Hfresh Hpre)
    as (before & after & Hfr & Hbefore & Hafter).
  rewrite <- Hcs1 in Hfr.
  assert (Hk1 : k ∈ seen_values self1).
  { rewrite Hseen1. apply (candidate_keys_seen cs1 _ ("secrets", _mask_secret v, cname)).
    rewrite Hcs1. apply elem_of_app. right. apply elem_of_cons. by left. }
  set (f := to_finding url1 mi1 ("secrets", _mask_secret v, cname)).
  assert (Hnew2k : ∀ g, g ∈ new2 → key_of g ≠ k).
  { intros g Hg. rewrite <- Hnew2 in Hg.
    apply list_elem_of_fmap in Hg as [c2 [-> Hc2]].
    rewrite key_of_to_finding. apply elem_of_fresh in Hc2 as [_ Hc2].
    intros Heq. apply Hc2. by rewrite Heq. }
  assert (HP : ∀ g : Finding,
             key_of g ≠ k →
             String.eqb (category g) "secrets" && String.eqb (value g) (_mask_secret v)
             = false).
  { intros g Hg. apply not_true_is_false. intros Ht.
    apply andb_true_iff in Ht as [Hc%String.eqb_eq Hv%String.eqb_eq].
    apply Hg. unfold key_of, k. by rewrite Hc, Hv. }
  exists f. split; [|split; [|repeat split]].
  - unfold recorded. rewrite <- Hself2. simpl. rewrite Hnew2, Hall1, Hfr.
    rewrite fmap_app, fmap_cons. fold f.
    rewrite <- !app_assoc. rewrite app_assoc. simpl.
    apply filter_single.
    + simpl. by rewrite !String.eqb_refl.
    + intros g [Hg|Hg]%elem_of_app; apply HP.
      * intros Heq. apply Hfresh. fold k. rewrite <- Heq. by apply Hledger.
      * apply list_elem_of_fmap in Hg as [c' [-> Hc']].
        rewrite key_of_to_finding. by apply Hbefore.
    + intros g [Hg|Hg]%elem_of_app; apply HP.
      * apply list_elem_of_fmap in Hg as [c' [-> Hc']].
        rewrite key_of_to_finding. by apply Hafter.
      * by apply Hnew2k.
  - rewrite <- Hnew1, Hfr. apply list_elem_of_fmap.
    exists ("secrets", _mask_secret v, cname). split; [done|].
    apply elem_of_app. right. apply elem_of_cons. by left.
  - simpl. congruence.
  - rewrite <- Hself2. simpl. apply elem_of_union. by right.
  - exact Hnew2k.
  - exists pre, (post ++ candidates (items_of pm body1 customs)).
    split; [exact Hcs1|]. intros c' Hc'. by apply Hpre.
Qed.

Lemma validated_custom (cat v : string) :
  cat ∉ builtin_categories → validated cat v = Some v.
Proof.
  intros (H1 & H2 & H3 & H4 & H5)%not_builtin.
  unfold validated. by rewrite !decide_False.
Qed.

(** C4, as the code has it.  The validator is chosen by the category of the
    match alone.  Every finding of a call comes from a visited match whose
    value passed the check of its category, whether the pattern is built in
    or was added by a user: a finding of [endpoints] or [urls] passed that
    validator, and one of [secrets] passed the secret validator and holds
    the masked value.  Only a category that is not built in has no check:
    there every match is taken with its stripped value, unmasked, and its
    key is in the seen-set after the call. *)
Theorem validation_by_category (self : Extender) (mi : MessageInfo) (body : string) :
  (∀ cat v, cat ∉ builtin_categories → validated cat v = Some v)
  ∧ (∀ v, validated "endpoints" v = (if _is_valid_endpoint v then Some v else None))
  ∧ (∀ v, validated "urls" v = (if _is_valid_url v then Some v else None))
  ∧ (∀ v, validated "secrets" v
          = (if _is_valid_secret v then Some (_mask_secret v) else None))
  ∧ ∀ self1 new1,
      getResponse mi = Some body → 50 <= len body →
      analyze_response mi self = (self1, Some new1) →
      (∀ f, f ∈ new1 →
         ∃ n m v, (category f, n, m) ∈ scan_items (pattern_manager self) body
                  ∧ pattern f = n
                  ∧ match_value m = Some v
                  ∧ validated (category f) v = Some (value f))
      ∧ (∀ cat n m,
           (cat, n, m) ∈ scan_items (pattern_manager self) body →
           cat ∉ builtin_categories →
           ∃ v, match_value m = Some v
                ∧ finding_key cat v ∈ seen_values self1
                ∧ (finding_key cat v ∉ seen_values self →
                   ∃ f, f ∈ new1 ∧ key_of f = finding_key cat v)).
Proof.
  split; [apply validated_custom|]. do 3 (split; [done|]).
  intros self1 new1 Hb Hlen Hrun.
  rewrite (analyze_long mi body) in Hrun by done.
  pose proof (run_returns _ _ _ _ _ _ _ Hrun) as Hok.
  rewrite run_items in Hrun by done. injection Hrun as Hself1 Hnew1.
  set (url := default "Unknown" (getUrl mi)) in *.
  set (cs := candidates (scan_items (pattern_manager self) body)) in *.
  split.
  - intros f Hf. rewrite <- Hnew1 in Hf.
    apply list_elem_of_fmap in Hf as [c [-> Hc]].
    apply elem_of_fresh in Hc as [Hc _].
    apply list_elem_of_omap in Hc as ([[cat n] m] & Hit & Hc).
    apply candidate_Some_inv in Hc as (v & Hv & Hval & Hcat & Hn).
    simpl in *. exists n, m, v. rewrite Hcat. done.
  - intros cat n m Hit Hcat.
    assert (Hm : is_Some (match_value m)).
    { unfold values_ok in Hok. rewrite Forall_forall in Hok. by apply (Hok _ Hit). }
    destruct Hm as [v Hv]. exists v. split; [done|].
    assert (Hc : (cat, v, n) ∈ cs).
    { apply list_elem_of_omap. exists (cat, n, m). split; [done|].
      unfold candidate. simpl. rewrite Hv. simpl. by rewrite validated_custom. }
    split.
    + rewrite <- Hself1. simpl. by apply (candidate_keys_seen cs _ (cat, v, n)).
    + intros Hnew.
      destruct (first_occurrence _ _ Hc) as (pre & c & post & Hcs & Hk & Hpre).
      assert (Hc' : c ∈ fresh (seen_values self) cs).
      { rewrite Hcs.
        destruct (fresh_first (seen_values self) pre post c) as (b & a & -> & _).
        - by rewrite Hk.
        - intros x Hx. rewrite Hk. by apply Hpre.
        - apply elem_of_app. right. apply elem_of_cons. by left. }
      exists (to_finding url mi c). split.
      * rewrite <- Hnew1. apply list_elem_of_fmap. eauto.
      * by rewrite key_of_to_finding.
Qed.

(** What a call that returns did with a match it visited: the match has a
    value, and when the value passes the check of its category its key is
    in the seen-set afterwards, with a finding of that key among those
    returned unless the key was in the seen-set before. *)
Lemma visited_match_recorded (ext : Extender) (mi : MessageInfo) (body : string)
      (self1 : Extender) (new1 : list Finding) (cat n : string) (m : Match) :
  getResponse mi = Some body → 50 <= len body →
  analyze_response mi ext = (self1, Some new1) →
  (cat, n, m) ∈ scan_items (pattern_manager ext) body →
  ∃ v, match_value m = Some v
       ∧ ∀ v', validated cat v = Some v' →
               finding_key cat v' ∈ seen_values self1
               ∧ (finding_key cat v' ∉ seen_values ext →
                  ∃ f, f ∈ new1 ∧ f ∈ all_findings self1
                       ∧ key_of f = finding_key cat v').
Proof.
  intros Hb Hlen Hrun Hit. rewrite (analyze_long mi body) in Hrun by done.
  pose proof (run_returns _ _ _ _ _ _ _ Hrun) as Hok.
  rewrite run_items in Hrun by done. injection Hrun as Hself1 Hnew1.
  set (url := default "Unknown" (getUrl mi)) in *.
  set (cs := candidates (scan_items (pattern_manager ext) body)) in *.
  pose proof Hok as Hall. unfold values_ok in Hall. rewrite Forall_forall in Hall.
  destruct (Hall _ Hit) as [v Hv]. cbn [snd] in Hv.
  exists v. split; [done|]. intros v' Hv'.
  assert (Hc : (cat, v', n) ∈ cs).
  { apply list_elem_of_omap. exists (cat, n, m). split; [done|].
    unfold candidate. cbn [fst snd]. rewrite Hv. cbn. by rewrite Hv'. }
  split.
  - rewrite <- Hself1. cbn [seen_values].
    by apply (candidate_keys_seen cs (seen_values ext) (cat, v', n)).
  - intros Hnew.
    destruct (first_occurrence cs (cat, v', n) Hc) as (pre & c & post & Hcs & Hk & Hpre).
    destruct (fresh_first (seen_values ext) pre post c) as (before & after & Hf & _).
    { by rewrite Hk. }
    { intros x Hx. rewrite Hk. by apply Hpre. }
    assert (Hin : c ∈ fresh (seen_values ext) cs).
    { rewrite Hcs, Hf. apply elem_of_app. right. apply elem_of_cons. by left. }
    exists (to_finding url mi c). split; [|split].
    + rewrite <- Hnew1. cbn [app]. apply list_elem_of_fmap. eauto.
    + rewrite <- Hself1. cbn [all_findings]. apply elem_of_app. right.
      apply list_elem_of_fmap. eauto.
    + by rewrite key_of_to_finding, Hk.
Qed.

(** C6, as the code has it.  An invalid pattern is refused with the text of
    the error and the registry, with its configuration and its file, stays
    as it was.  A valid pattern is appended to the custom list of its
    category and the file is written when it can be.  For [endpoints],
    [urls], [secrets] and every key that is not built-in the category is
    listed and the compiled pattern is among those of the category, so the
    next analysis of a body of 50 characters or more visits every match of
    it: the call returns when every visited match has a value, and a call
    that returns has recorded the value of each match of the new pattern
    that passes the check of the category, with a finding of its key among
    those returned unless the key was seen before. *)
Theorem add_pattern_lifecycle (self : PatternManager) (cat rx nm : string) :
  (∀ msg, re_error rx = Some msg →
     add_custom_pattern self cat rx nm
     = (self, (false, Some ("Invalid regex: " +:+ msg))))
  ∧ (re_error rx = None →
     let r := add_custom_pattern self cat rx nm in
     r.2 = (true, None)
     ∧ get_custom_patterns_list r.1 cat
       = get_custom_patterns_list self cat ++ [{| regex := rx; name := nm |}]
     ∧ (writable (storage self) = true → file (storage r.1) = Some (config r.1))
     ∧ (cat ≠ "emails" → cat ≠ "files" →
        cat ∈ get_all_categories r.1
        ∧ ∃ p, re_pattern p = rx
               ∧ (p, nm) ∈ get_patterns_for_category r.1 cat
               ∧ (∀ body m, m ∈ finditer p body → (cat, nm, m) ∈ scan_items r.1 body)
               ∧ ∀ (ext : Extender) (mi : MessageInfo) (body : string),
                   pattern_manager ext = r.1 →
                   getResponse mi = Some body → 50 <= len body →
                   (values_ok (scan_items r.1 body) →
                    ∃ self1 new1, analyze_response mi ext = (self1, Some new1))
                   ∧ ∀ self1 new1 m,
                       analyze_response mi ext = (self1, Some new1) →
                       m ∈ finditer p body →
                       ∃ v, match_value m = Some v
                            ∧ ∀ v', validated cat v = Some v' →
                                    finding_key cat v' ∈ seen_values self1
                                    ∧ (finding_key cat v' ∉ seen_values ext →
                                       ∃ f, f ∈ new1 ∧ f ∈ all_findings self1
                                            ∧ key_of f = finding_key cat v'))).
Proof.
  destruct (add_pattern_registry self cat rx nm) as [Hbad Hgood].
  split; [exact Hbad|]. intros Hv r.
  destruct (Hgood Hv) as (Hok & Hlist & Hfile & Huse). fold r in Hok, Hlist, Hfile, Huse.
  split; [done|]. split; [done|]. split; [done|].
  intros H4 H5. destruct (Huse H4 H5) as (Hcat & p & Hp & Hin & Hvisit).
  split; [done|]. exists p. split; [done|]. split; [done|]. split; [done|].
  intros ext mi body Hpm Hb Hlen. split.
  - intros Hvals. rewrite (analyze_long mi body) by done. rewrite Hpm.
    rewrite run_items by done. eauto.
  - intros self1 new1 m Hrun Hm.
    apply (visited_match_recorded ext mi body self1 new1 cat nm m); try done.
    rewrite Hpm. by apply Hvisit.
Qed.

End LedgerClaims.

(** ** The properties at concrete registries and documents *)

Section Instances.
Import PyStr Examples Scenarios.

(** A document that holds one token, analysed twice: the first call
    returns one finding, the second none. *)
Lemma analyze_twice_witness :
  let mi := exchange "https://app.test/main.js" (script "abc123") in
  let first := analyze_response (H := rt) mi (ledger with_tokens) in
  length (default [] first.2) = 1
  ∧ analyze_response (H := rt) mi first.1 = (first.1, Some []).
Proof.
  intros mi first. split; [by vm_compute|].
  refine (proj1 (proj2 (analyze_twice (H := rt) (ledger with_tokens) mi)
                   first.1 (default [] first.2) _)).
  by vm_compute.
Defined.

(** C1 at the pattern [(abc123)|(xyz789)] and a document that holds both
    words: the first call records the first word and is left at the second
    through the exception; the second call is left the same way and
    records nothing. *)
Lemma analyze_twice_raises_witness :
  let self := ledger with_alternatives in
  let self1 := (analyze_response (H := GroupRe.runtime) both_words self).1 in
  analyze_response (H := GroupRe.runtime) both_words self = (self1, None)
  ∧ analyze_response (H := GroupRe.runtime) both_words self1 = (self1, None)
  ∧ value <$> all_findings self1 = ["abc123"].
Proof.
  cbv zeta.
  destruct (analyze_twice_raises (H := GroupRe.runtime) (ledger with_alternatives)
              both_words (script "abc123 xyz789")) as (self1 & H1 & H2 & _).
  - reflexivity.
  - vm_compute. lia.
  - intros Hok.
    assert (Hbad : ("tokens", "Token",
                    {| group0 := "xyz789"; lastindex := Some 2; group1 := None |})
                   ∈ scan_items (H := GroupRe.runtime) with_alternatives
                       (script "abc123 xyz789")).
    { vm_compute. set_solver. }
    unfold values_ok in Hok. rewrite Forall_forall in Hok.
    apply Hok in Hbad. by destruct Hbad.
  - rewrite H1. cbn [fst]. split; [done|]. split; [exact H2|].
    apply (f_equal fst) in H1. cbn [fst] in H1. rewrite <- H1. reflexivity.
Defined.

(** C2 at two documents that hold the same key of 33 characters. *)
Lemma same_secret_two_documents_witness :
  let mi1 := exchange "https://app.test/main.js" (script live_key) in
  let mi2 := exchange "https://app.test/vendor.js" (script live_key) in
  let first := analyze_response (H := rt) mi1 (ledger with_live_key) in
  let second := analyze_response (H := rt) mi2 first.1 in
  ∃ f, recorded second.1 "secrets" "live_key_A...UVWX" = [f]
       ∧ source f = "https://app.test/main.js"
       ∧ pattern f = "Live Key"
       ∧ key_of f = "secrets:live_key_A...UVWX".
Proof.
  intros mi1 mi2 first second.
  assert (Hin : secret_in (H := rt) with_live_key (script live_key) live_key).
  { exists {| re_pattern := live_key; re_ignorecase := false |}, "Live Key",
           {| group0 := live_key; lastindex := None; group1 := None |}.
    split; [|split; [|split]]; try by vm_compute.
    - apply list_elem_of_In. vm_compute. repeat (first [left; reflexivity | right]).
    - apply list_elem_of_In. vm_compute. by left. }
  assert (Hledger : ledger_ok (ledger with_live_key)).
  { intros f Hf. by apply elem_of_nil in Hf. }
  assert (Hlen : 50 <= len (script live_key)) by (vm_compute; lia).
  assert (Hurl : "https://app.test/main.js" ≠ "https://app.test/vendor.js").
  { apply String.eqb_neq. by vm_compute. }
  assert (Hnew : finding_key "secrets" (_mask_secret live_key)
                 ∉ seen_values (ledger with_live_key)).
  { apply not_elem_of_empty. }
  assert (Hrun1 : analyze_response (H := rt) mi1 (ledger with_live_key)
                  = (first.1, Some (default [] first.2))) by by vm_compute.
  assert (Hrun2 : analyze_response (H := rt) mi2 first.1
                  = (second.1, Some (default [] second.2))) by by vm_compute.
  destruct (same_secret_two_documents (H := rt)
              (ledger with_live_key) first.1 second.1 mi1 mi2
              (script live_key) (script live_key)
              "https://app.test/main.js" "https://app.test/vendor.js" live_key
              (default [] first.2) (default [] second.2)
              Hledger eq_refl eq_refl Hlen eq_refl eq_refl Hlen Hurl Hin Hin
              Hnew Hrun1 Hrun2)
    as (f & Hrec & _ & _ & _ & Hsrc & _ & Hkey & _ & _ & pre & post & Hcs & _).
  exists f. split; [exact Hrec|]. split; [exact Hsrc|]. split; [|exact Hkey].
  assert (Hp : pattern <$> recorded second.1 "secrets" (_mask_secret live_key)
               = ["Live Key"]) by by vm_compute.
  rewrite Hrec in Hp. by injection Hp.
Defined.

(** C2, as the specification states it: two documents of 37 characters
    hold the same secret, and neither analysis records anything, because a
    body of fewer than 50 characters is not scanned. *)
Lemma short_documents_not_scanned :
  let body := "key=" +:+ live_key in
  let mi1 := exchange "https://app.test/a.json" body in
  let mi2 := exchange "https://app.test/b.json" body in
  let first := analyze_response (H := rt) mi1 (ledger with_live_key) in
  let second := analyze_response (H := rt) mi2 first.1 in
  len body = 37
  ∧ secret_in (H := rt) with_live_key body live_key
  ∧ first.2 = Some [] ∧ second.2 = Some []
  ∧ recorded second.1 "secrets" (_mask_secret live_key) = [].
Proof.
  split; [reflexivity|]. split; [|by vm_compute].
  exists {| re_pattern := live_key; re_ignorecase := false |}, "Live Key",
         {| group0 := live_key; lastindex := None; group1 := None |}.
  split; [|split; [|split]]; try by vm_compute.
  - apply list_elem_of_In. vm_compute. repeat (first [left; reflexivity | right]).
  - apply list_elem_of_In. vm_compute. by left.
Qed.

(** C3 at two values: one of 24 characters is masked, one of 15 is kept. *)
Lemma mask_secret_witness :
  (∃ a mid c, "AKIA1234567890ABCDEFGHIJ" = a +:+ mid +:+ c ∧ len a = 10 ∧ len c = 4
              ∧ _mask_secret "AKIA1234567890ABCDEFGHIJ" = a +:+ "..." +:+ c)
  ∧ _mask_secret "ABCDEFGHIJ12345" = "ABCDEFGHIJ12345".
Proof.
  split.
  - apply (proj1 (mask_secret_first10_last4 "AKIA1234567890ABCDEFGHIJ")).
    vm_compute. lia.
  - by apply (proj1 (proj2 (proj2 (mask_secret_first10_last4 "ABCDEFGHIJ12345")))).
Defined.

(** C4 at a custom category: a value that the secret validator would refuse
    is taken as it is. *)
Lemma validation_by_category_witness :
  validated "tokens" "test" = Some "test"
  ∧ _is_valid_secret "test" = false.
Proof.
  split; [|reflexivity].
  apply (proj1 (validation_by_category (H := rt) (ledger registry0)
                  (exchange "https://app.test/main.js" (script "test"))
                  (script "test"))).
  apply not_builtin. repeat split; discriminate.
Defined.

(** C4, as the specification states it: a pattern that a user added to
    [secrets] matches the document, and its value is refused by the secret
    validator because it holds the word test; the call records nothing. *)
Lemma custom_secret_pattern_is_validated :
  let p := {| re_pattern := "sk_test_0123456789"; re_ignorecase := false |} in
  let body := script "sk_test_0123456789" in
  get_patterns_for_category with_test_key "secrets" = compiled_secrets ++ [(p, "Test Key")]
  ∧ match_value <$> finditer (PyRuntime := rt) p body = [Some "sk_test_0123456789"]
  ∧ _is_valid_secret "sk_test_0123456789" = false
  ∧ analyze_response (H := rt) (exchange "https://app.test/main.js" body)
                     (ledger with_test_key)
    = (ledger with_test_key, Some []).
Proof. repeat split. Qed.

(** C5 at a path that is accepted and at a value without the leading
    separator. *)
Lemma endpoint_rejected_witness :
  _is_valid_endpoint "/api/v2/users" = true ∧ _is_valid_endpoint "api/v2/users" = false.
Proof.
  destruct (endpoint_rejected_iff "api/v2/users") as (_ & Hs & Hok & _).
  split; [exact Hok|]. by apply Hs.
Defined.

(** C6 at the two patterns of the specification, and at a script that
    holds the token of the pattern added to [tokens]. *)
Lemma add_pattern_lifecycle_witness :
  add_custom_pattern (H := rt) registry0 "secrets" "notvalid(" "x"
  = (registry0, (false, Some "Invalid regex: unbalanced parenthesis"))
  ∧ (add_custom_pattern (H := rt) registry0 "secrets" "sk_test_0123456789" "Test Key").2
    = (true, None)
  ∧ get_custom_patterns_list with_test_key "secrets"
    = [{| regex := "sk_test_0123456789"; name := "Test Key" |}]
  ∧ ∃ self1 f,
      analyze_response (H := rt) first_script (ledger with_tokens) = (self1, Some [f])
      ∧ category f = "tokens" ∧ value f = "abc123" ∧ pattern f = "Token"
      ∧ finding_key "tokens" "abc123" ∈ seen_values self1.
Proof.
  split; [|split; [|split]].
  - by apply (proj1 (add_pattern_lifecycle (H := rt) registry0 "secrets" "notvalid(" "x")).
  - by apply (proj2 (add_pattern_lifecycle (H := rt) registry0 "secrets"
                       "sk_test_0123456789" "Test Key")).
  - reflexivity.
  - eexists _, _. split; [reflexivity|]. split; [done|]. split; [done|]. split; [done|].
    by vm_compute.
Defined.

(** C6, as the specification states it, at three valid patterns that the
    following analysis does not use.  One added under [emails] is stored in
    the configuration, and the patterns of [emails] stay the single
    built-in one.  One added under [tokens] matches a body of 21
    characters, which is not scanned.  One added behind the pattern
    [(abc123)|(xyz789)] matches a script, but the call is left through the
    exception at the word xyz789 before it visits the match. *)
Lemma added_pattern_not_used :
  let r := add_custom_pattern (H := rt) registry0 "emails" "abc123" "Mine" in
  let body := script "abc123" in
  (r.2 = (true, None)
   ∧ get_custom_patterns_list r.1 "emails" = [{| regex := "abc123"; name := "Mine" |}]
   ∧ get_patterns_for_category r.1 "emails" = [(compiled_email, "Email")]
   ∧ length (finditer (PyRuntime := rt)
               {| re_pattern := "abc123"; re_ignorecase := true |} body) = 1
   ∧ analyze_response (H := rt) (exchange "https://app.test/main.js" body) (ledger r.1)
     = (ledger r.1, Some []))
  ∧ ((add_custom_pattern (H := rt) registry0 "tokens" "abc123" "Token").2 = (true, None)
     ∧ len "var token = 'abc123';" = 21
     ∧ length (finditer (PyRuntime := rt)
                 {| re_pattern := "abc123"; re_ignorecase := true |}
                 "var token = 'abc123';") = 1
     ∧ analyze_response (H := rt)
         (exchange "https://app.test/main.js" "var token = 'abc123';")
         (ledger with_tokens)
       = (ledger with_tokens, Some []))
  ∧ ((add_custom_pattern (H := GroupRe.runtime) with_alternatives "tokens" "hello" "Hello").2
     = (true, None)
     ∧ length (finditer (PyRuntime := GroupRe.runtime)
                 {| re_pattern := "hello"; re_ignorecase := true |}
                 (script "xyz789 hello")) = 1
     ∧ analyze_response (H := GroupRe.runtime)
         (exchange "https://app.test/main.js" (script "xyz789 hello"))
         (ledger with_hello)
       = (ledger with_hello, None)).
Proof. cbv zeta. repeat split; by vm_compute. Qed.

(** C8 at a list of one entry: position 0 is removed, position 1 is not
    found. *)
Lemma remove_pattern_witness :
  (remove_custom_pattern (H := rt) with_live_key "secrets" 0).2 = (true, None)
  ∧ get_custom_patterns_list
      (remove_custom_pattern (H := rt) with_live_key "secrets" 0).1 "secrets" = []
  ∧ (remove_custom_pattern (H := rt) with_live_key "secrets" 1).2
    = (false, Some "Pattern not found: list assignment index out of range").
Proof.
  destruct (remove_pattern_by_position (H := rt) with_live_key "secrets" 0)
    as [H0 _].
  destruct H0 as [Hin _].
  { left. set_solver. }
  destruct Hin as [Hok Hl]; [by vm_compute|].
  split; [exact Hok|]. split; [|reflexivity].
  rewrite Hl. reflexivity.
Defined.

(** C8, as the specification states it: the index -1 is no position
    counted from 0, and the call removes the last entry; and for a category
    that has no custom list the call reports success whatever the index. *)
Lemma remove_negative_index_succeeds :
  get_custom_patterns_list with_live_key "secrets"
  = [{| regex := live_key; name := "Live Key" |}]
  ∧ (remove_custom_pattern (H := rt) with_live_key "secrets" (-1)).2 = (true, None)
  ∧ get_custom_patterns_list
      (remove_custom_pattern (H := rt) with_live_key "secrets" (-1)).1 "secrets" = []
  ∧ (remove_custom_pattern (H := rt) registry0 "nosuch" 7).2 = (true, None).
Proof. repeat split. Qed.

(** C9, as the specification states it.  Right after a successful
    [add_custom_category] the new key is not in the list.  And when [beta]
    is created before [alpha] and each is given a pattern, [alpha] comes
    before [beta] in the list: a dictionary that was given the key [beta]
    and then the key [alpha] yields [alpha] first, on CPython 2.7 and on
    Jython 2.7 alike. *)
Lemma new_category_not_listed :
  let r := add_custom_category (H := rt) registry0 "foo" "Foo" in
  (r.2 = (true, None)
   ∧ get_all_categories r.1 = ["endpoints"; "urls"; "secrets"; "emails"; "files"]
   ∧ custom_categories (config r.1) !! "foo"
     = Some {| display_name := "Foo"; patterns := [] |})
  ∧ ((add_custom_category (H := rt) registry0 "beta" "Beta").2 = (true, None)
     ∧ (add_custom_category (H := rt) beta_created "alpha" "Alpha").2 = (true, None)
     ∧ (map_to_list (custom_categories_compiled beta_then_alpha)).*1 = ["alpha"; "beta"]
     ∧ Py27.dict_keys ["beta"; "alpha"] = Some ["alpha"; "beta"]
     ∧ Jython.dict_keys 16 ["beta"; "alpha"] = ["alpha"; "beta"]
     ∧ Jython.dict_keys 32 ["beta"; "alpha"] = ["alpha"; "beta"]
     ∧ categories_from ["alpha"; "beta"]
       = ["endpoints"; "urls"; "secrets"; "emails"; "files"; "alpha"; "beta"]
     ∧ get_all_categories beta_then_alpha
       = ["endpoints"; "urls"; "secrets"; "emails"; "files"; "alpha"; "beta"]).
Proof. cbv zeta. repeat split; by vm_compute. Qed.

End Instances.

(** ** More facts about the string operations *)

Section TextFacts.
Import PyStr.

(** Two concatenations with heads of the same length agree part by part. *)
Lemma app_inj_len (a a' b b' : string) :
  len a = len a' → a +:+ b = a' +:+ b' → a = a' ∧ b = b'.
Proof.
  revert a'. induction a as [|c a IH]; intros [|c' a'] Hlen Heq; try done.
  rewrite !app_cons in Heq. injection Heq as -> Heq.
  destruct (IH a') as [-> ->]; [|done..]. unfold len in *. simpl in Hlen. lia.
Qed.

Lemma lower_char_idem (c : ascii) : lower_char (lower_char c) = lower_char c.
Proof. by destruct c as [[] [] [] [] [] [] [] []]. Qed.

(** A character that is no letter is its own and only lowering. *)
Lemma lower_char_eqb (a c : ascii) :
  is_upper a || is_lower a = false →
  Ascii.eqb (lower_char c) a = Ascii.eqb c a.
Proof.
  intros Ha. destruct (is_upper c) eqn:Hc.
  - assert (Hl : is_lower (lower_char c) = true).
    { revert Hc. by destruct c as [[] [] [] [] [] [] [] []]. }
    destruct (Ascii.eqb_spec (lower_char c) a) as [<-|_].
    { rewrite Hl, orb_true_r in Ha. done. }
    destruct (Ascii.eqb_spec c a) as [<-|_]; [|done].
    by rewrite Hc in Ha.
  - unfold lower_char. by rewrite Hc.
Qed.

Lemma eqb_lower_char (a c : ascii) :
  is_upper a || is_lower a = false →
  Ascii.eqb a (lower_char c) = Ascii.eqb a c.
Proof.
  intros Ha. rewrite (Ascii.eqb_sym a (lower_char c)), (Ascii.eqb_sym a c).
  by apply lower_char_eqb.
Qed.

Lemma lower_idem (s : string) : lower (lower s) = lower s.
Proof. induction s as [|c s IH]; [done|]. simpl. by rewrite lower_char_idem, IH. Qed.

Lemma len_lower (s : string) : len (lower s) = len s.
Proof. induction s as [|c s IH]; [done|]. unfold len in *. simpl. by rewrite IH. Qed.

Lemma lower_app (s t : string) : lower (s +:+ t) = lower s +:+ lower t.
Proof. induction s as [|c s IH]; [done|]. rewrite app_cons. simpl. by rewrite IH. Qed.

Lemma falsy_lower (s : string) : falsy (Some (lower s)) = falsy (Some s).
Proof. by destruct s. Qed.

Lemma startswith_app (p s : string) : startswith p (p +:+ s) = true.
Proof.
  induction p as [|c p IH]; [done|]. rewrite app_cons. simpl.
  by rewrite Ascii.eqb_refl.
Qed.

(** A text holds each of its parts. *)
Lemma contains_app (sub a b : string) : contains sub (a +:+ sub +:+ b) = true.
Proof.
  induction a as [|c a IH].
  - rewrite app_nil_l. destruct (sub +:+ b) eqn:Hs; simpl; rewrite <- Hs;
      by rewrite startswith_app.
  - rewrite app_cons. simpl. rewrite IH. apply orb_true_r.
Qed.

Lemma contains_char_lower (a : ascii) (s : string) :
  is_upper a || is_lower a = false →
  contains (String a EmptyString) (lower s) = contains (String a EmptyString) s.
Proof.
  intros Ha. induction s as [|c s IH]; [done|]. simpl.
  by rewrite eqb_lower_char, IH.
Qed.

Lemma split_lower (a : ascii) (s : string) :
  is_upper a || is_lower a = false →
  split a (lower s) = lower <$> split a s.
Proof.
  intros Ha. induction s as [|c s IH]; [done|]. simpl.
  rewrite lower_char_eqb by done. rewrite IH.
  destruct (Ascii.eqb c a); [done|]. pose proof (split_nonempty a s).
  by destruct (split a s).
Qed.

Lemma last_part_lower (l : list string) :
  last_part (lower <$> l) = lower (last_part l).
Proof.
  unfold last_part. induction l as [|x l IH]; [done|].
  destruct l as [|y l]; [done|]. apply IH.
Qed.

End TextFacts.

(** ** The validators and the mask, beyond the claims *)

Section ValidatorCase.
Import PyStr.

Lemma mask_len (v : string) : 20 < len v → len (_mask_secret v) = 17.
Proof.
  intros Hv. rewrite mask_long by done.
  rewrite !len_app, len_take, len_drop. change (len "...") with 3. lia.
Qed.

Lemma valid_secret_len (v : string) : _is_valid_secret v = true → 10 <= len v.
Proof.
  unfold _is_valid_secret. destruct (Nat.ltb_spec (len v) 10); [|done].
  by rewrite orb_true_r.
Qed.

Lemma masked_secret_len (v : string) :
  _is_valid_secret v = true → 10 <= len (_mask_secret v) <= 20.
Proof.
  intros Hlen%valid_secret_len. destruct (decide (20 < len v)) as [Hv|Hv].
  - rewrite mask_len by done. lia.
  - unfold _mask_secret. destruct (Nat.ltb_spec 20 (len v)); [lia|]. lia.
Qed.

(** X5.  Two values of more than 20 characters have the same mask exactly
    when they agree on [value[:10]] and on [value[-4:]]; the mask has 17
    characters.  The key of a finding is made of the mask, so once one of
    two such secrets is on record [_add_finding] refuses the other. *)
Theorem mask_collision (v1 v2 : string) :
  20 < len v1 → 20 < len v2 →
  len (_mask_secret v1) = 17
  ∧ (_mask_secret v1 = _mask_secret v2
     ↔ slice None (Some 10%Z) v1 = slice None (Some 10%Z) v2
       ∧ slice (Some (-4)%Z) None v1 = slice (Some (-4)%Z) None v2)
  ∧ (_mask_secret v1 = _mask_secret v2 →
     ∀ self s1 s2 n1 n2 mi1 mi2,
       (_add_finding (_add_finding self "secrets" (_mask_secret v1) s1 n1 mi1).1
                     "secrets" (_mask_secret v2) s2 n2 mi2).2 = None).
Proof.
  intros H1 H2. split; [by apply mask_len|]. split.
  - unfold _mask_secret.
    destruct (Nat.ltb_spec 20 (len v1)); [|lia].
    destruct (Nat.ltb_spec 20 (len v2)); [|lia].
    split.
    + intros Heq. apply app_inj_len in Heq as [Ha Hb].
      * split; [done|]. by apply (app_inj_len "..." "...") in Hb as [_ Hb].
      * change 10%Z with (Z.of_nat 10). rewrite !slice_first, !len_take by lia. lia.
    + by intros [-> ->].
  - intros Heq self s1 s2 n1 n2 mi1 mi2. rewrite <- Heq. unfold _add_finding.
    destruct (decide (finding_key "secrets" (_mask_secret v1) ∈ seen_values self))
      as [Hin|Hout]; cbn [fst].
    + by rewrite decide_True.
    + cbn [seen_values]. rewrite decide_True; [done|]. set_solver.
Qed.

(** X6.  The validators of [urls], [secrets], [emails] and [files] do not
    tell a value from its lower-case form: each of them accepts both or
    rejects both. *)
Theorem validators_ignore_case (v : string) :
  _is_valid_url (lower v) = _is_valid_url v
  ∧ _is_valid_secret (lower v) = _is_valid_secret v
  ∧ _is_valid_email (lower v) = _is_valid_email v
  ∧ _is_valid_file (lower v) = _is_valid_file v.
Proof.
  split; [|split; [|split]].
  - unfold _is_valid_url, is_noise_domain. cbn [default from_option id].
    by rewrite !falsy_lower, len_lower, lower_idem, (contains_char_lower "{").
  - unfold _is_valid_secret. by rewrite falsy_lower, len_lower, lower_idem.
  - unfold _is_valid_email.
    rewrite falsy_lower, (contains_char_lower "@") by done.
    by rewrite (split_lower "@"), last_part_lower, !lower_idem.
  - unfold _is_valid_file.
    rewrite falsy_lower, len_lower, lower_idem.
    by rewrite (split_lower "/"), last_part_lower, len_lower.
Qed.

(** X7.  A noise domain that stands anywhere in a text, in any mix of upper
    and lower case, makes [is_noise_domain] answer [True], and the validator
    of [urls] rejects the text: the domain is looked for in the whole URL,
    not in its host part. *)
Theorem noise_domain_anywhere (a u b : string) :
  lower u ∈ Builtin.noise_domains →
  is_noise_domain (Some (a +:+ u +:+ b)) = true
  ∧ _is_valid_url (a +:+ u +:+ b) = false.
Proof.
  intros Hu.
  assert (Hn : is_noise_domain (Some (a +:+ u +:+ b)) = true).
  { unfold is_noise_domain. destruct (falsy (Some (a +:+ u +:+ b))); [done|].
    cbn [default from_option id]. apply existsb_exists. exists (lower u).
    split; [by apply list_elem_of_In|]. rewrite !lower_app. apply contains_app. }
  split; [done|]. unfold _is_valid_url. rewrite Hn.
  by destruct (falsy (Some (a +:+ u +:+ b)) || (len (a +:+ u +:+ b) <? 15)).
Qed.

End ValidatorCase.

(** ** The ledger in every state, also after an exception *)

Section LedgerInvariants.
Context `{PyRuntime}.
Import PyStr.

(** What one match does to the ledger: nothing, or one finding whose key
    is new is appended to the record and to the list of the call. *)
Lemma on_match_step (cat url n : string) (mi : MessageInfo) (m : Match)
      (new : list Finding) (self : Extender) :
  ((on_match cat url n mi m new self).1 = self
   ∧ ∀ new', (on_match cat url n mi m new self).2 = Some new' → new' = new)
  ∨ ∃ v f,
      match_value m = Some v
      ∧ validated cat v = Some (value f)
      ∧ category f = cat
      ∧ (key_of f ∉ seen_values self)
      ∧ on_match cat url n mi m new self
        = ({| pattern_manager := pattern_manager self;
              all_findings := all_findings self ++ [f];
              seen_values := {[ key_of f ]} ∪ seen_values self |},
           Some (new ++ [f])).
Proof.
  unfold on_match.
  destruct (match_value m) as [v|]; [|left; by split].
  destruct (validated cat v) as [v'|] eqn:Hv;
    [|left; split; [done|by intros new' [= <-]]].
  unfold _add_finding.
  destruct (decide (finding_key cat v' ∈ seen_values self)) as [Hin|Hout].
  - left. split; [done|]. by intros new' [= <-].
  - right. by exists v, {| category := cat; value := v'; source := url; pattern := n;
                           message_info := mi |}.
Qed.

Lemma extends_ledger_refl (self : Extender) : extends_ledger self self [].
Proof.
  split; [done|]. split; [by rewrite app_nil_r|]. split; [set_solver|].
  split; [constructor|]. intros f Hf. by apply elem_of_nil in Hf.
Qed.

Lemma extends_ledger_trans (s s1 s2 : Extender) (add1 add2 : list Finding) :
  extends_ledger s s1 add1 → extends_ledger s1 s2 add2 →
  extends_ledger s s2 (add1 ++ add2).
Proof.
  intros (Hpm1 & Hall1 & Hseen1 & Hnd1 & Hnew1) (Hpm2 & Hall2 & Hseen2 & Hnd2 & Hnew2).
  split; [congruence|]. split; [by rewrite Hall2, Hall1, app_assoc|].
  split; [rewrite Hseen2, Hseen1, fmap_app, list_to_set_app_L; set_solver|].
  split.
  - rewrite fmap_app. apply NoDup_app. split; [done|]. split; [|done].
    intros k Hk1 Hk2. apply list_elem_of_fmap in Hk2 as [f [-> Hf]].
    apply (Hnew2 f Hf). rewrite Hseen1. apply elem_of_union. left.
    by apply elem_of_list_to_set.
  - intros f [Hf|Hf]%elem_of_app; [by apply Hnew1|].
    intros Hin. apply (Hnew2 f Hf). rewrite Hseen1. set_solver.
Qed.

Lemma extends_ledger_on_match (cat url n : string) (mi : MessageInfo) (m : Match)
      (new : list Finding) (self : Extender) :
  ∃ added,
    extends_ledger self (on_match cat url n mi m new self).1 added
    ∧ (∀ f, f ∈ added → category f = cat ∧ ∃ v, validated cat v = Some (value f))
    ∧ ∀ new', (on_match cat url n mi m new self).2 = Some new' → new' = new ++ added.
Proof.
  destruct (on_match_step cat url n mi m new self)
    as [[Hs Hn]|(v & f & Hv & Hval & Hcat & Hk & ->)].
  - exists []. rewrite Hs. split; [apply extends_ledger_refl|]. split.
    + intros f Hf. by apply elem_of_nil in Hf.
    + intros new' Hnew'. rewrite app_nil_r. by apply Hn.
  - exists [f]. split; [|split].
    + split; [done|]. split; [done|]. split; [cbn; set_solver|].
      split; [apply NoDup_singleton|].
      by intros f' ->%list_elem_of_singleton.
    + intros f' ->%list_elem_of_singleton. split; [done|]. by exists v.
    + cbn [snd]. congruence.
Qed.

(** A loop whose body appends to the ledger appends to it. *)
Lemma extends_ledger_for_each {A : Type} (Q : Finding → Prop) (l : list A)
      (body : A → list Finding → Eff (list Finding))
      (acc : list Finding) (self : Extender) :
  (∀ x a s, ∃ added, extends_ledger s (body x a s).1 added
                     ∧ (∀ f, f ∈ added → Q f)
                     ∧ ∀ a', (body x a s).2 = Some a' → a' = a ++ added) →
  ∃ added, extends_ledger self (for_each l body acc self).1 added
           ∧ (∀ f, f ∈ added → Q f)
           ∧ ∀ acc', (for_each l body acc self).2 = Some acc' → acc' = acc ++ added.
Proof.
  intros Hbody. revert acc self. induction l as [|x l IH]; intros acc self.
  { exists []. split; [apply extends_ledger_refl|]. split.
    - intros f Hf. by apply elem_of_nil in Hf.
    - cbn. intros acc' [= <-]. by rewrite app_nil_r. }
  cbn [for_each]. destruct (Hbody x acc self) as (add1 & Hext1 & HQ1 & Hacc1).
  destruct (body x acc self) as [s1 [a1|]].
  - destruct (IH a1 s1) as (add2 & Hext2 & HQ2 & Hacc2).
    exists (add1 ++ add2). split; [by eapply extends_ledger_trans|]. split.
    + intros f [Hf|Hf]%elem_of_app; [by apply HQ1|by apply HQ2].
    + intros acc' Hacc'. rewrite (Hacc2 acc' Hacc'), (Hacc1 a1 eq_refl).
      by rewrite app_assoc.
  - exists add1. split; [done|]. split; [done|]. by intros acc' [=].
Qed.

(** Every finding a call appends passed the check of its category. *)
Lemma extends_ledger_analyze (mi : MessageInfo) (self : Extender) :
  ∃ added,
    extends_ledger self (analyze_response mi self).1 added
    ∧ (∀ f, f ∈ added → ∃ v, validated (category f) v = Some (value f))
    ∧ ∀ new, (analyze_response mi self).2 = Some new → new = added.
Proof.
  assert (Hnone : ∃ added : list Finding,
             extends_ledger self self added
             ∧ (∀ f, f ∈ added → ∃ v, validated (category f) v = Some (value f))
             ∧ ∀ new, Some [] = Some new → new = added).
  { exists []. split; [apply extends_ledger_refl|]. split.
    - intros f Hf. by apply elem_of_nil in Hf.
    - by intros new [= <-]. }
  unfold analyze_response. destruct (getResponse mi) as [body|]; [|done].
  destruct (len body <? 50); [done|]. unfold scan.
  apply (extends_ledger_for_each
           (λ f, ∃ v, validated (category f) v = Some (value f))).
  intros cat a s. apply extends_ledger_for_each.
  intros pn a' s'. apply extends_ledger_for_each.
  intros m a'' s''.
  destruct (extends_ledger_on_match cat (default "Unknown" (getUrl mi)) pn.2 mi m a'' s'')
    as (added & Hext & HQ & Hacc).
  exists added. split; [done|]. split; [|done].
  intros f Hf. destruct (HQ f Hf) as [-> Hv]. done.
Qed.

Lemma ledger_exact_extends (self self' : Extender) (added : list Finding) :
  ledger_exact self → extends_ledger self self' added → ledger_exact self'.
Proof.
  intros [Hnd Hseen] (_ & Hall & Hseen' & Hnd' & Hnew). split.
  - rewrite Hall, fmap_app. apply NoDup_app. split; [done|]. split; [|done].
    intros k Hk1 Hk2. apply list_elem_of_fmap in Hk2 as [f [-> Hf]].
    apply (Hnew f Hf). rewrite Hseen. by apply elem_of_list_to_set.
  - rewrite Hseen', Hseen, Hall, fmap_app, list_to_set_app_L. set_solver.
Qed.

Lemma ledger_exact_empty (pm : PatternManager) :
  ledger_exact {| pattern_manager := pm; all_findings := []; seen_values := ∅ |}.
Proof. split; [constructor|done]. Qed.

(** X1.  When the seen-set holds exactly the keys of the findings on
    record and no two of them share a key, this is so again after
    [analyze_response], whether the call returns or is left through an
    exception. *)
Theorem ledger_keys_unique (mi : MessageInfo) (self : Extender) :
  ledger_exact self → ledger_exact (analyze_response mi self).1.
Proof.
  intros Hex. destruct (extends_ledger_analyze mi self) as (added & Hext & _).
  by eapply ledger_exact_extends.
Qed.

(** X2.  A call of [analyze_response] only appends: it leaves the registry
    as it is and the findings on record in place, the findings it appends
    have keys that were not in the seen-set and are pairwise distinct, and
    the seen-set gains exactly these keys.  This holds also for a call that
    an exception leaves; a call that returns hands back exactly the findings
    it appended. *)
Theorem analysis_only_appends (mi : MessageInfo) (self : Extender) :
  ∃ added,
    pattern_manager (analyze_response mi self).1 = pattern_manager self
    ∧ all_findings (analyze_response mi self).1 = all_findings self ++ added
    ∧ seen_values (analyze_response mi self).1
      = list_to_set (key_of <$> added) ∪ seen_values self
    ∧ NoDup (key_of <$> added)
    ∧ (∀ f, f ∈ added → key_of f ∉ seen_values self)
    ∧ ∀ new, (analyze_response mi self).2 = Some new → new = added.
Proof.
  destruct (extends_ledger_analyze mi self)
    as (added & (Hpm & Hall & Hseen & Hnd & Hnew) & _ & Hret).
  by exists added.
Qed.

(** X3.  [clear_results] forgets everything: the analysis of a document
    after a clear is the analysis on an empty ledger, whatever was analysed
    before.  A call that returns then hands back the first candidate of
    every key of the document, so a document analysed before the clear
    yields its findings again. *)
Theorem clear_then_analyze_again (mi : MessageInfo) (self : Extender) :
  let empty := clear_results self in
  (∀ mi0, clear_results (analyze_response mi0 self).1 = empty)
  ∧ ∀ body self1 new,
      getResponse mi = Some body → 50 <= len body →
      analyze_response mi empty = (self1, Some new) →
      new = to_finding (default "Unknown" (getUrl mi)) mi
            <$> fresh ∅ (candidates (scan_items (pattern_manager self) body))
      ∧ all_findings self1 = new
      ∧ ∀ c, c ∈ candidates (scan_items (pattern_manager self) body) →
             ∃ f, f ∈ new ∧ key_of f = candidate_key c.
Proof.
  intros empty. split.
  - intros mi0. destruct (extends_ledger_analyze mi0 self) as (added & (Hpm & _) & _).
    unfold empty, clear_results. by rewrite Hpm.
  - intros body self1 new Hb Hlen Hrun.
    rewrite (analyze_long mi body empty Hb Hlen) in Hrun.
    pose proof (run_returns _ _ _ _ _ _ _ Hrun) as Hok.
    rewrite (run_items _ _ _ _ _ Hok) in Hrun. cbn in Hrun.
    injection Hrun as <- <-. cbn. split; [done|]. split; [done|].
    intros c Hc.
    destruct (first_occurrence _ _ Hc) as (pre & c1 & post & Hcs & Hk & Hpre).
    destruct (fresh_first ∅ pre post c1) as (before & after & Hfr & _).
    { apply not_elem_of_empty. }
    { intros x Hx. rewrite Hk. by apply Hpre. }
    exists (to_finding (default "Unknown" (getUrl mi)) mi c1). split; [|done].
    apply list_elem_of_fmap. exists c1. split; [done|].
    rewrite Hcs, Hfr. apply elem_of_app. right. apply elem_of_cons. by left.
Qed.

(** X4.  When every secret on record has a value of 10 to 20 characters,
    this is so again after [analyze_response], also after a call that an
    exception leaves: a secret of more than 20 characters is only recorded
    masked. *)
Theorem secrets_stay_masked (mi : MessageInfo) (self : Extender) :
  secrets_masked self → secrets_masked (analyze_response mi self).1.
Proof.
  intros Hm. destruct (extends_ledger_analyze mi self)
    as (added & (_ & Hall & _) & Hval & _).
  intros f Hf Hcat. rewrite Hall in Hf. apply elem_of_app in Hf as [Hf|Hf].
  { by apply Hm. }
  destruct (Hval f Hf) as [v Hv]. rewrite Hcat in Hv. unfold validated in Hv.
  cbn in Hv. destruct (_is_valid_secret v) eqn:Hs; [|done].
  injection Hv as <-. by apply masked_secret_len.
Qed.

End LedgerInvariants.

(** ** The name of a source in the log *)

Section SourceName.
Import PyStr.

Lemma contains_char_app (c : ascii) (a b : string) :
  contains (String c EmptyString) (a +:+ b)
  = contains (String c EmptyString) a || contains (String c EmptyString) b.
Proof.
  induction a as [|x a IH].
  - rewrite app_nil_l. by destruct b.
  - rewrite app_cons. cbn [contains startswith]. rewrite IH.
    by destruct (Ascii.eqb c x).
Qed.

(** No part of a split holds the separator. *)
Lemma split_no_sep (sep : ascii) (s p : string) :
  p ∈ split sep s → contains (String sep EmptyString) p = false.
Proof.
  revert p. induction s as [|c s IH]; intros p Hp.
  { by apply list_elem_of_singleton in Hp as ->. }
  cbn [split] in Hp. destruct (Ascii.eqb_spec c sep) as [->|Hne].
  - apply elem_of_cons in Hp as [->|Hp]; [done|by apply IH].
  - pose proof (split_nonempty sep s). destruct (split sep s) as [|q qs]; [done|].
    apply elem_of_cons in Hp as [->|Hp].
    + cbn [contains startswith]. rewrite (IH q); [|apply elem_of_cons; by left].
      destruct (Ascii.eqb_spec sep c) as [->|]; [done|]. done.
    + apply IH, elem_of_cons. by right.
Qed.

Lemma last_part_elem_of (l : list string) : l ≠ [] → last_part l ∈ l.
Proof.
  unfold last_part. induction l as [|x l IH]; [done|]. intros _.
  destruct l as [|y l]; [apply elem_of_cons; by left|].
  apply elem_of_cons. right. by apply IH.
Qed.

(** The first part of a split is a prefix of the text. *)
Lemma hd_split_prefix (sep : ascii) (s : string) :
  ∃ t, s = hd EmptyString (split sep s) +:+ t.
Proof.
  induction s as [|c s [t IH]]; [by exists EmptyString|]. cbn [split].
  destruct (Ascii.eqb c sep); [by exists (String c s)|].
  pose proof (split_nonempty sep s). destruct (split sep s) as [|q qs]; [done|].
  exists t. cbn [hd] in *. by rewrite app_cons, <- IH.
Qed.

(** X8.  The name [analyze_response] writes to the log has at most 43
    characters and holds no slash. *)
Theorem source_name_short (url : string) :
  len (source_name url) <= 43 ∧ contains "/" (source_name url) = false.
Proof.
  unfold source_name.
  set (name := if contains "/" url
               then hd EmptyString (split "?" (last_part (split "/" url)))
               else url).
  assert (Hname : contains "/" name = false).
  { unfold name. destruct (contains "/" url) eqn:Hc; [|done].
    destruct (hd_split_prefix "?" (last_part (split "/" url))) as [t Ht].
    pose proof (split_no_sep "/" url _
                  (last_part_elem_of _ (split_nonempty "/" url))) as Hlast.
    rewrite Ht, contains_char_app in Hlast. by apply orb_false_iff in Hlast as [? _]. }
  destruct (Nat.ltb_spec 40 (len name)) as [Hlong|Hshort].
  - change 40%Z with (Z.of_nat 40). rewrite slice_first by lia. split.
    + rewrite len_app, len_take. change (len "...") with 3. lia.
    + rewrite contains_char_app. apply orb_false_iff. split; [|done].
      rewrite <- (take_drop 40 name), contains_char_app in Hname.
      by apply orb_false_iff in Hname as [? _].
  - split; [lia|done].
Qed.

End SourceName.

(** ** The registry: compiled state, persistence and what a change leaves alone *)

Section RegistryInvariants.
Context `{PyRuntime}.

Lemma compile_entries_valid_entries (icase : bool) (l : list PatternEntry) :
  compile_entries icase l = valid_entries icase l.
Proof.
  unfold compile_entries, valid_entries. induction l as [|e l IH]; [done|].
  cbn [omap list_omap]. rewrite filter_cons.
  destruct (re_error (regex e)) eqn:He.
  - by rewrite decide_False.
  - rewrite decide_True by done. cbn. by rewrite IH.
Qed.

Lemma synced_compile (pm : PatternManager) : synced (_compile_custom_patterns pm).
Proof. done. Qed.

Lemma synced_new (st : Storage) : synced (new_PatternManager st).
Proof. apply synced_compile. Qed.

Lemma synced_save_and_compile (pm : PatternManager) : synced (save_and_compile pm).
Proof. apply synced_compile. Qed.

Lemma synced_fields (pm : PatternManager) :
  synced pm →
  custom_compiled pm
  = {| cc_endpoints := compile_entries true (custom_endpoints (config pm));
       cc_urls := compile_entries false (custom_urls (config pm));
       cc_secrets := compile_entries false (custom_secrets (config pm)) |}
  ∧ custom_categories_compiled pm
    = omap compile_category (custom_categories (config pm)).
Proof. intros Hs. unfold synced in Hs. split; by rewrite <- Hs at 1. Qed.

(** The result of a mutating method: the object as it was, with a refusal,
    or a changed configuration saved and compiled. *)
Lemma add_custom_pattern_shape (self : PatternManager) (cat rx nm : string) :
  let r := add_custom_pattern self cat rx nm in
  (r.1 = self ∧ r.2.1 = false)
  ∨ ∃ c', r = (save_and_compile (with_config self c'), (true, None)).
Proof.
  unfold add_custom_pattern. destruct (re_error rx); [by left|]. right. by eexists.
Qed.

Lemma add_custom_category_shape (self : PatternManager) (key dn : string) :
  let r := add_custom_category self key dn in
  (r.1 = self ∧ r.2.1 = false)
  ∨ ∃ c', r = (save_and_compile (with_config self c'), (true, None)).
Proof.
  unfold add_custom_category. case_decide; [by left|]. right. by eexists.
Qed.

Lemma remove_custom_pattern_shape (self : PatternManager) (cat : string) (index : Z) :
  let r := remove_custom_pattern self cat index in
  (r.1 = self ∧ r.2.1 = false)
  ∨ ∃ c', r = (save_and_compile (with_config self c'), (true, None)).
Proof.
  unfold remove_custom_pattern, not_found.
  repeat case_decide;
    repeat match goal with
           | |- context [match ?x with Some _ => _ | None => _ end] => destruct x
           end;
    first [by left | right; by eexists].
Qed.

Lemma synced_update_settings (self : PatternManager) (s : Settings) :
  synced self → synced (update_settings self s).
Proof.
  intros [Hc Hm]%synced_fields. unfold synced, update_settings, save_config.
  destruct self as [c cc m st]. cbn in *. subst cc m.
  by destruct (writable st).
Qed.

(** X12.  The compiled patterns are those of the configuration in the
    registry a start builds, and they stay so under the four methods that
    change the configuration, whatever these answer. *)
Theorem registry_stays_synced (self : PatternManager) :
  (∀ st, synced (new_PatternManager st))
  ∧ (synced self →
     (∀ cat rx nm, synced (add_custom_pattern self cat rx nm).1)
     ∧ (∀ key dn, synced (add_custom_category self key dn).1)
     ∧ (∀ cat index, synced (remove_custom_pattern self cat index).1)
     ∧ (∀ s, synced (update_settings self s))).
Proof.
  split; [apply synced_new|]. intros Hs. split; [|split; [|split]].
  - intros cat rx nm.
    destruct (add_custom_pattern_shape self cat rx nm) as [[-> _]|[c' ->]];
      [done|apply synced_save_and_compile].
  - intros key dn.
    destruct (add_custom_category_shape self key dn) as [[-> _]|[c' ->]];
      [done|apply synced_save_and_compile].
  - intros cat index.
    destruct (remove_custom_pattern_shape self cat index) as [[-> _]|[c' ->]];
      [done|apply synced_save_and_compile].
  - intros s. by apply synced_update_settings.
Qed.

Lemma ignores_case_custom (cat : string) :
  cat ≠ "urls" → cat ≠ "secrets" → ignores_case cat = true.
Proof.
  intros H1 H2. unfold ignores_case. rewrite bool_decide_eq_false_2; [done|].
  rewrite !elem_of_cons. pose proof (not_elem_of_nil cat). tauto.
Qed.

Lemma patterns_of_synced (pm : PatternManager) (cat : string) :
  synced pm → cat ≠ "emails" → cat ≠ "files" →
  get_patterns_for_category pm cat
  = builtin_patterns cat
    ++ compile_entries (ignores_case cat) (get_custom_patterns_list pm cat).
Proof.
  intros [Hc Hm]%synced_fields He Hf.
  unfold get_patterns_for_category, builtin_patterns, get_custom_patterns_list.
  rewrite Hc, Hm. cbn [cc_endpoints cc_urls cc_secrets].
  repeat case_decide; subst; try done.
  rewrite ignores_case_custom by done. rewrite lookup_omap. cbn [app].
  destruct (custom_categories (config pm) !! cat) as [d|]; [|done].
  cbn. unfold compile_category.
  by destruct (compile_entries true (patterns d)).
Qed.

(** X13.  In a registry whose compiled patterns are those of the
    configuration, the patterns of a category other than [emails] and
    [files] are its built-in ones followed by the entries of its custom list
    that compile, in the order of the list; an entry that does not compile
    is left out and the others stay. *)
Theorem patterns_in_use (pm : PatternManager) (cat : string) :
  synced pm → cat ≠ "emails" → cat ≠ "files" →
  get_patterns_for_category pm cat
  = builtin_patterns cat
    ++ valid_entries (ignores_case cat) (get_custom_patterns_list pm cat).
Proof.
  intros Hs He Hf. rewrite patterns_of_synced by done.
  by rewrite compile_entries_valid_entries.
Qed.

Lemma restart_save_and_compile (pm : PatternManager) :
  writable (storage pm) = true →
  new_PatternManager (storage (save_and_compile pm)) = save_and_compile pm.
Proof.
  intros Hw. unfold new_PatternManager, save_and_compile, save_config, _load_config.
  by rewrite Hw.
Qed.

(** X14.  With a file that can be written, the registry a start builds from
    the file after a successful [add_custom_pattern], [add_custom_category]
    or [remove_custom_pattern] is the registry that call left: its
    configuration, its compiled patterns and its file. *)
Theorem restart_restores_registry (self : PatternManager) :
  writable (storage self) = true →
  (∀ cat rx nm,
     let r := add_custom_pattern self cat rx nm in
     r.2.1 = true → new_PatternManager (storage r.1) = r.1)
  ∧ (∀ key dn,
       let r := add_custom_category self key dn in
       r.2.1 = true → new_PatternManager (storage r.1) = r.1)
  ∧ (∀ cat index,
       let r := remove_custom_pattern self cat index in
       r.2.1 = true → new_PatternManager (storage r.1) = r.1).
Proof.
  intros Hw. split; [|split].
  - intros cat rx nm r Hr.
    destruct (add_custom_pattern_shape self cat rx nm) as [[_ Hf]|[c' Hc']].
    { fold r in Hf. congruence. }
    fold r in Hc'. rewrite Hc'. by apply restart_save_and_compile.
  - intros key dn r Hr.
    destruct (add_custom_category_shape self key dn) as [[_ Hf]|[c' Hc']].
    { fold r in Hf. congruence. }
    fold r in Hc'. rewrite Hc'. by apply restart_save_and_compile.
  - intros cat index r Hr.
    destruct (remove_custom_pattern_shape self cat index) as [[_ Hf]|[c' Hc']].
    { fold r in Hf. congruence. }
    fold r in Hc'. rewrite Hc'. by apply restart_save_and_compile.
Qed.

Lemma storage_unwritable (self : PatternManager) (c' : Config) :
  writable (storage self) = false →
  storage (save_and_compile (with_config self c')) = storage self.
Proof.
  intros Hw. unfold save_and_compile, save_config. cbn [with_config storage].
  by rewrite Hw.
Qed.

Lemma add_pattern_list (self : PatternManager) (cat rx nm : string) :
  re_error rx = None →
  get_custom_patterns_list (add_custom_pattern self cat rx nm).1 cat
  = get_custom_patterns_list self cat ++ [{| regex := rx; name := nm |}].
Proof.
  intros Hv.
  destruct (decide (cat = "endpoints")) as [->|H1];
    [|destruct (decide (cat = "urls")) as [->|H2];
      [|destruct (decide (cat = "secrets")) as [->|H3]]].
  1-3: unfold add_custom_pattern, get_custom_patterns_list; rewrite Hv; cbn [fst];
       by rewrite config_save_and_compile.
  destruct (add_pattern_custom_config self cat rx nm H1 H2 H3 Hv) as [dn Hdn].
  unfold get_custom_patterns_list at 1. rewrite !decide_False by done.
  by rewrite Hdn.
Qed.

Lemma add_pattern_list_other (self : PatternManager) (cat rx nm cat' : string) :
  cat' ≠ cat →
  get_custom_patterns_list (add_custom_pattern self cat rx nm).1 cat'
  = get_custom_patterns_list self cat'
  ∧ settings (config (add_custom_pattern self cat rx nm).1) = settings (config self).
Proof.
  intros Hne. unfold add_custom_pattern. destruct (re_error rx); [done|].
  cbn [fst]. unfold get_custom_patterns_list. rewrite config_save_and_compile.
  cbn [with_config config].
  repeat case_decide; subst; try done.
  cbn [set_custom_categories custom_categories settings].
  rewrite lookup_alter_ne by done.
  destruct (custom_categories (config self) !! cat); [done|].
  by rewrite lookup_insert_ne.
Qed.

Lemma remove_pattern_list_other (self : PatternManager) (cat cat' : string) (index : Z) :
  cat' ≠ cat →
  get_custom_patterns_list (remove_custom_pattern self cat index).1 cat'
  = get_custom_patterns_list self cat'
  ∧ settings (config (remove_custom_pattern self cat index).1) = settings (config self).
Proof.
  intros Hne. unfold remove_custom_pattern, not_found.
  destruct (decide (cat = "endpoints")) as [->|H1];
    [|destruct (decide (cat = "urls")) as [->|H2];
      [|destruct (decide (cat = "secrets")) as [->|H3]]].
  1-3: match goal with
       | |- context [del_index ?l ?i] => destruct (del_index l i); [|done]
       end;
       cbn [fst]; unfold get_custom_patterns_list; rewrite config_save_and_compile;
       cbn [with_config config]; split; [|done];
       repeat case_decide; subst; done.
  assert (Hgoal : ∀ m : gmap string CategoryData,
             m !! cat' = custom_categories (config self) !! cat' →
             get_custom_patterns_list
               (save_and_compile
                  (with_config self (set_custom_categories (config self) m))) cat'
             = get_custom_patterns_list self cat'
             ∧ settings (config (save_and_compile
                  (with_config self (set_custom_categories (config self) m))))
               = settings (config self)).
  { intros m Hm. unfold get_custom_patterns_list. rewrite config_save_and_compile.
    cbn [with_config config]. split; [|done].
    repeat case_decide; subst; try done.
    cbn [set_custom_categories custom_categories]. by rewrite Hm. }
  destruct (custom_categories (config self) !! cat) as [d|] eqn:Hd.
  - destruct (del_index (patterns d) index); [|done]. cbn [fst].
    apply Hgoal. by rewrite lookup_insert_ne.
  - cbn [fst]. unfold get_custom_patterns_list. rewrite config_save_and_compile.
    done.
Qed.

(** X15.  With a file that cannot be written, the four methods that change
    the configuration leave the file as it was and do not report it:
    [add_custom_pattern] with a pattern that compiles answers success and
    changes the configuration in memory, and a start from the file builds
    the registry without the change. *)
Theorem write_failure_is_silent (self : PatternManager) :
  writable (storage self) = false →
  (∀ cat rx nm, storage (add_custom_pattern self cat rx nm).1 = storage self)
  ∧ (∀ key dn, storage (add_custom_category self key dn).1 = storage self)
  ∧ (∀ cat index, storage (remove_custom_pattern self cat index).1 = storage self)
  ∧ (∀ s, storage (update_settings self s) = storage self)
  ∧ ∀ cat rx nm,
      re_error rx = None →
      let r := add_custom_pattern self cat rx nm in
      r.2 = (true, None)
      ∧ config r.1 ≠ config self
      ∧ new_PatternManager (storage r.1) = new_PatternManager (storage self).
Proof.
  intros Hw.
  assert (Hadd : ∀ cat rx nm, storage (add_custom_pattern self cat rx nm).1 = storage self).
  { intros cat rx nm.
    destruct (add_custom_pattern_shape self cat rx nm) as [[-> _]|[c' ->]];
      [done|by apply storage_unwritable]. }
  split; [done|]. split; [|split; [|split]].
  - intros key dn.
    destruct (add_custom_category_shape self key dn) as [[-> _]|[c' ->]];
      [done|by apply storage_unwritable].
  - intros cat index.
    destruct (remove_custom_pattern_shape self cat index) as [[-> _]|[c' ->]];
      [done|by apply storage_unwritable].
  - intros s. unfold update_settings, save_config. cbn [with_config storage].
    by rewrite Hw.
  - intros cat rx nm Hv r. split; [|split].
    + unfold r, add_custom_pattern. by rewrite Hv.
    + intros Hc. pose proof (add_pattern_list self cat rx nm Hv) as Hl. fold r in Hl.
      unfold get_custom_patterns_list in Hl. rewrite Hc in Hl.
      apply (f_equal length) in Hl. rewrite length_app in Hl. cbn in Hl. lia.
    + unfold r. by rewrite Hadd.
Qed.

(** X16.  [add_custom_pattern] touches one category: the custom list of
    every other category and the settings are as before, whatever the call
    answers, and in a registry whose compiled patterns are those of the
    configuration the patterns in use of every other category are as
    before. *)
Theorem add_pattern_touches_one_category
        (self : PatternManager) (cat rx nm cat' : string) :
  cat' ≠ cat →
  let r := add_custom_pattern self cat rx nm in
  get_custom_patterns_list r.1 cat' = get_custom_patterns_list self cat'
  ∧ get_settings r.1 = get_settings self
  ∧ (synced self →
     get_patterns_for_category r.1 cat' = get_patterns_for_category self cat').
Proof.
  intros Hne. cbv zeta.
  destruct (add_pattern_list_other self cat rx nm cat' Hne) as [Hl Hs].
  split; [done|]. split; [done|]. intros Hsync.
  assert (Hsync' : synced (add_custom_pattern self cat rx nm).1).
  { destruct (add_custom_pattern_shape self cat rx nm) as [[-> _]|[c' ->]];
      [done|apply synced_save_and_compile]. }
  destruct (decide (cat' = "emails")) as [->|He]; [done|].
  destruct (decide (cat' = "files")) as [->|Hf]; [done|].
  rewrite !patterns_of_synced by done. by rewrite Hl.
Qed.

(** X17.  [remove_custom_pattern] touches one category: the custom list of
    every other category and the settings are as before, and so are, in a
    registry whose compiled patterns are those of the configuration, the
    patterns in use of every other category.  For a category that is none
    of [endpoints], [urls], [secrets] and no key of the custom categories
    the call answers success for every index and the configuration is as
    before. *)
Theorem remove_pattern_touches_one_category
        (self : PatternManager) (cat : string) (index : Z) :
  let r := remove_custom_pattern self cat index in
  (∀ cat', cat' ≠ cat →
     get_custom_patterns_list r.1 cat' = get_custom_patterns_list self cat'
     ∧ get_settings r.1 = get_settings self
     ∧ (synced self →
        get_patterns_for_category r.1 cat' = get_patterns_for_category self cat'))
  ∧ (¬ has_custom_list self cat → r.2 = (true, None) ∧ config r.1 = config self).
Proof.
  cbv zeta. split.
  - intros cat' Hne.
    destruct (remove_pattern_list_other self cat cat' index Hne) as [Hl Hs].
    split; [done|]. split; [done|]. intros Hsync.
    assert (Hsync' : synced (remove_custom_pattern self cat index).1).
    { destruct (remove_custom_pattern_shape self cat index) as [[-> _]|[c' ->]];
        [done|apply synced_save_and_compile]. }
    destruct (decide (cat' = "emails")) as [->|He]; [done|].
    destruct (decide (cat' = "files")) as [->|Hf]; [done|].
    rewrite !patterns_of_synced by done. by rewrite Hl.
  - intros Hno. unfold has_custom_list in Hno.
    assert (cat ≠ "endpoints" ∧ cat ≠ "urls" ∧ cat ≠ "secrets"
            ∧ custom_categories (config self) !! cat = None) as (H1 & H2 & H3 & H4).
    { repeat split; try (intros ->; apply Hno; left; set_solver).
      destruct (custom_categories (config self) !! cat) eqn:Hd; [|done].
      exfalso. apply Hno. right. by eexists. }
    unfold remove_custom_pattern. rewrite !decide_False by done. rewrite H4.
    cbn [fst snd]. split; [done|]. rewrite config_save_and_compile. by destruct self.
Qed.

End RegistryInvariants.

(** ** Round trips of the registry *)

Section RegistryRoundTrips.
Context `{PyRuntime}.
Import PyStr.

Lemma del_index_last {A : Type} (l : list A) (e : A) (i : Z) :
  i = Z.of_nat (length l) ∨ i = (-1)%Z → del_index (l ++ [e]) i = Some l.
Proof.
  intros Hi. pose proof (del_index_spec (l ++ [e]) i) as Hs. cbv zeta in Hs.
  rewrite Hs, length_app. cbn [length].
  rewrite decide_True by lia. f_equal.
  replace (position (Z.of_nat (length l + 1)) i) with (length l).
  - by rewrite delete_middle, app_nil_r.
  - unfold position. destruct Hi as [->| ->].
    + destruct (Z.ltb_spec (Z.of_nat (length l)) 0); lia.
    + cbn. lia.
Qed.

Lemma config_eta (c : Config) (m' m : gmap string CategoryData) :
  m = custom_categories c →
  set_custom_categories (set_custom_categories c m') m = c.
Proof. intros ->. by destruct c. Qed.

(** X18.  In a category whose custom list the configuration holds, adding a
    pattern that compiles and then removing the entry at the old length of
    the list, or at the index -1, brings the configuration back to what it
    was. *)
Theorem add_then_remove_restores (self : PatternManager) (cat rx nm : string) (i : Z) :
  re_error rx = None → has_custom_list self cat →
  i = Z.of_nat (length (get_custom_patterns_list self cat)) ∨ i = (-1)%Z →
  let added := (add_custom_pattern self cat rx nm).1 in
  (remove_custom_pattern added cat i).2 = (true, None)
  ∧ config (remove_custom_pattern added cat i).1 = config self.
Proof.
  intros Hv Hhas Hi. cbv zeta. unfold get_custom_patterns_list in Hi.
  unfold add_custom_pattern. rewrite Hv. cbn [fst].
  destruct (decide (cat = "endpoints")) as [->|H1];
    [|destruct (decide (cat = "urls")) as [->|H2];
      [|destruct (decide (cat = "secrets")) as [->|H3]]].
  1-3: unfold remove_custom_pattern; rewrite config_save_and_compile;
       cbn [with_config config decide_True decide];
       repeat first [rewrite decide_True by done | rewrite decide_False by done];
       cbn [set_custom_endpoints set_custom_urls set_custom_secrets
            custom_endpoints custom_urls custom_secrets];
       rewrite del_index_last by done; cbn [fst snd]; split; [done|];
       rewrite config_save_and_compile; cbn [with_config config];
       by destruct (config self).
  destruct Hhas as [Hin|[d Hd]].
  { exfalso. rewrite !elem_of_cons in Hin. pose proof (not_elem_of_nil cat). tauto. }
  rewrite Hd in Hi |- *.
  unfold remove_custom_pattern. rewrite config_save_and_compile.
  cbn [with_config config]. rewrite !decide_False by done.
  cbn [set_custom_categories custom_categories].
  rewrite lookup_alter_eq, Hd. cbn [fmap option_fmap option_map patterns display_name].
  rewrite del_index_last by done. cbn [fst snd]. split; [done|].
  rewrite config_save_and_compile. cbn [with_config config].
  apply config_eta. apply map_eq. intros k.
  destruct (decide (k = cat)) as [->|Hk].
  - rewrite lookup_insert_eq, Hd. by destruct d.
  - by rewrite lookup_insert_ne, lookup_alter_ne.
Qed.

(** X19.  The display name of a built-in category is fixed.  A category
    made with [add_custom_category] is shown under the title form of its
    key until it has a pattern that compiles, and under the name it was
    given from then on; a category that [add_custom_pattern] makes for a key
    the configuration does not hold is shown under the title form of the
    key. *)
Theorem display_name_of_category (self : PatternManager) (key dn rx nm : string) :
  (get_category_display_name self "endpoints" = "Endpoints"
   ∧ get_category_display_name self "urls" = "URLs"
   ∧ get_category_display_name self "secrets" = "Secrets"
   ∧ get_category_display_name self "emails" = "Emails"
   ∧ get_category_display_name self "files" = "Files")
  ∧ (key ∉ get_all_categories self →
     let made := (add_custom_category self key dn).1 in
     get_category_display_name made key = title key
     ∧ (re_error rx = None →
        get_category_display_name (add_custom_pattern made key rx nm).1 key = dn))
  ∧ (key ∉ builtin_categories → custom_categories (config self) !! key = None →
     re_error rx = None →
     get_category_display_name (add_custom_pattern self key rx nm).1 key = title key).
Proof.
  split; [done|].
  assert (Hcompiled : ∀ pm d,
             key ∉ builtin_categories → re_error rx = None →
             custom_categories (config pm) !! key = Some {| display_name := d; patterns := [] |} →
             get_category_display_name (add_custom_pattern pm key rx nm).1 key = d).
  { intros pm d Hb Hv Hd. apply not_builtin in Hb as (H1 & H2 & H3 & H4 & H5).
    unfold get_category_display_name. rewrite !decide_False by done.
    unfold add_custom_pattern. rewrite Hv, !decide_False by done. cbn [fst].
    rewrite compiled_save_and_compile. cbn [with_config config].
    cbn [set_custom_categories custom_categories].
    rewrite Hd, lookup_alter_eq, Hd. cbn. unfold compile_category. cbn.
    by rewrite Hv. }
  split.
  - intros Hout. cbv zeta.
    assert (Hb : key ∉ builtin_categories).
    { intros Hb. apply Hout, elem_of_get_all_categories. by left. }
    rewrite add_category_fresh by done. cbn [fst]. split.
    + pose proof Hb as (H1 & H2 & H3 & H4 & H5)%not_builtin.
      unfold get_category_display_name. rewrite !decide_False by done.
      rewrite compiled_save_and_compile. cbn [with_config config].
      cbn [set_custom_categories custom_categories].
      by rewrite lookup_insert_eq.
    + intros Hv. apply Hcompiled; [done..|].
      rewrite config_save_and_compile. cbn [with_config config].
      cbn [set_custom_categories custom_categories]. by rewrite lookup_insert_eq.
  - intros Hb Hnone Hv. pose proof Hb as (H1 & H2 & H3 & H4 & H5)%not_builtin.
    unfold get_category_display_name. rewrite !decide_False by done.
    unfold add_custom_pattern. rewrite Hv, !decide_False by done. cbn [fst].
    rewrite compiled_save_and_compile. cbn [with_config config].
    cbn [set_custom_categories custom_categories].
    rewrite Hnone, lookup_alter_eq, lookup_insert_eq. cbn. unfold compile_category. cbn.
    by rewrite Hv.
Qed.

End RegistryRoundTrips.

(** ** The actions of the settings dialog *)

Section DialogFacts.
Context `{PyRuntime} `{PyUnicode}.
Import PyStr.

Lemma combo_has_custom_list (pm : PatternManager) (cat : string) :
  cat ∈ Dialog.category_combo pm ↔ has_custom_list pm cat.
Proof.
  unfold Dialog.category_combo, has_custom_list.
  by rewrite elem_of_app, elem_of_keys.
Qed.

(** What [remove_custom_pattern] does in a category that has a custom list,
    told by [del] on that list. *)
Lemma remove_pattern_result (self : PatternManager) (cat : string) (index : Z) :
  has_custom_list self cat →
  match del_index (get_custom_patterns_list self cat) index with
  | Some l' =>
      (remove_custom_pattern self cat index).2 = (true, None)
      ∧ get_custom_patterns_list (remove_custom_pattern self cat index).1 cat = l'
  | None => remove_custom_pattern self cat index = not_found self index
  end.
Proof.
  intros Hhas. unfold remove_custom_pattern, get_custom_patterns_list.
  destruct (decide (cat = "endpoints")) as [->|H1];
    [|destruct (decide (cat = "urls")) as [->|H2];
      [|destruct (decide (cat = "secrets")) as [->|H3]]].
  1-3: match goal with
       | |- context [del_index ?l ?i] => destruct (del_index l i); [|done]
       end;
       cbn [fst snd]; by rewrite config_save_and_compile.
  destruct Hhas as [Hin|[d Hd]].
  { exfalso. rewrite !elem_of_cons in Hin. pose proof (not_elem_of_nil cat). tauto. }
  rewrite Hd. destruct (del_index (patterns d) index); [|done].
  cbn [fst snd]. rewrite config_save_and_compile. cbn [with_config config].
  cbn [set_custom_categories custom_categories]. by rewrite lookup_insert_eq.
Qed.

(** X20.  Through the dialog a pattern is removed by the row of the table
    alone.  For a category of the combo box: no selected row shows the
    request to select one and changes nothing; a row of the table removes
    the entry at that position of the custom list and shows no message; a
    row beyond the list shows the not-found message and changes nothing. *)
Theorem dialog_remove_by_row (pm : PatternManager) (cat : string) (row : Z) :
  cat ∈ Dialog.category_combo pm →
  let l := get_custom_patterns_list pm cat in
  let r := Dialog.remove_pattern pm cat row in
  ((row < 0)%Z → r = (pm, Some "Select a pattern to remove"))
  ∧ ((0 ≤ row < Z.of_nat (length l))%Z →
     r.2 = None ∧ get_custom_patterns_list r.1 cat = delete (Z.to_nat row) l)
  ∧ ((Z.of_nat (length l) ≤ row)%Z →
     r = (pm, Some ("Pattern not found: " +:+ str_IndexError row))).
Proof.
  intros Hcat%combo_has_custom_list. cbv zeta. unfold Dialog.remove_pattern.
  pose proof (remove_pattern_result pm cat row Hcat) as Hr.
  pose proof (del_index_spec (get_custom_patterns_list pm cat) row) as Hd.
  cbv zeta in Hd. rewrite Hd in Hr. clear Hd. split; [|split].
  - intros Hrow. by destruct (Z.ltb_spec row 0); [|lia].
  - intros Hrow. destruct (Z.ltb_spec row 0); [lia|].
    rewrite decide_True in Hr by lia. destruct Hr as [Hr2 Hr1].
    destruct (remove_custom_pattern pm cat row) as [pm' [[] e]]; [|done].
    cbn [fst snd] in *. split; [done|]. rewrite Hr1. unfold position.
    by destruct (Z.ltb_spec row 0); [lia|].
  - intros Hrow. destruct (Z.ltb_spec row 0); [lia|].
    rewrite decide_False in Hr by lia. by rewrite Hr.
Qed.

Lemma replace_no_old (old new : ascii) (s : string) :
  old ≠ new → contains (String old EmptyString) (PyText.replace old new s) = false.
Proof.
  intros Hne. induction s as [|c s IH]; [done|].
  cbn [PyText.replace contains startswith]. rewrite IH.
  destruct (Ascii.eqb_spec c old) as [->|Hc].
  - by destruct (Ascii.eqb_spec old new).
  - by destruct (Ascii.eqb_spec old c) as [->|].
Qed.

Lemma lower_replace (old new : ascii) (s : string) :
  lower_char new = new → lower s = s →
  lower (PyText.replace old new s) = PyText.replace old new s.
Proof.
  intros Hn. induction s as [|c s IH]; [done|].
  cbn [lower PyText.replace]. intros [= Hc Hs]. rewrite IH by done.
  by destruct (Ascii.eqb c old); rewrite ?Hn, ?Hc.
Qed.

(** X21.  The key the dialog hands to [add_custom_category] is the text of
    the key field, stripped and lowered by the interpreter, with every
    space replaced by an underscore.  It holds no space, and none of the
    letters A to Z when the interpreter's [lower] leaves none.  An empty
    key shows the request for a key and changes nothing; a key that is in
    the list of categories is refused as existing and changes nothing; a
    key that is not in the list is stored with the name typed, stripped, or
    with the title form of the key when no name was typed. *)
Theorem dialog_category_key (pm : PatternManager) (text name_text : string) :
  let key := Dialog.category_key text in
  let r := Dialog.add_category pm text name_text in
  key = PyText.replace " " "_" (unicode_lower (unicode_strip text))
  ∧ contains " " key = false
  ∧ ((∀ s, lower (unicode_lower s) = unicode_lower s) → lower key = key)
  ∧ (key = EmptyString → r = (pm, Some "Category key is required"))
  ∧ (key ≠ EmptyString → key ∈ get_all_categories pm →
     r = (pm, Some "Category already exists"))
  ∧ (key ≠ EmptyString → key ∉ get_all_categories pm →
     r.2 = Some "Category added. Restart extension to see new tab."
     ∧ custom_categories (config r.1) !! key
       = Some {| display_name := if String.eqb (unicode_strip name_text) EmptyString
                                 then unicode_title key
                                 else unicode_strip name_text;
                 patterns := [] |}).
Proof.
  cbv zeta. unfold Dialog.add_category.
  split; [done|]. split; [by apply replace_no_old|].
  split; [intros Hl; by apply lower_replace|].
  split; [by intros ->|]. split.
  - intros Hne%String.eqb_neq Hin. rewrite Hne. by rewrite add_category_listed.
  - intros Hne%String.eqb_neq Hout. rewrite Hne.
    rewrite add_category_fresh by done. cbn [fst snd]. split; [done|].
    rewrite config_save_and_compile. cbn [with_config config].
    cbn [set_custom_categories custom_categories]. by rewrite lookup_insert_eq.
Qed.

(** X22.  Through the dialog a pattern is stored without its surrounding
    blanks.  A blank pattern shows the request for one and a pattern that
    does not compile shows the error, and both change nothing; a pattern
    that compiles is appended to the custom list of the category under the
    name typed, or under the name Custom Pattern when no name was typed. *)
Theorem dialog_add_pattern (pm : PatternManager) (cat regex_text name_text : string) :
  let rx := strip regex_text in
  let nm := if String.eqb (strip name_text) EmptyString
            then "Custom Pattern" else strip name_text in
  let r := Dialog.add_pattern pm cat regex_text name_text in
  (rx = EmptyString → r = (pm, Some "Regex is required"))
  ∧ (∀ e, rx ≠ EmptyString → re_error rx = Some e →
          r = (pm, Some ("Invalid regex: " +:+ e)))
  ∧ (rx ≠ EmptyString → re_error rx = None →
     r.2 = Some "Pattern added successfully"
     ∧ get_custom_patterns_list r.1 cat
       = get_custom_patterns_list pm cat ++ [{| regex := rx; name := nm |}]).
Proof.
  cbv zeta. unfold Dialog.add_pattern. split; [by intros ->|]. split.
  - intros e Hne%String.eqb_neq Herr. rewrite Hne.
    unfold add_custom_pattern. by rewrite Herr.
  - intros Hne%String.eqb_neq Hv. rewrite Hne.
    pose proof (add_pattern_list pm cat (strip regex_text)
                  (if String.eqb (strip name_text) EmptyString
                   then "Custom Pattern" else strip name_text) Hv) as Hl.
    assert (Hok : (add_custom_pattern pm cat (strip regex_text)
                     (if String.eqb (strip name_text) EmptyString
                      then "Custom Pattern" else strip name_text)).2 = (true, None)).
    { unfold add_custom_pattern. by rewrite Hv. }
    destruct (add_custom_pattern pm cat (strip regex_text) _) as [pm' [ok e]].
    cbn [fst snd] in *. by injection Hok as -> ->.
Qed.

End DialogFacts.

(** ** The results panel and the two ways an analysis is started *)

Section PanelFacts.
Context `{PyRuntime}.
Import PyStr.

Lemma finding_key_inj (cat v1 v2 : string) :
  finding_key cat v1 = finding_key cat v2 → v1 = v2.
Proof.
  unfold finding_key. intros Hk. apply app_inj_len in Hk as [_ Hk]; [|done].
  by injection Hk.
Qed.

Lemma panel_items_add_source (p : Panel.ResultsPanel) (src key : string) :
  panel_items (Panel.add_source p src) key = panel_items p key.
Proof.
  unfold Panel.add_source.
  by destruct (nonempty src && negb (bool_decide (src ∈ Panel.sources p))).
Qed.

Lemma panel_items_add_finding (p : Panel.ResultsPanel) (f : Finding) (key : string) :
  panel_items (Panel.add_finding p f) key
  = panel_items p key ++ (if decide (category f = key) then [Panel.item_of f] else []).
Proof.
  unfold panel_items, Panel.add_finding. cbn [Panel.findings].
  destruct (decide (category f = key)) as [<-|Hne].
  - rewrite lookup_alter_eq.
    destruct (Panel.findings p !! category f) as [l|] eqn:Hl.
    + rewrite bool_decide_eq_true_2 by done. by rewrite Hl.
    + rewrite bool_decide_eq_false_2 by (by intros [? ?]).
      by rewrite lookup_insert_eq.
  - rewrite lookup_alter_ne by done. rewrite app_nil_r.
    destruct (bool_decide (is_Some (Panel.findings p !! category f))); [done|].
    by rewrite lookup_insert_ne.
Qed.

(** The panel keeps what it holds and appends every new finding to the
    list of its category, in the order of the findings. *)
Lemma panel_items_add_findings (p : Panel.ResultsPanel) (new : list Finding)
      (src key : string) :
  panel_items (Panel.add_findings p new src) key
  = panel_items p key ++ (Panel.item_of <$> filter (λ f, category f = key) new).
Proof.
  unfold Panel.add_findings. rewrite <- (panel_items_add_source p src key).
  generalize (Panel.add_source p src). clear p. intros p. revert p.
  induction new as [|f new IH]; intros p; [by rewrite app_nil_r|].
  cbn [foldl]. rewrite IH, panel_items_add_finding, filter_cons.
  destruct (decide (category f = key)); [|by rewrite app_nil_r].
  by rewrite fmap_cons, <- app_assoc.
Qed.

Lemma values_nodup (key : string) (l : list Finding) :
  NoDup (key_of <$> l) → NoDup (value <$> filter (λ f, category f = key) l).
Proof.
  induction l as [|f l IH]; [constructor|].
  rewrite fmap_cons. intros [Hf Hl]%NoDup_cons. rewrite filter_cons.
  destruct (decide (category f = key)) as [Hc|Hc]; [|by apply IH].
  rewrite fmap_cons. apply NoDup_cons. split; [|by apply IH].
  intros Hin. apply Hf. apply list_elem_of_fmap in Hin as [g [Hv Hg]].
  apply list_elem_of_filter in Hg as [Hcg Hg].
  apply list_elem_of_fmap. exists g. split; [|done].
  unfold key_of. by rewrite Hv, Hc, Hcg.
Qed.

Lemma item_values (l : list Finding) :
  Panel.item_value <$> (Panel.item_of <$> l) = value <$> l.
Proof. by rewrite <- list_fmap_compose. Qed.

(** What [analyze_response] with its last step does: the engine is that of
    the analysis, and the panel gets the findings of a call that
    returns. *)
Lemma analyze_response_ui_spec (mi : MessageInfo) (app : BurpExtender) :
  engine (analyze_response_ui mi app).1 = (analyze_response mi (engine app)).1
  ∧ ((analyze_response_ui mi app).2 = None
     ∧ (analyze_response mi (engine app)).2 = None
     ∧ panel (analyze_response_ui mi app).1 = panel app
     ∨ ∃ new,
         (analyze_response_ui mi app).2 = Some tt
         ∧ (analyze_response mi (engine app)).2 = Some new
         ∧ ∀ key, panel_items (panel (analyze_response_ui mi app).1) key
                  = panel_items (panel app) key
                    ++ (Panel.item_of <$> filter (λ f, category f = key) new)).
Proof.
  unfold analyze_response_ui.
  destruct (analyze_response mi (engine app)) as [self [new|]].
  - split; [done|]. right. exists new. split; [done|]. split; [done|].
    intros key. cbn [fst panel]. destruct new as [|f new].
    + by rewrite app_nil_r.
    + apply panel_items_add_findings.
  - split; [done|]. by left.
Qed.

Lemma panel_ok_analyze (mi : MessageInfo) (app : BurpExtender) :
  panel_ok app → panel_ok (analyze_response_ui mi app).1.
Proof.
  intros Hok key. destruct (Hok key) as [Hnd Hseen].
  destruct (analyze_response_ui_spec mi app) as [He Hp].
  destruct (extends_ledger_analyze mi (engine app))
    as (added & (_ & _ & Hs & Hnda & Hnew) & _ & Hret).
  rewrite He, Hs.
  destruct Hp as [(_ & _ & ->)|(new & _ & Hnew' & Hitems)].
  { split; [done|]. intros item Hitem. apply elem_of_union. right. by apply Hseen. }
  rewrite (Hret new Hnew') in Hitems. rewrite Hitems. split.
  - rewrite fmap_app, item_values. apply NoDup_app. split; [done|].
    split; [|by apply values_nodup].
    intros v Hv1 Hv2. apply list_elem_of_fmap in Hv1 as [item [-> Hitem]].
    apply list_elem_of_fmap in Hv2 as [f [Hv Hf]].
    apply list_elem_of_filter in Hf as [Hc Hf].
    apply (Hnew f Hf). unfold key_of. rewrite Hc, <- Hv. by apply Hseen.
  - intros item [Hitem|Hitem]%elem_of_app.
    + apply elem_of_union. right. by apply Hseen.
    + apply list_elem_of_fmap in Hitem as [f [-> Hf]].
      apply list_elem_of_filter in Hf as [Hc Hf].
      apply elem_of_union. left. apply elem_of_list_to_set, list_elem_of_fmap.
      exists f. split; [|done]. unfold key_of. by rewrite Hc.
Qed.

Lemma ledger_exact_analyze_ui (mi : MessageInfo) (app : BurpExtender) :
  ledger_exact (engine app) → ledger_exact (engine (analyze_response_ui mi app).1).
Proof.
  intros Hex. destruct (analyze_response_ui_spec mi app) as [-> _].
  destruct (extends_ledger_analyze mi (engine app)) as (added & Hext & _).
  by eapply ledger_exact_extends.
Qed.

Lemma panel_items_new (key : string) : panel_items Panel.new_ResultsPanel key = [].
Proof.
  unfold panel_items, Panel.new_ResultsPanel. cbn [Panel.findings list_to_map foldr].
  cbn [uncurry fst snd].
  repeat (rewrite lookup_insert; case_decide; [done|]). by rewrite lookup_empty.
Qed.

Lemma panel_items_cleared (p : Panel.ResultsPanel) (key : string) :
  panel_items (Panel.cleared p) key = [].
Proof.
  unfold panel_items, Panel.cleared. cbn [Panel.findings]. rewrite lookup_fmap.
  by destruct (Panel.findings p !! key).
Qed.

Lemma panel_ok_nothing_listed (app : BurpExtender) :
  (∀ key, panel_items (panel app) key = []) → panel_ok app.
Proof.
  intros Hnone key. rewrite Hnone. split; [constructor|].
  intros item Hitem. by apply elem_of_nil in Hitem.
Qed.

Lemma invariants_loaded (st : Storage) :
  ledger_exact (engine (registerExtenderCallbacks st))
  ∧ panel_ok (registerExtenderCallbacks st)
  ∧ panel_mirrors (registerExtenderCallbacks st).
Proof.
  split; [apply ledger_exact_empty|]. split.
  - apply panel_ok_nothing_listed. intros key. apply panel_items_new.
  - intros key. cbn. by rewrite panel_items_new.
Qed.

(** X9.  However an analysis is started and however it ends, two things
    stay true: no two findings on record share a key and the seen-set holds
    exactly their keys; and the panel lists no value twice under a category
    and only values whose key is in the seen-set.  This holds after
    [processProxyMessage], which swallows an exception, after
    [actionPerformed], which an exception leaves in the middle of the
    selected messages, and after [clear_all]. *)
Theorem entry_points_keep_invariants (app : BurpExtender) :
  ledger_exact (engine app) → panel_ok app →
  (∀ req msg,
     ledger_exact (engine (processProxyMessage req msg app))
     ∧ panel_ok (processProxyMessage req msg app))
  ∧ (∀ msgs,
       ledger_exact (engine (actionPerformed msgs app).1)
       ∧ panel_ok (actionPerformed msgs app).1)
  ∧ ledger_exact (engine (clear_all app)) ∧ panel_ok (clear_all app).
Proof.
  intros Hex Hok. split; [|split; [|split]].
  - intros req msg. unfold processProxyMessage.
    destruct req; [done|].
    destruct (negb (passive_mode (get_settings (pattern_manager (engine app)))));
      [done|].
    destruct (getResponse (getMessageInfo msg)); [|done].
    destruct (getUrl (getMessageInfo msg)); [|done].
    destruct (scope_only _ && negb (isInScope msg)); [done|].
    destruct (negb (should_process _ _ _)); [done|].
    split; [by apply ledger_exact_analyze_ui|by apply panel_ok_analyze].
  - intros msgs. revert app Hex Hok.
    induction msgs as [|mi msgs IH]; intros app Hex Hok; [done|].
    cbn [actionPerformed].
    pose proof (ledger_exact_analyze_ui mi app Hex) as Hex'.
    pose proof (panel_ok_analyze mi app Hok) as Hok'.
    destruct (analyze_response_ui mi app) as [app' [[]|]]; [by apply IH|done].
  - apply ledger_exact_empty.
  - apply panel_ok_nothing_listed. intros key. apply panel_items_cleared.
Qed.

Lemma panel_mirrors_analyze (mi : MessageInfo) (app : BurpExtender) :
  panel_mirrors app → (analyze_response_ui mi app).2 = Some tt →
  panel_mirrors (analyze_response_ui mi app).1.
Proof.
  intros Hm Hret key.
  destruct (analyze_response_ui_spec mi app) as [He Hp].
  destruct (extends_ledger_analyze mi (engine app))
    as (added & (_ & Hall & _) & _ & Hadded).
  destruct Hp as [(Hnone & _)|(new & _ & Hnew & Hitems)]; [congruence|].
  rewrite Hitems, (Hm key). unfold ledger_items.
  rewrite He, Hall, <- (Hadded new Hnew).
  by rewrite filter_app, fmap_app.
Qed.

(** X23.  When the panel lists, under every category, the findings the
    ledger holds for it, in their order, it does so again after an analysis
    that returns, after [actionPerformed] when no analysis of it is left
    through an exception, and after [clear_all].  An analysis that is left
    through an exception leaves the panel as it was. *)
Theorem panel_lists_the_ledger (app : BurpExtender) :
  panel_mirrors app →
  (∀ mi, (analyze_response_ui mi app).2 = Some tt →
         panel_mirrors (analyze_response_ui mi app).1)
  ∧ (∀ mi, (analyze_response_ui mi app).2 = None →
           panel (analyze_response_ui mi app).1 = panel app)
  ∧ (∀ msgs, (actionPerformed msgs app).2 = Some tt →
             panel_mirrors (actionPerformed msgs app).1)
  ∧ panel_mirrors (clear_all app).
Proof.
  intros Hm. split; [|split; [|split]].
  - intros mi. by apply panel_mirrors_analyze.
  - intros mi Hnone. destruct (analyze_response_ui_spec mi app) as [_ Hp].
    destruct Hp as [(_ & _ & ->)|(new & Hsome & _)]; [done|congruence].
  - intros msgs. revert app Hm.
    induction msgs as [|mi msgs IH]; intros app Hm Hret; [done|].
    cbn [actionPerformed] in *.
    pose proof (panel_mirrors_analyze mi app Hm) as Hm'.
    destruct (analyze_response_ui mi app) as [app' [[]|]]; [|done].
    apply IH; [by apply Hm'|done].
  - intros key. cbn [clear_all panel engine]. by rewrite panel_items_cleared.
Qed.

End PanelFacts.

(** ** What the proxy listener analyses, and what a row of the panel opens *)

Section ListenerFacts.
Context `{PyRuntime}.
Import PyStr.

(** X10.  The loop over the header lines stops at the first line that
    holds the text content-type: in any case of letters: the lines before it
    and after it play no role, and a list without such a line sets neither
    flag.  The header alone never sets both flags. *)
Theorem first_content_type_header_decides (pre post : list string) (h : string) :
  Forall (λ x, contains "content-type:" (lower x) = false) pre →
  content_type_flags pre = (false, false)
  ∧ (contains "content-type:" (lower h) = true →
     content_type_flags (pre ++ h :: post) = content_type_flags [h])
  ∧ ∀ headers, content_type_flags headers ≠ (true, true).
Proof.
  intros Hpre. split; [|split].
  - induction Hpre as [|x pre Hx Hpre IH]; [done|].
    cbn [content_type_flags]. by rewrite Hx.
  - intros Hh. induction Hpre as [|x pre Hx Hpre IH].
    + cbn [app content_type_flags]. by rewrite Hh.
    + cbn [app content_type_flags]. by rewrite Hx.
  - intros headers. induction headers as [|x headers IH]; [done|].
    cbn [content_type_flags].
    destruct (contains "content-type:" (lower x)); [|done].
    destruct (contains "javascript" (lower x) || contains "application/json" (lower x));
      [done|].
    by destruct (contains "text/html" (lower x)).
Qed.

Lemma get_settings_update (pm : PatternManager) (s : Settings) :
  get_settings (update_settings pm s) = s.
Proof.
  unfold get_settings, update_settings, save_config. cbn [with_config storage].
  by destruct (writable (storage pm)).
Qed.

Lemma listener_idle (msg : ProxyMessage) (app : BurpExtender) :
  let s := get_settings (pattern_manager (engine app)) in
  passive_mode s = false
  ∨ scope_only s = true ∧ isInScope msg = false
  ∨ collect_js s = false ∧ collect_html s = false →
  processProxyMessage false msg app = app.
Proof.
  cbv zeta. intros Hs. unfold processProxyMessage.
  destruct (passive_mode _) eqn:Hp; [|done]. cbn [negb].
  destruct (getResponse (getMessageInfo msg)); [|done].
  destruct (getUrl (getMessageInfo msg)); [|done].
  destruct Hs as [Hs|[[Hs Hin]|[Hjs Hhtml]]]; [done| |].
  - by rewrite Hs, Hin.
  - destruct (scope_only _ && negb (isInScope msg)); [done|].
    unfold should_process. by rewrite Hjs, Hhtml.
Qed.

(** X11.  The settings take effect with the next message.  A request is
    never analysed.  After [toggle_scope] with the box checked, a response
    whose URL is out of scope leaves the extension as it is; the other three
    settings are as before.  After [save_settings] with passive mode on its
    second entry, or with both kinds of content unchecked, every response
    leaves the extension as it is. *)
Theorem settings_gate_the_listener (msg : ProxyMessage) (app : BurpExtender) :
  let pm := pattern_manager (engine app) in
  processProxyMessage true msg app = app
  ∧ (isInScope msg = false →
     processProxyMessage false msg (toggle_scope true app) = toggle_scope true app)
  ∧ (∀ selected,
       let s := get_settings (pattern_manager (engine (toggle_scope selected app))) in
       scope_only s = selected
       ∧ passive_mode s = passive_mode (get_settings pm)
       ∧ collect_js s = collect_js (get_settings pm)
       ∧ collect_html s = collect_html (get_settings pm))
  ∧ (∀ passive_index scope_index js html,
       passive_index ≠ 0%Z ∨ js = false ∧ html = false →
       let app' := with_pattern_manager app
                     (Dialog.save_settings pm passive_index scope_index js html).1 in
       processProxyMessage false msg app' = app').
Proof.
  cbv zeta. split; [done|]. split; [|split].
  - intros Hout. apply listener_idle. right. left.
    unfold toggle_scope. cbn [with_pattern_manager engine pattern_manager].
    by rewrite get_settings_update.
  - intros selected. unfold toggle_scope.
    cbn [with_pattern_manager engine pattern_manager].
    by rewrite get_settings_update.
  - intros passive_index scope_index js html Hoff. apply listener_idle.
    unfold Dialog.save_settings. cbn [fst with_pattern_manager engine pattern_manager].
    rewrite get_settings_update. cbn [passive_mode collect_js collect_html scope_only].
    destruct Hoff as [Hp|[-> ->]].
    + left. by apply Z.eqb_neq.
    + right. by right.
Qed.

Lemma visible_ext (p : Panel.ResultsPanel) (a b : Panel.Item) :
  Panel.item_value a = Panel.item_value b →
  Panel.item_source a = Panel.item_source b →
  Panel.visible p a = Panel.visible p b.
Proof. intros Hv Hs. unfold Panel.visible. by rewrite Hv, Hs. Qed.

(** X24.  With the source filter on [All] and a blank search text the table
    of a category has one row for each of its findings, in their order, so
    the double click on a row opens the exchange of the finding the row
    shows. *)
Theorem unfiltered_row_opens_its_exchange
        (p : Panel.ResultsPanel) (key : string) (i : nat) :
  Panel.selected_source p = "All" →
  strip (lower (Panel.search_field p)) = EmptyString →
  Panel.table_rows p key
  = (λ item, (Panel.item_value item, Panel.item_source item)) <$> panel_items p key
  ∧ Panel.table_rows p key !! i
    = (λ item, (Panel.item_value item, Panel.item_source item))
        <$> panel_items p key !! i
  ∧ Panel.show_request_response p key (Z.of_nat i)
    = (λ item, (Panel.item_message_info item, Panel.item_source item))
        <$> panel_items p key !! i.
Proof.
  intros Hall Hblank.
  assert (Hrows : Panel.table_rows p key
                  = (λ item, (Panel.item_value item, Panel.item_source item))
                      <$> panel_items p key).
  { unfold Panel.table_rows, panel_items. f_equal.
    induction (default [] (Panel.findings p !! key)) as [|item l IH]; [done|].
    cbn [List.filter]. unfold Panel.visible at 1. rewrite Hall, Hblank. cbn.
    by rewrite IH. }
  split; [done|]. split; [by rewrite Hrows, list_lookup_fmap|].
  unfold Panel.show_request_response. fold (panel_items p key).
  destruct (Z.ltb_spec (Z.of_nat i) 0); [lia|]. cbn [orb].
  destruct (Z.leb_spec (Z.of_nat (length (panel_items p key))) (Z.of_nat i)).
  - rewrite lookup_ge_None_2 by lia. done.
  - by rewrite Nat2Z.id.
Qed.

(** X25.  [show_request_response] counts in the list of all findings of
    the category, the table in its rows.  When a filter hides the first
    finding of a category and the table has a row, the double click on the
    first row opens the exchange of the hidden finding, and the row shows
    another finding. *)
Theorem filtered_row_opens_hidden_exchange
        (p : Panel.ResultsPanel) (key : string) (item : Panel.Item)
        (rest : list Panel.Item) (row : string * string) :
  Panel.findings p !! key = Some (item :: rest) →
  Panel.visible p item = false →
  Panel.table_rows p key !! 0 = Some row →
  Panel.show_request_response p key 0
  = Some (Panel.item_message_info item, Panel.item_source item)
  ∧ row ≠ (Panel.item_value item, Panel.item_source item).
Proof.
  intros Hkey Hhidden Hrow. split.
  - unfold Panel.show_request_response. by rewrite Hkey.
  - unfold Panel.table_rows in Hrow. rewrite Hkey in Hrow.
    cbn [default from_option id List.filter] in Hrow. rewrite Hhidden in Hrow.
    apply list_lookup_fmap_Some in Hrow as [shown [-> Hshown]].
    apply list_elem_of_lookup_2, list_elem_of_In, filter_In in Hshown as [_ Hvis].
    intros [= Hv Hs]. rewrite (visible_ext p shown item Hv Hs) in Hvis. congruence.
Qed.

End ListenerFacts.

(** ** The properties beyond the claims, at concrete states *)

Section MoreInstances.
Import PyStr Examples Scenarios.

(** X5 at two keys of 24 and 28 characters that share their first 10 and
    their last 4 characters. *)
Lemma mask_collision_witness :
  let v1 := "AKIA1234567890ABCDEFGHIJ" in
  let v2 := "AKIA123456zzzzzzzzzzzzzzGHIJ" in
  20 < len v1 ∧ 20 < len v2
  ∧ _mask_secret v1 = "AKIA123456...GHIJ"
  ∧ _mask_secret v1 = _mask_secret v2.
Proof.
  intros v1 v2.
  assert (H1 : 20 < len v1) by (vm_compute; lia).
  assert (H2 : 20 < len v2) by (vm_compute; lia).
  destruct (mask_collision v1 v2 H1 H2) as (_ & Hiff & _).
  split; [done|]. split; [done|]. split; [reflexivity|].
  apply Hiff. by split.
Defined.

(** X7 at a URL that names a noise domain, in upper case, in its query. *)
Lemma noise_domain_anywhere_witness :
  lower "EXAMPLE.com" ∈ Builtin.noise_domains
  ∧ _is_valid_url "https://shop.acme.io/go?next=EXAMPLE.com/cart" = false.
Proof.
  assert (Hu : lower "EXAMPLE.com" ∈ Builtin.noise_domains).
  { apply (bool_decide_unpack _). by vm_compute. }
  split; [done|].
  exact (proj2 (noise_domain_anywhere "https://shop.acme.io/go?next=" "EXAMPLE.com"
                  "/cart" Hu)).
Defined.

(** X1 at the first analysis of a document that holds one token. *)
Lemma ledger_keys_unique_witness :
  let self := ledger with_tokens in
  let mi := exchange "https://app.test/main.js" (script "abc123") in
  ledger_exact self
  ∧ ledger_exact (analyze_response (H := rt) mi self).1
  ∧ key_of <$> all_findings (analyze_response (H := rt) mi self).1 = ["tokens:abc123"].
Proof.
  intros self mi.
  assert (Hex : ledger_exact self) by apply ledger_exact_empty.
  split; [done|]. split; [|by vm_compute].
  exact (ledger_keys_unique (H := rt) mi self Hex).
Defined.

(** X4 at the analysis of a document that holds a key of 33 characters. *)
Lemma secrets_stay_masked_witness :
  let self := ledger with_live_key in
  let mi := exchange "https://app.test/main.js" (script live_key) in
  secrets_masked self
  ∧ secrets_masked (analyze_response (H := rt) mi self).1
  ∧ value <$> all_findings (analyze_response (H := rt) mi self).1
    = ["live_key_A...UVWX"].
Proof.
  intros self mi.
  assert (Hm : secrets_masked self).
  { intros f Hf. by apply elem_of_nil in Hf. }
  split; [done|]. split; [|by vm_compute].
  exact (secrets_stay_masked (H := rt) mi self Hm).
Defined.

(** X13 at the registry that holds one custom pattern of [secrets]. *)
Lemma patterns_in_use_witness :
  synced (H := rt) with_live_key
  ∧ get_patterns_for_category with_live_key "secrets"
    = compiled_secrets
      ++ [({| re_pattern := live_key; re_ignorecase := false |}, "Live Key")].
Proof.
  assert (Hs : synced (H := rt) with_live_key) by apply synced_save_and_compile.
  split; [done|].
  assert (He : "secrets" ≠ "emails") by done.
  assert (Hf : "secrets" ≠ "files") by done.
  rewrite (patterns_in_use (H := rt) with_live_key "secrets" Hs He Hf).
  by vm_compute.
Defined.

(** X14 at the registry of a fresh installation and a pattern of a new
    category. *)
Lemma restart_restores_registry_witness :
  writable (storage registry0) = true
  ∧ new_PatternManager (H := rt) (storage with_tokens) = with_tokens.
Proof.
  assert (Hw : writable (storage registry0) = true) by reflexivity.
  split; [done|].
  apply (proj1 (restart_restores_registry (H := rt) registry0 Hw) "tokens" "abc123" "Token").
  reflexivity.
Defined.

(** X15 at a registry whose file cannot be written. *)
Lemma write_failure_is_silent_witness :
  let r := add_custom_pattern (H := rt) read_only "secrets" live_key "Live Key" in
  writable (storage read_only) = false
  ∧ r.2 = (true, None)
  ∧ get_custom_patterns_list r.1 "secrets" = [{| regex := live_key; name := "Live Key" |}]
  ∧ file (storage r.1) = None
  ∧ get_custom_patterns_list (new_PatternManager (H := rt) (storage r.1)) "secrets" = [].
Proof.
  intros r.
  assert (Hw : writable (storage read_only) = false) by reflexivity.
  assert (Hv : re_error (PyRuntime := rt) live_key = None) by reflexivity.
  destruct (write_failure_is_silent (H := rt) read_only Hw) as (_ & _ & _ & _ & Hadd).
  destruct (Hadd "secrets" live_key "Live Key" Hv) as (Hok & _ & Hrestart).
  split; [done|]. split; [exact Hok|]. split; [reflexivity|]. split; [reflexivity|].
  fold r in Hrestart. rewrite Hrestart. reflexivity.
Defined.

(** X16 at a pattern added to [tokens]: the list of [secrets] stays. *)
Lemma add_pattern_touches_one_category_witness :
  let r := add_custom_pattern (H := rt) with_live_key "tokens" "abc123" "Token" in
  "secrets" ≠ "tokens"
  ∧ r.2 = (true, None)
  ∧ get_custom_patterns_list r.1 "secrets"
    = [{| regex := live_key; name := "Live Key" |}].
Proof.
  intros r.
  assert (Hne : "secrets" ≠ "tokens") by done.
  split; [done|]. split; [reflexivity|]. unfold r.
  rewrite (proj1 (add_pattern_touches_one_category
                    (H := rt) with_live_key "tokens" "abc123" "Token" "secrets" Hne)).
  reflexivity.
Defined.

(** X18 at a list of one entry: a second entry is added and the entry at
    index 1 is removed. *)
Lemma add_then_remove_restores_witness :
  let added := (add_custom_pattern (H := rt) with_live_key "secrets" "abc123" "Tmp").1 in
  length (get_custom_patterns_list added "secrets") = 2
  ∧ config (remove_custom_pattern (H := rt) added "secrets" 1).1 = config with_live_key.
Proof.
  intros added. split; [reflexivity|].
  assert (Hv : re_error (PyRuntime := rt) "abc123" = None) by reflexivity.
  assert (Hhas : has_custom_list with_live_key "secrets").
  { left. apply (bool_decide_unpack _). by vm_compute. }
  assert (Hi : 1%Z = Z.of_nat (length (get_custom_patterns_list with_live_key "secrets"))
               ∨ 1%Z = (-1)%Z) by (left; reflexivity).
  exact (proj2 (add_then_remove_restores (H := rt) with_live_key "secrets" "abc123" "Tmp"
                  1 Hv Hhas Hi)).
Defined.

(** X20 at a list of one entry: row 0 is removed, no row and row 1 are
    not. *)
Lemma dialog_remove_by_row_witness :
  "secrets" ∈ Dialog.category_combo with_live_key
  ∧ Dialog.remove_pattern (H := rt) with_live_key "secrets" (-1)
    = (with_live_key, Some "Select a pattern to remove")
  ∧ (Dialog.remove_pattern (H := rt) with_live_key "secrets" 0).2 = None
  ∧ get_custom_patterns_list
      (Dialog.remove_pattern (H := rt) with_live_key "secrets" 0).1 "secrets" = []
  ∧ Dialog.remove_pattern (H := rt) with_live_key "secrets" 1
    = (with_live_key, Some "Pattern not found: list assignment index out of range").
Proof.
  assert (Hcat : "secrets" ∈ Dialog.category_combo with_live_key).
  { apply (bool_decide_unpack _). by vm_compute. }
  split; [done|].
  destruct (dialog_remove_by_row (H := rt) with_live_key "secrets" (-1) Hcat)
    as (Hnone & _ & _).
  destruct (dialog_remove_by_row (H := rt) with_live_key "secrets" 0 Hcat)
    as (_ & Hrow & _).
  destruct (dialog_remove_by_row (H := rt) with_live_key "secrets" 1 Hcat)
    as (_ & _ & Hfar).
  split; [apply Hnone; lia|].
  destruct Hrow as [Hmsg Hlist]; [vm_compute; split; [discriminate|reflexivity]|].
  split; [exact Hmsg|]. split; [by rewrite Hlist|].
  apply Hfar. vm_compute. discriminate.
Defined.

(** X9 at a script that passes the proxy: one finding is recorded and
    listed. *)
Lemma entry_points_keep_invariants_witness :
  let msg := proxied "https://app.test/main.js" (script "abc123") js_headers true in
  let app' := processProxyMessage (H := rt) false msg app_tokens in
  ledger_exact (engine app_tokens) ∧ panel_ok app_tokens
  ∧ ledger_exact (engine app') ∧ panel_ok app'
  ∧ Panel.item_value <$> panel_items (panel app') "tokens" = ["abc123"].
Proof.
  intros msg app'.
  assert (Hex : ledger_exact (engine app_tokens)) by apply ledger_exact_empty.
  assert (Hok : panel_ok app_tokens).
  { apply panel_ok_nothing_listed. intros key. apply panel_items_new. }
  destruct (entry_points_keep_invariants (H := rt) app_tokens Hex Hok) as (Hproxy & _).
  destruct (Hproxy false msg) as [Hex' Hok'].
  split; [done|]. split; [done|]. split; [exact Hex'|]. split; [exact Hok'|].
  by vm_compute.
Defined.

(** X23 at the manual analysis of one script. *)
Lemma panel_lists_the_ledger_witness :
  let app' := (analyze_response_ui (H := rt) first_script app_tokens).1 in
  panel_mirrors app_tokens
  ∧ panel_mirrors app'
  ∧ length (ledger_items (engine app') "tokens") = 1.
Proof.
  intros app'.
  assert (Hm : panel_mirrors app_tokens).
  { intros key. rewrite panel_items_new. reflexivity. }
  split; [done|]. split; [|by vm_compute].
  apply (proj1 (panel_lists_the_ledger (H := rt) app_tokens Hm) first_script).
  by vm_compute.
Defined.

(** X10 at a response with two content-type lines: the first one counts. *)
Lemma first_content_type_header_decides_witness :
  content_type_flags ["HTTP/1.1 200 OK"; "Server: nginx"; "Content-Type: text/html";
                      "content-type: application/javascript"]
  = (false, true).
Proof.
  assert (Hpre : Forall (λ x, contains "content-type:" (lower x) = false)
                   ["HTTP/1.1 200 OK"; "Server: nginx"]).
  { repeat constructor. }
  assert (Hh : contains "content-type:" (lower "Content-Type: text/html") = true)
    by reflexivity.
  exact (proj1 (proj2 (first_content_type_header_decides
                         ["HTTP/1.1 200 OK"; "Server: nginx"]
                         ["content-type: application/javascript"]
                         "Content-Type: text/html" Hpre)) Hh).
Defined.

(** X24 at the panel after the analysis of two scripts, no filter set. *)
Lemma unfiltered_row_opens_its_exchange_witness :
  let p := panel app_two_sources in
  Panel.selected_source p = "All"
  ∧ Panel.table_rows p "tokens"
    = [("abc123", "https://app.test/a.js"); ("ABC123", "https://app.test/b.js")]
  ∧ Panel.show_request_response p "tokens" 1
    = Some (second_script, "https://app.test/b.js").
Proof.
  intros p.
  assert (Hall : Panel.selected_source p = "All") by reflexivity.
  assert (Hblank : strip (lower (Panel.search_field p)) = EmptyString) by reflexivity.
  destruct (unfiltered_row_opens_its_exchange p "tokens" 1 Hall Hblank)
    as (Hrows & _ & Hshow).
  split; [done|]. split.
  - rewrite Hrows. by vm_compute.
  - change 1%Z with (Z.of_nat 1). rewrite Hshow. by vm_compute.
Defined.

(** X25 at the same panel with the source filter on the second script:
    the one row shows the finding of the second script, and the double
    click on it opens the exchange of the first. *)
Lemma filtered_row_opens_hidden_exchange_witness :
  let p := select_source (panel app_two_sources) "https://app.test/b.js" in
  Panel.table_rows p "tokens" = [("ABC123", "https://app.test/b.js")]
  ∧ Panel.show_request_response p "tokens" 0
    = Some (first_script, "https://app.test/a.js").
Proof.
  intros p. split; [by vm_compute|].
  assert (Hkey : Panel.findings p !! "tokens"
                 = Some ({| Panel.item_value := "abc123";
                            Panel.item_source := "https://app.test/a.js";
                            Panel.item_message_info := first_script |}
                         :: [{| Panel.item_value := "ABC123";
                                Panel.item_source := "https://app.test/b.js";
                                Panel.item_message_info := second_script |}]))
    by (by vm_compute).
  assert (Hrow : Panel.table_rows p "tokens" !! 0
                 = Some ("ABC123", "https://app.test/b.js")) by (by vm_compute).
  exact (proj1 (filtered_row_opens_hidden_exchange p "tokens" _ _ _ Hkey eq_refl Hrow)).
Defined.

(** X21 at a text of ASCII characters: the key is lowered and its space
    replaced, and the name is the title form of the key. *)
Lemma dialog_category_key_witness :
  Dialog.category_key (H0 := ascii_text) "  API Keys " = "api_keys"
  ∧ (Dialog.add_category (H := rt) (H0 := ascii_text) registry0 "  API Keys " "").2
    = Some "Category added. Restart extension to see new tab."
  ∧ custom_categories
      (config (Dialog.add_category (H := rt) (H0 := ascii_text)
                 registry0 "  API Keys " "").1) !! "api_keys"
    = Some {| display_name := "Api_Keys"; patterns := [] |}.
Proof.
  destruct (dialog_category_key (H := rt) (H0 := ascii_text) registry0 "  API Keys " "")
    as (Hkey & _ & _ & _ & _ & Hnew).
  split; [reflexivity|]. apply Hnew.
  - done.
  - apply (bool_decide_unpack _). by vm_compute.
Defined.

End MoreInstances.
